(** * Voreen render ports: size negotiation and render-target lifecycle

    A shallow embedding of [src/core/ports/renderport.cpp] (classes
    [RenderPort] and [PortGroup]).  Port objects live in a registry indexed by
    port reference (the C++ [Port*]), render targets in a second registry (the
    C++ [RenderTarget*]); every member function becomes a state transformer
    that may fault where the C++ code has undefined behaviour (a dangling
    pointer, a [static_cast] to the wrong dynamic type, a null dereference).
    Calls that leave the translation unit (the owning [RenderProcessor], the
    logger, OpenGL) are recorded in a trace. *)

From Stdlib Require Import ZArith NArith List Ascii String Bool Lia DecimalString.
From Stdlib Require Import Floats.SpecFloat.
From stdpp Require Import base tactics option list strings.
Import ListNotations.

Local Open Scope string_scope.
Local Open Scope Z_scope.

(** ** Plain data *)

(** [tgt::ivec2]. *)
Abbreviation ivec2 := (Z * Z)%type (only parsing).

(** [tgt::ivec2(0)]: both components zero. *)
Definition ivec2_zero : ivec2 := (0, 0).

(** The range of [int], and the operations on [int] whose result C++ leaves
    undefined: a product or difference outside the range, a remainder by zero
    and the remainder of [INT_MIN] by -1.  [%] truncates towards zero. *)
Definition INT_MIN : Z := -2147483648.
Definition INT_MAX : Z := 2147483647.

Definition int_mul (a b : Z) : option Z :=
  if Z.leb INT_MIN (a * b) && Z.leb (a * b) INT_MAX then Some (a * b) else None.

Definition int_sub (a b : Z) : option Z :=
  if Z.ltb 0 b && Z.ltb a (INT_MIN + b) then None
  else if Z.ltb b 0 && Z.ltb (INT_MAX + b) a then None
  else Some (a - b).

Definition int_rem (a b : Z) : option Z :=
  if Z.eqb b 0 then None
  else if Z.eqb a INT_MIN && Z.eqb b (-1) then None
  else Some (Z.rem a b).

(** A [void*] used as an opaque token; [null] is the C++ literal [0]. *)
Abbreviation voidptr := N (only parsing).
Definition null : voidptr := 0.

(** [if (p)] on a pointer. *)
Definition nonnull (p : voidptr) : bool := negb (N.eqb p null).

(** [Port*] and [RenderTarget*]: indices into the registries of [State]. *)
Abbreviation PortRef := nat (only parsing).
Abbreviation TargetRef := nat (only parsing).

Abbreviation GLenum := Z (only parsing).

(** Values of the OpenGL headers. *)
Definition GL_RGBA : GLenum := 0x1908.
Definition GL_UNSIGNED_BYTE : GLenum := 0x1401.
Definition GL_UNSIGNED_SHORT : GLenum := 0x1403.
Definition GL_FLOAT : GLenum := 0x1406.
Definition GL_COLOR_ATTACHMENT0_EXT : GLenum := 0x8CE0.
Definition GL_DEPTH_ATTACHMENT_EXT : GLenum := 0x8D00.
Definition GL_COLOR_BUFFER_BIT : Z := 0x4000.
Definition GL_DEPTH_BUFFER_BIT : Z := 0x100.

(** [tgt::Vector4<T>], components x, y, z and w (alias a). *)
Record Vector4 (T : Type) : Type := vec4 { vx : T; vy : T; vz : T; va : T }.
Arguments vec4 {T} _ _ _ _.
Arguments vx {T} _.
Arguments vy {T} _.
Arguments vz {T} _.
Arguments va {T} _.

(** [tgt::col4] is [Vector4<uint8_t>]; a channel is a [Z] in [0, 255]. *)
Abbreviation col4 := (Vector4 Z) (only parsing).

(** An IEEE-754 binary32 value, carried as its 32-bit pattern. *)
Abbreviation float32 := Z (only parsing).

(** The buffer [tgt::Texture::downloadTextureToBuffer] hands out, seen at the
    element type the texture stores. *)
Inductive PixelBuffer : Type :=
  | BufUByte (px : list (Vector4 Z))
  | BufUShort (px : list (Vector4 Z))
  | BufFloat (px : list (Vector4 float32))
  | BufRaw (bytes : list Z).

(** [tgt::Texture], as far as the render port reads it. *)
Record Texture : Type := mkTexture {
  tex_format : GLenum;
  tex_dataType : GLenum;
  tex_pixels : PixelBuffer
}.

(** Modelled from the spec: the class [RenderTarget] (rendertarget.h is not
    part of the sources).  Section 3 lists its attributes: pixel dimensions,
    internal colour and depth format, an active flag and an update counter;
    [rt_allocs] counts the reallocations of the GPU surfaces. *)
Record RenderTarget : Type := mkRenderTarget {
  rt_size : ivec2;
  rt_colorFormat : GLenum;
  rt_depthFormat : GLenum;
  rt_active : bool;
  rt_numUpdates : nat;
  rt_debugLabel : string;
  rt_colorTex : option Texture;
  rt_depthTex : option Texture;
  rt_allocs : nat
}.

(** Modelled from the spec: [RenderTarget::resize] reallocates to a new size
    only if it differs from the current size. *)
Definition RenderTarget_resize (newsize : ivec2) (rt : RenderTarget) : RenderTarget :=
  if bool_decide (rt_size rt = newsize) then rt
  else mkRenderTarget newsize (rt_colorFormat rt) (rt_depthFormat rt) (rt_active rt)
         (rt_numUpdates rt) (rt_debugLabel rt) (rt_colorTex rt) (rt_depthTex rt)
         (S (rt_allocs rt)).

(** Modelled from the spec: [RenderTarget::activateTarget] binds the surface as
    the current draw destination and tags it with a label. *)
Definition RenderTarget_activateTarget (label : string) (rt : RenderTarget) : RenderTarget :=
  mkRenderTarget (rt_size rt) (rt_colorFormat rt) (rt_depthFormat rt) true
    (rt_numUpdates rt) label (rt_colorTex rt) (rt_depthTex rt) (rt_allocs rt).

(** Modelled from the spec: [RenderTarget::deactivateTarget] unbinds. *)
Definition RenderTarget_deactivateTarget (rt : RenderTarget) : RenderTarget :=
  mkRenderTarget (rt_size rt) (rt_colorFormat rt) (rt_depthFormat rt) false
    (rt_numUpdates rt) (rt_debugLabel rt) (rt_colorTex rt) (rt_depthTex rt) (rt_allocs rt).

(** Modelled from the spec: [RenderTarget::increaseNumUpdates] bumps the update
    counter. *)
Definition RenderTarget_increaseNumUpdates (rt : RenderTarget) : RenderTarget :=
  mkRenderTarget (rt_size rt) (rt_colorFormat rt) (rt_depthFormat rt) (rt_active rt)
    (S (rt_numUpdates rt)) (rt_debugLabel rt) (rt_colorTex rt) (rt_depthTex rt) (rt_allocs rt).

(** Modelled from the spec: [RenderTarget::setDebugLabel]. *)
Definition RenderTarget_setDebugLabel (label : string) (rt : RenderTarget) : RenderTarget :=
  mkRenderTarget (rt_size rt) (rt_colorFormat rt) (rt_depthFormat rt) (rt_active rt)
    (rt_numUpdates rt) label (rt_colorTex rt) (rt_depthTex rt) (rt_allocs rt).

(** ** Processors and ports *)

(** Modelled from the spec: the owning [RenderProcessor] (renderprocessor.h is
    not part of the sources), an external collaborator that exposes
    [portResized], [sizeOriginChanged] and [testSizeOrigin].  A port holds a
    [Processor*]; the model keeps what the port reads through it: the identity
    of the object, its name, and the verdict of its virtual [testSizeOrigin].
    The notifications [sizeOriginChanged] and [portResized] are recorded in
    the trace. *)
Record Processor : Type := mkProcessor {
  proc_id : N;
  proc_name : string;
  proc_testSizeOrigin : PortRef → voidptr → bool
}.

Inductive PortDirection : Type := OUTPORT | INPORT.

(** Modelled from the spec: the data members of the base class [Port] (port.h
    is not part of the sources): name, direction, connection list bounded by
    [allowMultipleConnections], and the owning processor. *)
Record Port : Type := mkPort {
  name_ : string;
  direction_ : PortDirection;
  allowMultipleConnections_ : bool;
  connectedPorts_ : list PortRef;
  processor_ : Processor
}.

(** The data members [RenderPort] adds, as its constructor initialises them. *)
Record RenderPort : Type := mkRenderPort {
  base : Port;
  renderTarget_ : option TargetRef;
  validResult_ : bool;
  size_ : ivec2;
  sizeOrigin_ : voidptr;
  internalColorFormat_ : GLenum;
  internalDepthFormat_ : GLenum;
  renderTargetSharing_ : bool
}.

(** The dynamic type of a port object. *)
Inductive PortObj : Type :=
  | PlainPort (p : Port)
  | IsRenderPort (rp : RenderPort).

Definition port_base (o : PortObj) : Port :=
  match o with PlainPort p => p | IsRenderPort rp => base rp end.

(** [dynamic_cast<RenderPort*>]. *)
Definition dynamic_cast_RenderPort (o : PortObj) : option RenderPort :=
  match o with PlainPort _ => None | IsRenderPort rp => Some rp end.

(** [RenderPort::RenderPort]. *)
Definition RenderPort_ctor (direction : PortDirection) (name : string)
    (allowMultipleConnections : bool) (proc : Processor)
    (internalColorFormat internalDepthFormat : GLenum) : RenderPort :=
  mkRenderPort (mkPort name direction allowMultipleConnections [] proc)
    None false (128, 128) null internalColorFormat internalDepthFormat false.

(** ** The trace *)

Inductive LogLevel : Type := LERROR | LWARNING.

(** One operand of a [<<] chain. *)
Inductive StreamItem : Type :=
  | SStr (s : string)
  | SVec2 (v : ivec2).

Inductive Event : Type :=
  | Log (lvl : LogLevel) (msg : list StreamItem)
  | Proc_sizeOriginChanged (proc : N) (p : PortRef)
  | Proc_portResized (proc : N) (p : PortRef) (newsize : ivec2)
  | Invalidated (p : PortRef)
  | GlClear (mask : Z)
  | FboActivate (fbo : N)
  | GlDrawBuffers (count : Z) (buffers : list GLenum)
  | GlViewport (x y w h : Z).

(** Instrumentation of [RenderPort::sizeOriginChanged]: one [Entered] per call,
    one [Adopted] per assignment to [sizeOrigin_]. *)
Inductive Probe : Type :=
  | Entered (p : PortRef) (so : voidptr)
  | Adopted (p : PortRef) (so : voidptr).

Record State : Type := mkState {
  ports : list PortObj;
  targets : list (option RenderTarget);
  trace : list Event;
  probes : list Probe
}.

(** ** Computations over the state

    [M A] is a computation that reads and updates the [State] and yields an
    [A], or faults ([None]) where the C++ code has undefined behaviour. *)
Definition M (A : Type) : Type := State → option (A * State).

Definition ret {A : Type} (a : A) : M A := λ s, Some (a, s).

Definition bind {A B : Type} (m : M A) (k : A → M B) : M B :=
  λ s, match m s with Some (a, s') => k a s' | None => None end.

Definition fault {A : Type} : M A := λ _, None.

Declare Scope m_scope.
Delimit Scope m_scope with M.
Notation "'do' x <- m 'in' k" := (bind m (λ x, k))
  (at level 10, x name, m at level 100, k at level 200) : m_scope.
Notation "m >> k" := (bind m (λ _, k))
  (at level 100, k at level 200, right associativity) : m_scope.
Local Open Scope m_scope.

(** A read-only query ([const] member function). *)
Definition query {A : Type} (q : State → option A) : M A :=
  λ s, match q s with Some a => Some (a, s) | None => None end.

(** *** Updates of one component of the state *)

Definition set_port (p : PortRef) (o : PortObj) (s : State) : State :=
  mkState (<[p := o]> (ports s)) (targets s) (trace s) (probes s).

Definition set_target (r : TargetRef) (cell : option RenderTarget) (s : State) : State :=
  mkState (ports s) (<[r := cell]> (targets s)) (trace s) (probes s).

Definition add_target (rt : RenderTarget) (s : State) : State :=
  mkState (ports s) (targets s ++ [Some rt]) (trace s) (probes s).

Definition add_event (e : Event) (s : State) : State :=
  mkState (ports s) (targets s) (trace s ++ [e]) (probes s).

Definition add_probe (g : Probe) (s : State) : State :=
  mkState (ports s) (targets s) (trace s) (probes s ++ [g]).

Definition emit (e : Event) : M unit := λ s, Some (tt, add_event e s).

Definition probe (g : Probe) : M unit := λ s, Some (tt, add_probe g s).

(** [for (size_t i = 0; i < v.size(); ++i) body(v[i])]. *)
Fixpoint forM_ {A : Type} (l : list A) (body : A → M unit) : M unit :=
  match l with
  | [] => ret tt
  | x :: l' => body x >> forM_ l' body
  end.

(** Dereferencing a [Port*]. *)
Definition deref (s : State) (p : PortRef) : option PortObj := ports s !! p.

(** Dereferencing a pointer that the code treats as a [RenderPort*] (the
    implicit [this], or the result of a [static_cast<RenderPort*>]). *)
Definition static_cast_RenderPort (s : State) (p : PortRef) : option RenderPort :=
  match deref s p with
  | Some (IsRenderPort rp) => Some rp
  | _ => None
  end.

Definition store (p : PortRef) (rp : RenderPort) : M unit :=
  λ s, Some (tt, set_port p (IsRenderPort rp) s).

(** Dereferencing a non-null [RenderTarget*]; a deleted target faults. *)
Definition deref_target (s : State) (r : TargetRef) : option RenderTarget :=
  match targets s !! r with
  | Some (Some rt) => Some rt
  | _ => None
  end.

Definition update_target (r : TargetRef) (f : RenderTarget → RenderTarget) : M unit :=
  λ s, match deref_target s r with
       | Some rt => Some (tt, set_target r (Some (f rt)) s)
       | None => None
       end.

(** [delete renderTarget_] after [deinitialize()]. *)
Definition delete_target (r : TargetRef) : M unit :=
  λ s, match deref_target s r with
       | Some _ => Some (tt, set_target r None s)
       | None => None
       end.

(** [new RenderTarget()]: the next free cell of the registry. *)
Definition new_target (rt : RenderTarget) : M TargetRef :=
  λ s, Some (length (targets s), add_target rt s).

(** *** Setters for the data members *)

Definition set_validResult (v : bool) (rp : RenderPort) : RenderPort :=
  mkRenderPort (base rp) (renderTarget_ rp) v (size_ rp) (sizeOrigin_ rp)
    (internalColorFormat_ rp) (internalDepthFormat_ rp) (renderTargetSharing_ rp).

Definition set_size (sz : ivec2) (rp : RenderPort) : RenderPort :=
  mkRenderPort (base rp) (renderTarget_ rp) (validResult_ rp) sz (sizeOrigin_ rp)
    (internalColorFormat_ rp) (internalDepthFormat_ rp) (renderTargetSharing_ rp).

Definition set_sizeOrigin (so : voidptr) (rp : RenderPort) : RenderPort :=
  mkRenderPort (base rp) (renderTarget_ rp) (validResult_ rp) (size_ rp) so
    (internalColorFormat_ rp) (internalDepthFormat_ rp) (renderTargetSharing_ rp).

Definition set_renderTarget (r : option TargetRef) (rp : RenderPort) : RenderPort :=
  mkRenderPort (base rp) r (validResult_ rp) (size_ rp) (sizeOrigin_ rp)
    (internalColorFormat_ rp) (internalDepthFormat_ rp) (renderTargetSharing_ rp).

Definition set_formats (c d : GLenum) (rp : RenderPort) : RenderPort :=
  mkRenderPort (base rp) (renderTarget_ rp) (validResult_ rp) (size_ rp) (sizeOrigin_ rp)
    c d (renderTargetSharing_ rp).

Definition set_base (b : Port) (rp : RenderPort) : RenderPort :=
  mkRenderPort b (renderTarget_ rp) (validResult_ rp) (size_ rp) (sizeOrigin_ rp)
    (internalColorFormat_ rp) (internalDepthFormat_ rp) (renderTargetSharing_ rp).

Definition set_connectedPorts (cs : list PortRef) (b : Port) : Port :=
  mkPort (name_ b) (direction_ b) (allowMultipleConnections_ b) cs (processor_ b).

Definition map_base (f : Port → Port) (o : PortObj) : PortObj :=
  match o with
  | PlainPort p => PlainPort (f p)
  | IsRenderPort rp => IsRenderPort (set_base (f (base rp)) rp)
  end.

(** ** The base class [Port] *)

(** Modelled from the spec: [Port::isOutport] and [Port::isInport], the
    direction of the port. *)
Definition Port_isOutport (b : Port) : bool :=
  match direction_ b with OUTPORT => true | INPORT => false end.

(** Modelled from the spec: [Port::isInport]. *)
Definition Port_isInport (b : Port) : bool := negb (Port_isOutport b).

(** Modelled from the spec: [Port::isConnected], the connection list is not
    empty. *)
Definition Port_isConnected (b : Port) : bool :=
  match connectedPorts_ b with [] => false | _ :: _ => true end.

(** Modelled from the spec: [Port::isConnectedTo]. *)
Definition Port_isConnectedTo (b : Port) (other : PortRef) : bool :=
  bool_decide (other ∈ connectedPorts_ b).

(** Modelled from the spec: [Port::testConnectivity], the base connection
    predicate: direction compatibility, multiplicity, no self or duplicate
    connection. *)
Definition Port_testConnectivity (s : State) (this inport : PortRef) : option bool :=
  match deref s this, deref s inport with
  | Some o, Some i =>
      Some (Port_isOutport (port_base o) && Port_isInport (port_base i)
            && negb (Nat.eqb this inport)
            && negb (Port_isConnectedTo (port_base o) inport)
            && (negb (Port_isConnected (port_base i))
                || allowMultipleConnections_ (port_base i)))
  | _, _ => None
  end.

(** [connectedPorts_.push_back(c)]. *)
Definition push_back (c : PortRef) (b : Port) : Port :=
  set_connectedPorts (connectedPorts_ b ++ [c]) b.

(** Removal of [c] from [connectedPorts_]. *)
Definition erase (c : PortRef) (b : Port) : Port :=
  set_connectedPorts (filter (λ x, x ≠ c) (connectedPorts_ b)) b.

(** An update of the [Port] subobject of the object [p] points to. *)
Definition update_base (p : PortRef) (f : Port → Port) : M unit :=
  λ s, match deref s p with
       | Some o => Some (tt, set_port p (map_base f o) s)
       | None => None
       end.

(** Modelled from the spec: [Port::connect] delegates to the base connection
    predicate and, when it holds, enters each port in the other's connection
    list. *)
Definition Port_connect (this inport : PortRef) : M bool :=
  do ok <- query (λ s, Port_testConnectivity s this inport) in
  if ok then
    update_base this (push_back inport) >>
    update_base inport (push_back this) >>
    ret true
  else ret false.

(** Modelled from the spec: [Port::disconnect] removes each port from the
    other's connection list. *)
Definition Port_disconnect (this other : PortRef) : M unit :=
  update_base this (erase other) >>
  update_base other (erase this).

(** Modelled from the spec: [Port::invalidate] hands the port's invalidation
    level to the owning processor; the call is recorded. *)
Definition Port_invalidate (this : PortRef) : M unit :=
  emit (Invalidated this).

(** ** [RenderPort] *)

(** The owning processor's name and the port's own name, as the log messages
    and debug labels print them. *)
Definition procName (rp : RenderPort) : string := proc_name (processor_ (base rp)).
Definition getName (rp : RenderPort) : string := name_ (base rp).

(** [debugLabel.empty() ? "" : ": " + debugLabel]. *)
Definition labelSuffix (debugLabel : string) : string :=
  if bool_decide (debugLabel = "") then "" else ": " +:+ debugLabel.

(** [RenderPort::validateResult]. *)
Definition validateResult (this : PortRef) : M unit :=
  do rp <- query (λ s, static_cast_RenderPort s this) in
  if Port_isOutport (base rp) then
    match renderTarget_ rp with
    | Some r =>
        store this (set_validResult true rp) >>
        update_target r RenderTarget_increaseNumUpdates
    | None => emit (Log LERROR [SStr "validateResult(): no RenderTarget"])
    end
  else emit (Log LERROR [SStr "validateResult() called on inport"]).

(** [RenderPort::activateTarget]. *)
Definition activateTarget (this : PortRef) (debugLabel : string) : M unit :=
  do rp <- query (λ s, static_cast_RenderPort s this) in
  if Port_isOutport (base rp) then
    match renderTarget_ rp with
    | Some r =>
        update_target r (RenderTarget_activateTarget
                           (procName rp +:+ ":" +:+ getName rp +:+ labelSuffix debugLabel)) >>
        validateResult this
    | None =>
        emit (Log LERROR [SStr "Trying to activate RenderPort without RenderTarget (";
                          SStr (procName rp); SStr ":"; SStr (getName rp); SStr ")"])
    end
  else
    emit (Log LERROR [SStr "activateTarget() called on inport (";
                      SStr (procName rp); SStr ":"; SStr (getName rp); SStr ")"]).

(** [RenderPort::deactivateTarget]. *)
Definition deactivateTarget (this : PortRef) : M unit :=
  do rp <- query (λ s, static_cast_RenderPort s this) in
  if Port_isOutport (base rp) then
    match renderTarget_ rp with
    | Some r => update_target r RenderTarget_deactivateTarget
    | None => emit (Log LERROR [SStr "Trying to activate RenderPort without RenderTarget"])
    end
  else emit (Log LERROR [SStr "deactivateTarget() called on inport"]).

(** [RenderPort::isActive]. *)
Definition isActive (s : State) (this : PortRef) : option bool :=
  rp ← static_cast_RenderPort s this;
  match renderTarget_ rp with
  | Some r => rt ← deref_target s r; Some (rt_active rt)
  | None => Some false
  end.

(** [RenderPort::clearTarget]. *)
Definition clearTarget (this : PortRef) : M unit :=
  do rp <- query (λ s, static_cast_RenderPort s this) in
  if negb (Port_isOutport (base rp)) then
    emit (Log LERROR [SStr "clearTarget() called on inport"])
  else
    do active <- query (λ s, isActive s this) in
    if negb active then emit (Log LERROR [SStr "clearTarget() called on inactive outport"])
    else emit (GlClear (Z.lor GL_COLOR_BUFFER_BIT GL_DEPTH_BUFFER_BIT)).

(** The loop of the inport branch of [RenderPort::getRenderTarget]: connected
    ports that are not outports are skipped, the first outport that casts to
    [RenderPort] answers with its own [renderTarget_] (the call
    [p->getRenderTarget()] on an outport takes the first branch), and a null
    pointer is returned when the loop runs out. *)
Fixpoint getRenderTarget_loop (s : State) (connectedPorts : list PortRef)
    : option (option TargetRef) :=
  match connectedPorts with
  | [] => Some None
  | c :: rest =>
      o ← deref s c;
      if negb (Port_isOutport (port_base o)) then getRenderTarget_loop s rest
      else match dynamic_cast_RenderPort o with
           | Some p => Some (renderTarget_ p)
           | None => getRenderTarget_loop s rest
           end
  end.

(** [RenderPort::getRenderTarget]; the inner option is the pointer, [None]
    being null. *)
Definition getRenderTarget (s : State) (this : PortRef) : option (option TargetRef) :=
  rp ← static_cast_RenderPort s this;
  if Port_isOutport (base rp) then Some (renderTarget_ rp)
  else getRenderTarget_loop s (connectedPorts_ (base rp)).

(** [RenderPort::hasRenderTarget]. *)
Definition hasRenderTarget (s : State) (this : PortRef) : option bool :=
  r ← getRenderTarget s this; Some (bool_decide (r ≠ None)).

(** [RenderPort::getSize]. *)
Definition getSize (s : State) (this : PortRef) : option ivec2 :=
  hasRenderTarget s this ≫= λ has : bool,
  if has then
    r ← getRenderTarget s this;
    match r with
    | Some t => rt ← deref_target s t; Some (rt_size rt)
    | None => None
    end
  else Some ivec2_zero.

(** [RenderPort::getColorTexture]; the inner option is the pointer. *)
Definition getColorTexture (s : State) (this : PortRef) : option (option Texture) :=
  hasRenderTarget s this ≫= λ has : bool,
  if has then
    r ← getRenderTarget s this;
    match r with
    | Some t => rt ← deref_target s t; Some (rt_colorTex rt)
    | None => None
    end
  else Some None.

(** [RenderPort::changeFormat].  [fresh] is the render target that
    [new RenderTarget()] and [initialize(internalColorFormat,
    internalDepthFormat)] produce. *)
Definition changeFormat (this : PortRef) (internalColorFormat internalDepthFormat : GLenum)
    (fresh : RenderTarget) : M unit :=
  do rp <- query (λ s, static_cast_RenderPort s this) in
  if negb (Port_isOutport (base rp)) then
    emit (Log LERROR [SStr "changeFormat() called on inport"])
  else
    do sz <- query (λ s, getSize s this) in
    match renderTarget_ rp with
    | Some r => delete_target r
    | None => ret tt
    end >>
    do r' <- new_target fresh in
    store this (set_renderTarget (Some r') rp) >>
    update_target r' (RenderTarget_resize sz) >>
    Port_invalidate this >>
    do rp' <- query (λ s, static_cast_RenderPort s this) in
    store this (set_formats internalColorFormat internalDepthFormat rp').

(** [RenderPort::hasValidResult].  The call on the first connected port is a
    recursive call of the same member function; [fuel] bounds its depth. *)
Fixpoint hasValidResult (fuel : nat) (this : PortRef) : M bool :=
  match fuel with
  | O => fault
  | S fuel' =>
      do rp <- query (λ s, static_cast_RenderPort s this) in
      if Port_isOutport (base rp) then
        ret (bool_decide (renderTarget_ rp ≠ None) && validResult_ rp)
      else
        match connectedPorts_ (base rp) with
        | [] => ret false
        | first :: _ =>
            do o <- query (λ s, deref s first) in
            match dynamic_cast_RenderPort o with
            | Some _ => hasValidResult fuel' first
            | None =>
                emit (Log LERROR [SStr "RenderPort is connected to Non-RenderPort"]) >>
                ret false
            end
        end
  end.

(** [RenderPort::invalidateResult]. *)
Definition invalidateResult (this : PortRef) : M unit :=
  do rp <- query (λ s, static_cast_RenderPort s this) in
  if Port_isOutport (base rp) then store this (set_validResult false rp)
  else emit (Log LERROR [SStr "invalidateResult() called on inport"]).

(** [RenderPort::setRenderTarget]. *)
Definition setRenderTarget (this : PortRef) (renderTarget : option TargetRef) : M unit :=
  do rp <- query (λ s, static_cast_RenderPort s this) in
  if Port_isOutport (base rp) then
    store this (set_renderTarget renderTarget rp) >>
    Port_invalidate this
  else emit (Log LERROR [SStr "setRenderTarget() called on inport"]).

(** [RenderPort::getSizeOrigin].  On an outport every connected port is cast
    to [RenderPort] and asked in turn; [fuel] bounds the depth of these
    recursive calls.  The second call on the same port, which yields the
    returned value, reads the same state as the first. *)
Fixpoint getSizeOrigin (fuel : nat) (s : State) (this : PortRef) : option voidptr :=
  match fuel with
  | O => None
  | S fuel' =>
      rp ← static_cast_RenderPort s this;
      if Port_isOutport (base rp) then
        (fix loop (connected : list PortRef) : option voidptr :=
           match connected with
           | [] => Some null
           | c :: rest =>
               so ← getSizeOrigin fuel' s c;
               if nonnull so then getSizeOrigin fuel' s c else loop rest
           end) (connectedPorts_ (base rp))
      else Some (sizeOrigin_ rp)
  end.

(** [RenderPort::testConnectivity]. *)
Definition testConnectivity (fuel : nat) (s : State) (this inport : PortRef) : option bool :=
  ok ← Port_testConnectivity s this inport;
  if negb ok then Some false
  else
    me ← static_cast_RenderPort s this;
    _ ← static_cast_RenderPort s inport;
    so_in ← getSizeOrigin fuel s inport;
    if N.eqb so_in null then Some true
    else
      so_this ← getSizeOrigin fuel s this;
      if N.eqb so_in so_this then Some true
      else Some (proc_testSizeOrigin (processor_ (base me)) this so_in).

(** [RenderPort::resize]. *)
Definition resize (fuel : nat) (this : PortRef) (newsize : ivec2) : M unit :=
  do rp <- query (λ s, static_cast_RenderPort s this) in
  if Port_isOutport (base rp) then
    if bool_decide (size_ rp = newsize) then ret tt
    else if bool_decide (newsize = ivec2_zero) then
      emit (Log LWARNING [SStr "resize(): invalid size "; SVec2 newsize])
    else
      match renderTarget_ rp with
      | Some r => update_target r (RenderTarget_resize newsize)
      | None => ret tt
      end >>
      store this (set_size newsize (set_validResult false rp))
  else
    store this (set_size newsize rp) >>
    do so <- query (λ s, getSizeOrigin fuel s this) in
    if negb (nonnull so) then ret tt
    else
      forM_ (connectedPorts_ (base rp)) (λ c,
        do peer <- query (λ s, static_cast_RenderPort s c) in
        emit (Proc_portResized (proc_id (processor_ (base peer))) c newsize)).

(** [RenderPort::sizeOriginChanged].  [fuel] bounds the depth of the recursive
    calls on the connected ports.  The loop runs over the connection list of
    [this], which no callee changes; [size_] is read afresh in every round. *)
Fixpoint sizeOriginChanged (fuel : nat) (this : PortRef) (so : voidptr) : M unit :=
  match fuel with
  | O => fault
  | S fuel' =>
      probe (Entered this so) >>
      do rp <- query (λ s, static_cast_RenderPort s this) in
      if Port_isOutport (base rp) then
        emit (Proc_sizeOriginChanged (proc_id (processor_ (base rp))) this) >>
        store this (set_validResult false rp)
      else
        if N.eqb (sizeOrigin_ rp) so then ret tt
        else
          store this (set_sizeOrigin so rp) >>
          probe (Adopted this so) >>
          forM_ (connectedPorts_ (base rp)) (λ c,
            sizeOriginChanged fuel' c so >>
            if nonnull so then
              do me <- query (λ s, static_cast_RenderPort s this) in
              resize fuel c (size_ me)
            else ret tt)
  end.

(** [RenderPort::connect]. *)
Definition connect (fuel : nat) (this inport : PortRef) : M bool :=
  do ok <- Port_connect this inport in
  if ok then
    do so <- query (λ s, getSizeOrigin fuel s inport) in
    sizeOriginChanged fuel this so >>
    do so' <- query (λ s, getSizeOrigin fuel s inport) in
    (if nonnull so' then
       do rp <- query (λ s, static_cast_RenderPort s inport) in
       do me <- query (λ s, static_cast_RenderPort s this) in
       emit (Proc_portResized (proc_id (processor_ (base me))) this (size_ rp))
     else ret tt) >>
    ret true
  else ret false.

(** [RenderPort::disconnect]. *)
Definition disconnect (fuel : nat) (this other : PortRef) : M unit :=
  Port_disconnect this other >>
  do me <- query (λ s, static_cast_RenderPort s this) in
  if Port_isOutport (base me) then
    do mine <- query (λ s, getSizeOrigin fuel s this) in
    do theirs <- query (λ s, getSizeOrigin fuel s other) in
    (if negb (N.eqb mine theirs) then
       emit (Proc_sizeOriginChanged (proc_id (processor_ (base me))) this)
     else ret tt) >>
    Port_invalidate other
  else ret tt.

(** ** Reading back the colour buffer *)

(** What a call that may throw produces. *)
Inductive Outcome (A : Type) : Type :=
  | Returned (a : A)
  | Thrown (what : string).
Arguments Returned {A} _.
Arguments Thrown {A} _.

(** Conversion of an integer to [uint8_t]. *)
Definition to_uint8 (z : Z) : Z := z mod 256.

Definition map4 {A B : Type} (f : A → B) (v : Vector4 A) : Vector4 B :=
  vec4 (f (vx v)) (f (vy v)) (f (vz v)) (f (va v)).

(** [for (int i = 0; i < n; i++) out[i] = f(in[i])]; reading past the end of
    the downloaded buffer faults, and so does a conversion that is undefined. *)
Fixpoint convert_loop {A B : Type} (f : A → option B) (pixels : list A) (i n : nat)
    : option (list B) :=
  match n with
  | O => Some []
  | S n' =>
      x ← pixels !! i; y ← f x; rest ← convert_loop f pixels (S i) n'; Some (y :: rest)
  end.

(** The value that a 32-bit pattern denotes in IEEE-754 binary32: one sign
    bit, eight exponent bits, 23 fraction bits. *)
Definition binary32 (bits : float32) : spec_float :=
  let sign := Z.testbit bits 31 in
  let ex := Z.land (Z.shiftr bits 23) (Z.ones 8) in
  let frac := Z.land bits (Z.ones 23) in
  if Z.eqb ex 0 then
    match frac with
    | Zpos m => S754_finite sign m (-149)
    | _ => S754_zero sign
    end
  else if Z.eqb ex 255 then
    if Z.eqb frac 0 then S754_infinity sign else S754_nan
  else
    match frac + 2 ^ 23 with
    | Zpos m => S754_finite sign m (ex - 150)
    | _ => S754_nan
    end.

Section ReadColorBuffer.

(** Single-precision arithmetic of the tgt vector classes (tgt/vector.h is
    not part of the sources): [tgt::clamp] on a component, the product of
    two floats, and the conversion of a float to [uint8_t], which is undefined
    for some values. *)
Variable tgt_clamp : spec_float → spec_float → spec_float → spec_float.
Variable fmul : spec_float → spec_float → spec_float.
Variable float_to_uint8 : spec_float → option Z.

(** The literals [0.f], [1.f] and [255.f]. *)
Definition f_0 : spec_float := binary32 0x00000000.
Definition f_1 : spec_float := binary32 0x3F800000.
Definition f_255 : spec_float := binary32 0x437F0000.

(** One component of [tgt::clamp(c, 0.f, 1.f) * 255.f], converted to
    [uint8_t]. *)
Definition float_component (x : float32) : option Z :=
  float_to_uint8 (fmul (tgt_clamp (binary32 x) f_0 f_1) f_255).

(** [tgt::clamp(c, 0.f, 1.f) * 255.f], assigned to a [tgt::col4]. *)
Definition float_pixel (c : Vector4 float32) : option col4 :=
  x ← float_component (vx c);
  y ← float_component (vy c);
  z ← float_component (vz c);
  a ← float_component (va c);
  Some (vec4 x y z a).

(** The four assignments [pixels_b[i].x = pixels[i].x >> 8] and so on. *)
Definition ushort_pixel (c : Vector4 Z) : col4 :=
  map4 (λ x, to_uint8 (Z.shiftr x 8)) c.

(** [new tgt::col4[count]]: a negative count and a failed allocation
    ([new_ok] false) both end in [std::bad_alloc]. *)
Definition new_col4 (new_ok : bool) (count : Z) : bool :=
  negb (Z.ltb count 0) && new_ok.

(** [RenderPort::readColorBuffer].  [download_ok] and [new_ok] tell whether
    the allocation inside [downloadTextureToBuffer] and the [new tgt::col4[]]
    find memory ([std::bad_alloc] otherwise).  [size.x * size.y] is a product
    of [int]. *)
Definition readColorBuffer (download_ok new_ok : bool) (s : State) (this : PortRef)
    : option (Outcome (list col4)) :=
  tex ← getColorTexture s this;
  match tex with
  | None => Some (Thrown "RenderPort::readColorBuffer() called on an empty render port")
  | Some t =>
      if negb (Z.eqb (tex_format t) GL_RGBA) then
        Some (Thrown "RenderPort::readColorBuffer(): Saving render port to file currently only supported for GL_RGBA format")
      else if negb download_ok then
        Some (Thrown "RenderPort::readColorBuffer(): bad allocation")
      else
        size ← getSize s this;
        if Z.eqb (tex_dataType t) GL_UNSIGNED_BYTE then
          match tex_pixels t with
          | BufUByte px => Some (Returned px)
          | _ => None
          end
        else if Z.eqb (tex_dataType t) GL_UNSIGNED_SHORT then
          count ← int_mul size.1 size.2;
          if negb (new_col4 new_ok count) then
            Some (Thrown "RenderPort::readColorBuffer(): bad allocation")
          else
            match tex_pixels t with
            | BufUShort px =>
                out ← convert_loop (λ c, Some (ushort_pixel c)) px 0 (Z.to_nat count);
                Some (Returned out)
            | _ => None
            end
        else if Z.eqb (tex_dataType t) GL_FLOAT then
          count ← int_mul size.1 size.2;
          if negb (new_col4 new_ok count) then
            Some (Thrown "RenderPort::readColorBuffer(): bad allocation")
          else
            match tex_pixels t with
            | BufFloat px =>
                out ← convert_loop float_pixel px 0 (Z.to_nat count); Some (Returned out)
            | _ => None
            end
        else Some (Thrown "RenderPort::readColorBuffer(): unknown data type")
  end.

End ReadColorBuffer.

(** *** Single-precision arithmetic *)

(** [std::max(a, b)] is [(a < b) ? b : a] and [std::min(a, b)] is
    [(b < a) ? b : a]. *)
Definition std_max (a b : spec_float) : spec_float := if SFltb a b then b else a.
Definition std_min (a b : spec_float) : spec_float := if SFltb b a then b else a.

(** Modelled from the spec: [tgt::clamp] (tgt/vector.h is not part of the
    sources) limits a component to the range from [minVal] to [maxVal]. *)
Definition tgt_clamp_float (v minVal maxVal : spec_float) : spec_float :=
  std_min (std_max v minVal) maxVal.

(** The product of two [float]s, rounded to nearest, ties to even. *)
Definition float_mul (x y : spec_float) : spec_float := SFmul 24 128 x y.

(** The integral part of a float, if it has one. *)
Definition float_trunc (x : spec_float) : option Z :=
  match x with
  | S754_zero _ => Some 0
  | S754_finite s m e =>
      let a := if Z.leb 0 e then Zpos m * 2 ^ e else Zpos m / 2 ^ (- e) in
      Some (if s then - a else a)
  | _ => None
  end.

(** The conversion of a [float] to [uint8_t]: the fractional part is
    discarded, and the behaviour is undefined if the result is not a value of
    [uint8_t]. *)
Definition float_to_uint8_t (x : spec_float) : option Z :=
  match float_trunc x with
  | Some t => if Z.leb 0 t && Z.leb t 255 then Some t else None
  | None => None
  end.

(** ** [PortGroup] *)

Record PortGroup : Type := mkPortGroup {
  ports_ : list PortRef;
  fbo_ : option N;
  ignoreConnectivity_ : bool
}.

Definition newline : string := String (Ascii.ascii_of_nat 10) EmptyString.

(** [std::ostringstream << n] for an unsigned or non-negative integer. *)
Definition decimal (n : nat) : string := NilZero.string_of_uint (Nat.to_uint n).

(** [ignoreConnectivity_ || ports_[i]->isConnected()]; the port is only
    dereferenced when the flag is off. *)
Definition PortGroup_active (g : PortGroup) (s : State) (p : PortRef) : option bool :=
  if ignoreConnectivity_ g then Some true
  else rp ← static_cast_RenderPort s p; Some (Port_isConnected (base rp)).

(** The loop of [PortGroup::generateHeader], from index [i] on. *)
Fixpoint generateHeader_loop (g : PortGroup) (s : State) (rest : list PortRef)
    (i targetidx : nat) (headerSource : string) : option string :=
  match rest with
  | [] => Some headerSource
  | p :: rest' =>
      PortGroup_active g s p ≫= λ act : bool,
      if act then
        generateHeader_loop g s rest' (S i) (S targetidx)
          (headerSource +:+
             ("#define OP" +:+ decimal i +:+ " " +:+ decimal targetidx +:+ newline))
      else generateHeader_loop g s rest' (S i) targetidx headerSource
  end.

(** [PortGroup::generateHeader]. *)
Definition generateHeader (g : PortGroup) (s : State) : option string :=
  generateHeader_loop g s (ports_ g) 0 0 "".

(** The loop of [PortGroup::activateTargets], from index [i] on; [buffers]
    holds the [count] entries written so far. *)
Fixpoint activateTargets_loop (g : PortGroup) (debugLabel : string) (rest : list PortRef)
    (i : nat) (buffers : list GLenum) : M (list GLenum) :=
  match rest with
  | [] => ret buffers
  | p :: rest' =>
      do act <- query (λ s, PortGroup_active g s p) in
      if act : bool then
        validateResult p >>
        do rp <- query (λ s, static_cast_RenderPort s p) in
        do r <- query (λ s, getRenderTarget s p) in
        match r with
        | Some t =>
            update_target t (RenderTarget_setDebugLabel
                               (procName rp +:+ "::" +:+ getName rp +:+ labelSuffix debugLabel))
        | None => fault
        end >>
        activateTargets_loop g debugLabel rest' (S i)
          (buffers ++ [GL_COLOR_ATTACHMENT0_EXT + Z.of_nat i])
      else activateTargets_loop g debugLabel rest' (S i) buffers
  end.

(** [PortGroup::activateTargets]. *)
Definition activateTargets (g : PortGroup) (debugLabel : string) : M unit :=
  match fbo_ g with
  | None => fault
  | Some fbo =>
      emit (FboActivate fbo) >>
      match ports_ g with
      | [] => ret tt
      | first :: _ =>
          do buffers <- activateTargets_loop g debugLabel (ports_ g) 0 [] in
          emit (GlDrawBuffers (Z.of_nat (length buffers)) buffers) >>
          do sz <- query (λ s, getSize s first) in
          emit (GlViewport 0 0 sz.1 sz.2)
      end
  end.

(** ** The life cycle of a render port *)

(** Modelled from the spec: [Port::initialize] and [Port::deinitialize]
    (port.cpp is not part of the sources).  The base class keeps none of the
    data members of this model. *)
Definition Port_initialize (this : PortRef) : M unit := ret tt.

Definition Port_deinitialize (this : PortRef) : M unit := ret tt.

(** [RenderPort::initialize].  [fresh] is the render target that
    [new RenderTarget()] and [initialize(internalColorFormat_,
    internalDepthFormat_)] produce. *)
Definition initialize (this : PortRef) (fresh : RenderTarget) : M unit :=
  Port_initialize this >>
  do rp <- query (λ s, static_cast_RenderPort s this) in
  if negb (Port_isOutport (base rp)) then ret tt
  else if renderTargetSharing_ rp then ret tt
  else
    do r <- new_target fresh in
    store this (set_renderTarget (Some r) rp) >>
    update_target r (RenderTarget_setDebugLabel (procName rp +:+ "::" +:+ getName rp)) >>
    update_target r (RenderTarget_resize (size_ rp)) >>
    do rp' <- query (λ s, static_cast_RenderPort s this) in
    store this (set_validResult false rp').

(** [RenderPort::deinitialize]: [renderTarget_->deinitialize()], [delete
    renderTarget_] and [renderTarget_ = 0]. *)
Definition deinitialize (this : PortRef) : M unit :=
  do rp <- query (λ s, static_cast_RenderPort s this) in
  (if Port_isOutport (base rp) then
     match renderTarget_ rp with
     | Some r => delete_target r >> store this (set_renderTarget None rp)
     | None => ret tt
     end
   else ret tt) >>
  Port_deinitialize this.

(** The body of [RenderPort::~RenderPort]. *)
Definition RenderPort_dtor (this : PortRef) : M unit :=
  do rp <- query (λ s, static_cast_RenderPort s this) in
  match renderTarget_ rp with
  | Some _ =>
      emit (Log LERROR [SStr "~RenderPort(): '"; SStr (getName rp);
                        SStr "' has not been deinitialized before destruction"])
  | None => ret tt
  end.

Definition set_renderTargetSharing (sharing : bool) (rp : RenderPort) : RenderPort :=
  mkRenderPort (base rp) (renderTarget_ rp) (validResult_ rp) (size_ rp) (sizeOrigin_ rp)
    (internalColorFormat_ rp) (internalDepthFormat_ rp) sharing.

(** [RenderPort::setRenderTargetSharing]. *)
Definition setRenderTargetSharing (this : PortRef) (sharing : bool) : M unit :=
  do rp <- query (λ s, static_cast_RenderPort s this) in
  store this (set_renderTargetSharing sharing rp).

(** [RenderPort::getRenderTargetSharing]. *)
Definition getRenderTargetSharing (s : State) (this : PortRef) : option bool :=
  rp ← static_cast_RenderPort s this; Some (renderTargetSharing_ rp).

(** [RenderPort::isReady]. *)
Definition isReady (fuel : nat) (this : PortRef) : M bool :=
  do rp <- query (λ s, static_cast_RenderPort s this) in
  do validInport <- (if Port_isInport (base rp) then hasValidResult fuel this
                     else ret false) in
  do validOutport <- (if Port_isOutport (base rp)
                      then query (λ s, hasRenderTarget s this)
                      else ret false) in
  ret (Port_isConnected (base rp) && (validInport || validOutport)).

(** [RenderPort::doesSizeOriginConnectFailWithPort]; processors are compared
    by identity. *)
Definition doesSizeOriginConnectFailWithPort (s : State) (this inport : PortRef)
    : option bool :=
  me ← static_cast_RenderPort s this;
  o ← deref s inport;
  match dynamic_cast_RenderPort o with
  | None => Some false
  | Some rin =>
      let unEqual := negb (Nat.eqb this inport) in
      let outIsOutport := Port_isOutport (base me) in
      let inIsInport := Port_isInport (base rin) in
      let processorUnEqual :=
        negb (N.eqb (proc_id (processor_ (base me))) (proc_id (processor_ (base rin)))) in
      let isNotConnected := negb (Port_isConnectedTo (base me) inport) in
      let thisIsConnected := Port_isConnected (base rin) in
      let thisAllowsMultiple := allowMultipleConnections_ (base rin) in
      Some (unEqual && outIsOutport && inIsInport && processorUnEqual && isNotConnected
            && (negb thisIsConnected || thisAllowsMultiple))
  end.

(** [RenderPort::getDepthTexture]; the inner option is the pointer. *)
Definition getDepthTexture (s : State) (this : PortRef) : option (option Texture) :=
  hasRenderTarget s this ≫= λ has : bool,
  if has then
    r ← getRenderTarget s this;
    match r with
    | Some t => rt ← deref_target s t; Some (rt_depthTex rt)
    | None => None
    end
  else Some None.

(** ** The rest of [PortGroup] *)

(** The identity of a [tgt::Texture*]: the colour or the depth texture of a
    render target. *)
Inductive TextureRef : Type :=
  | ColorTextureOf (t : TargetRef)
  | DepthTextureOf (t : TargetRef).

(** The pointer that [RenderPort::getColorTexture] returns. *)
Definition getColorTexture_ptr (s : State) (this : PortRef) : option (option TextureRef) :=
  hasRenderTarget s this ≫= λ has : bool,
  if has then
    r ← getRenderTarget s this;
    match r with
    | Some t => rt ← deref_target s t;
                Some (match rt_colorTex rt with
                      | Some _ => Some (ColorTextureOf t)
                      | None => None
                      end)
    | None => None
    end
  else Some None.

(** The pointer that [RenderPort::getDepthTexture] returns. *)
Definition getDepthTexture_ptr (s : State) (this : PortRef) : option (option TextureRef) :=
  hasRenderTarget s this ≫= λ has : bool,
  if has then
    r ← getRenderTarget s this;
    match r with
    | Some t => rt ← deref_target s t;
                Some (match rt_depthTex rt with
                      | Some _ => Some (DepthTextureOf t)
                      | None => None
                      end)
    | None => None
    end
  else Some None.

(** The calls a port group makes on its [tgt::FramebufferObject]. *)
Inductive FboCall : Type :=
  | Fbo_activate
  | Fbo_deactivate
  | Fbo_detachAll
  | Fbo_attachTexture (tex : TextureRef) (attachment : GLenum)
  | Fbo_isComplete.

(** The loop of [PortGroup::reattachTargets], from index [i] on; the result is
    the sequence of calls together with the final [hasDepth_]. *)
Fixpoint reattachTargets_loop (g : PortGroup) (s : State) (rest : list PortRef)
    (i : nat) (hasDepth_ : bool) : option (list FboCall * bool) :=
  match rest with
  | [] => Some ([], hasDepth_)
  | p :: rest' =>
      PortGroup_active g s p ≫= λ act : bool,
      if negb act then reattachTargets_loop g s rest' (S i) hasDepth_
      else
        color ← getColorTexture_ptr s p;
        let attachColor :=
          match color with
          | Some tex => [Fbo_attachTexture tex (GL_COLOR_ATTACHMENT0_EXT + Z.of_nat i)]
          | None => []
          end in
        depth ← (if hasDepth_ then Some None else getDepthTexture_ptr s p);
        match depth with
        | Some tex =>
            '(calls, d) ← reattachTargets_loop g s rest' (S i) true;
            Some ((attachColor ++ [Fbo_attachTexture tex GL_DEPTH_ATTACHMENT_EXT]
                   ++ calls)%list, d)
        | None =>
            '(calls, d) ← reattachTargets_loop g s rest' (S i) hasDepth_;
            Some ((attachColor ++ calls)%list, d)
        end
  end.

(** [PortGroup::reattachTargets]: the calls made on the framebuffer object. *)
Definition reattachTargets (g : PortGroup) (s : State) : option (list FboCall) :=
  match fbo_ g with
  | None => Some []
  | Some _ =>
      match ports_ g with
      | [] => Some [Fbo_activate; Fbo_detachAll]
      | _ :: _ =>
          '(calls, hasDepth_) ← reattachTargets_loop g s (ports_ g) 0 false;
          Some ([Fbo_activate; Fbo_detachAll] ++ calls
                ++ (if hasDepth_ : bool then [Fbo_isComplete] else []))%list
      end
  end.

(** [PortGroup::addPort]: the group with the port appended, and the calls of
    [reattachTargets]. *)
Definition PortGroup_addPort (g : PortGroup) (rp : PortRef) (s : State)
    : option (PortGroup * list FboCall) :=
  let g' := mkPortGroup (ports_ g ++ [rp]) (fbo_ g) (ignoreConnectivity_ g) in
  calls ← reattachTargets g' s; Some (g', calls).

(** [PortGroup::PortGroup]. *)
Definition PortGroup_ctor (ignoreConnectivity : bool) : PortGroup :=
  mkPortGroup [] None ignoreConnectivity.

(** [PortGroup::initialize]; [fresh] is the object [new
    tgt::FramebufferObject()] yields. *)
Definition PortGroup_initialize (g : PortGroup) (fresh : N) : PortGroup :=
  match fbo_ g with
  | Some _ => g
  | None => mkPortGroup (ports_ g) (Some fresh) (ignoreConnectivity_ g)
  end.

(** [PortGroup::deinitialize]. *)
Definition PortGroup_deinitialize (g : PortGroup) : PortGroup :=
  mkPortGroup (ports_ g) None (ignoreConnectivity_ g).

(** [PortGroup::deactivateTargets]; a null [fbo_] faults. *)
Definition PortGroup_deactivateTargets (g : PortGroup) : option (list FboCall) :=
  match fbo_ g with
  | Some _ => Some [Fbo_deactivate]
  | None => None
  end.

(** [PortGroup::clearTargets]. *)
Definition PortGroup_clearTargets : M unit :=
  emit (GlClear (Z.lor GL_COLOR_BUFFER_BIT GL_DEPTH_BUFFER_BIT)).

(** [PortGroup::resize]. *)
Definition PortGroup_resize (fuel : nat) (g : PortGroup) (newsize : ivec2) : M unit :=
  forM_ (ports_ g) (λ p, resize fuel p newsize).

(** ** A client of render ports: [QuadView]

    [src/modules/base/processors/image/quadview.cpp]: a processor with one
    outport and four inports that shows the four inputs in a 2x2 grid or one of
    them maximised.  Integers of screen coordinates are unbounded here; [/] and
    [%] of C++ are [Z.quot] and [Z.rem]. *)

(** Modelled from the spec: [tgt::MouseEvent] (tgt/event/mouseevent.h is not
    part of the sources), as far as [QuadView] reads and writes it. *)
Record MouseEvent : Type := mkMouseEvent {
  ev_x : Z;
  ev_y : Z;
  ev_action : Z;
  ev_modifiers : Z;
  ev_button : Z;
  ev_viewport : ivec2;
  ev_accepted : bool
}.

(** [tgt::MouseEvent(x, y, action, modifiers, button, viewport)]; a new event
    counts as accepted (see the comment in [QuadView::onEvent]). *)
Definition MouseEvent_ctor (x y action modifiers button : Z) (viewport : ivec2) : MouseEvent :=
  mkMouseEvent x y action modifiers button viewport true.

(** [tgt::Event::accept] and [tgt::Event::ignore]. *)
Definition accept (e : MouseEvent) : MouseEvent :=
  mkMouseEvent (ev_x e) (ev_y e) (ev_action e) (ev_modifiers e) (ev_button e)
    (ev_viewport e) true.

Definition ignore (e : MouseEvent) : MouseEvent :=
  mkMouseEvent (ev_x e) (ev_y e) (ev_action e) (ev_modifiers e) (ev_button e)
    (ev_viewport e) false.

(** [viewport / 2] on a [tgt::ivec2]. *)
Definition ivec2_half (v : ivec2) : ivec2 := (Z.quot v.1 2, Z.quot v.2 2).

(** The data members of [QuadView] that the event handlers use, and its five
    ports. *)
Record QuadView : Type := mkQuadView {
  maximized_ : Z;
  maximizeOnDoubleClick_ : bool;
  currentPort_ : Z;
  isDragging_ : bool;
  outport_ : PortRef;
  inport1_ : PortRef;
  inport2_ : PortRef;
  inport3_ : PortRef;
  inport4_ : PortRef
}.

Definition set_maximized (m : Z) (q : QuadView) : QuadView :=
  mkQuadView m (maximizeOnDoubleClick_ q) (currentPort_ q) (isDragging_ q)
    (outport_ q) (inport1_ q) (inport2_ q) (inport3_ q) (inport4_ q).

Definition set_currentPort (c : Z) (q : QuadView) : QuadView :=
  mkQuadView (maximized_ q) (maximizeOnDoubleClick_ q) c (isDragging_ q)
    (outport_ q) (inport1_ q) (inport2_ q) (inport3_ q) (inport4_ q).

Definition set_isDragging (d : bool) (q : QuadView) : QuadView :=
  mkQuadView (maximized_ q) (maximizeOnDoubleClick_ q) (currentPort_ q) d
    (outport_ q) (inport1_ q) (inport2_ q) (inport3_ q) (inport4_ q).

(** [inport<k>_.requestSize(size)]. *)
Inductive SizeRequest : Type := RequestSize (k : Z) (size : ivec2).

(** [QuadView::updateSizes]; [size] is [outport_.getSize()] and [received] is
    [outport_.getReceivedSize()]. *)
Definition QuadView_updateSizes (q : QuadView) (size received : ivec2) : list SizeRequest :=
  if bool_decide (size = ivec2_zero) then []
  else if Z.eqb (maximized_ q) 0 then
    let subsize := ivec2_half received in
    [RequestSize 1 subsize; RequestSize 2 subsize; RequestSize 3 subsize;
     RequestSize 4 subsize]
  else if Z.eqb (maximized_ q) 1 then [RequestSize 1 received]
  else if Z.eqb (maximized_ q) 2 then [RequestSize 2 received]
  else if Z.eqb (maximized_ q) 3 then [RequestSize 3 received]
  else if Z.eqb (maximized_ q) 4 then [RequestSize 4 received]
  else [].

(** [QuadView::toggleMaximization]: the new state, the event, and the size
    requests of [updateSizes]. *)
Definition QuadView_toggleMaximization (q : QuadView) (me : MouseEvent)
    (size received : ivec2) : QuadView * MouseEvent * list SizeRequest :=
  if maximizeOnDoubleClick_ q then
    let q' :=
      if Z.eqb (maximized_ q) 0 then
        if Z.ltb (ev_y me) (Z.quot (ev_viewport me).2 2) then
          if Z.ltb (ev_x me) (Z.quot (ev_viewport me).1 2) then set_maximized 1 q
          else set_maximized 2 q
        else
          if Z.ltb (ev_x me) (Z.quot (ev_viewport me).1 2) then set_maximized 3 q
          else set_maximized 4 q
      else set_maximized 0 q in
    (q', accept me, QuadView_updateSizes q' size received)
  else (q, me, []).

(** [inport<k>_.distributeEvent(&event)], with the event as it is handed
    over. *)
Inductive Distributed : Type := DistributeEvent (k : Z) (event : MouseEvent).

(** The [switch] statements over a port number: cases 1 to 4 distribute the
    event, any other value does nothing. *)
Definition distribute_switch (k : Z) (event : MouseEvent) : list Distributed :=
  if Z.eqb k 1 then [DistributeEvent 1 event]
  else if Z.eqb k 2 then [DistributeEvent 2 event]
  else if Z.eqb k 3 then [DistributeEvent 3 event]
  else if Z.eqb k 4 then [DistributeEvent 4 event]
  else [].

Section QuadViewEvents.

(** The action bits of [tgt::MouseEvent]. *)
Variables MOTION PRESSED RELEASED ENTER EXIT : Z.

(** What the network behind inport [k] makes of an event: the event after
    [distributeEvent] has returned. *)
Variable distributeEvent : Z → MouseEvent → MouseEvent.

(** The caller's event after a [switch] over a port number has handed it to
    [distributeEvent]: cases 1 to 4 pass the event itself, any other value
    leaves it alone. *)
Definition switch_event (k : Z) (event : MouseEvent) : MouseEvent :=
  if Z.eqb k 1 then distributeEvent 1 event
  else if Z.eqb k 2 then distributeEvent 2 event
  else if Z.eqb k 3 then distributeEvent 3 event
  else if Z.eqb k 4 then distributeEvent 4 event
  else event.

(** [QuadView::mouseMove]: the new state, the event, and the events
    distributed to the inports, in order.  A viewport narrower or lower than
    two pixels makes [%] divide by zero; [%] is the remainder of [int]. *)
Definition QuadView_mouseMove (q : QuadView) (e : MouseEvent)
    : option (QuadView * MouseEvent * list Distributed) :=
  let e := accept e in
  let prevCurrenPort := currentPort_ q in
  if Z.eqb (maximized_ q) 0 then
    let q1 := if Z.eqb (Z.land (ev_action e) EXIT) EXIT then set_currentPort (-1) q else q in
    let q2 := if Z.eqb (Z.land (ev_action e) PRESSED) PRESSED
              then set_isDragging true q1 else q1 in
    let q3 := if Z.eqb (Z.land (ev_action e) RELEASED) RELEASED
              then set_isDragging false q2 else q2 in
    let q4 :=
      if negb (isDragging_ q3) then
        if Z.ltb (ev_y e) (Z.quot (ev_viewport e).2 2) then
          if Z.ltb (ev_x e) (Z.quot (ev_viewport e).1 2) then set_currentPort 1 q3
          else set_currentPort 2 q3
        else
          if Z.ltb (ev_x e) (Z.quot (ev_viewport e).1 2) then set_currentPort 3 q3
          else set_currentPort 4 q3
      else q3 in
    let crossing :=
      if negb (Z.eqb (currentPort_ q4) prevCurrenPort) then
        let leaveEvent :=
          ignore (MouseEvent_ctor 1 1 EXIT (ev_modifiers e) (ev_button e)
                    (ivec2_half (ev_viewport e))) in
        let enterEvent :=
          ignore (MouseEvent_ctor 1 1 ENTER (ev_modifiers e) (ev_button e)
                    (ivec2_half (ev_viewport e))) in
        (distribute_switch prevCurrenPort leaveEvent
         ++ distribute_switch (currentPort_ q4) enterEvent)%list
      else [] in
    lx ← int_rem (ev_x e) (Z.quot (ev_viewport e).1 2);
    ly ← int_rem (ev_y e) (Z.quot (ev_viewport e).2 2);
    let moveEvent :=
      ignore (MouseEvent_ctor lx ly MOTION (ev_modifiers e) (ev_button e)
                (ivec2_half (ev_viewport e))) in
    Some (q4, e, (crossing ++ distribute_switch (currentPort_ q4) moveEvent)%list)
  else Some (q, switch_event (maximized_ q) e, distribute_switch (maximized_ q) e).

(** What [QuadView::onEvent] does with an event. *)
Inductive Handled : Type :=
  | ToRenderProcessor
  | ToInport (k : Z) (event : MouseEvent).

(** The four branches of the grid mode of [QuadView::onEvent]: a copy of the
    event in the coordinates of the sub-view goes to the inport, and the event
    is accepted if the copy comes back accepted. *)
Definition onEvent_forward (k : Z) (me newme : MouseEvent) : MouseEvent * list Handled :=
  let newme := ignore newme in
  (if ev_accepted (distributeEvent k newme) then accept me else me, [ToInport k newme]).

(** [QuadView::onEvent] on a mouse event ([None] stands for an event that is
    not a [tgt::MouseEvent]); [accepts_move] and [accepts_maximize] are the
    answers of [mouseMoveEventProp_.accepts(me)] and
    [maximizeEventProp_.accepts(me)].  The coordinates of the copy are
    differences of [int]. *)
Definition QuadView_onEvent (q : QuadView) (e : option MouseEvent)
    (accepts_move accepts_maximize : bool) : option (option MouseEvent * list Handled) :=
  match e with
  | None => Some (None, [ToRenderProcessor])
  | Some me =>
      if accepts_move || (accepts_maximize && maximizeOnDoubleClick_ q)
      then Some (Some me, [ToRenderProcessor])
      else if Z.eqb (maximized_ q) 0 then
        let half := ivec2_half (ev_viewport me) in
        '(me', handled) ←
          (if Z.ltb (ev_y me) (Z.quot (ev_viewport me).2 2) then
             if Z.ltb (ev_x me) (Z.quot (ev_viewport me).1 2) then
               Some (onEvent_forward 1 me
                       (MouseEvent_ctor (ev_x me) (ev_y me) (ev_action me)
                          (ev_modifiers me) (ev_button me) half))
             else
               lx ← int_sub (ev_x me) (Z.quot (ev_viewport me).1 2);
               Some (onEvent_forward 2 me
                       (MouseEvent_ctor lx (ev_y me) (ev_action me) (ev_modifiers me)
                          (ev_button me) half))
           else
             if Z.ltb (ev_x me) (Z.quot (ev_viewport me).1 2) then
               ly ← int_sub (ev_y me) (Z.quot (ev_viewport me).2 2);
               Some (onEvent_forward 3 me
                       (MouseEvent_ctor (ev_x me) ly (ev_action me) (ev_modifiers me)
                          (ev_button me) half))
             else
               lx ← int_sub (ev_x me) (Z.quot (ev_viewport me).1 2);
               ly ← int_sub (ev_y me) (Z.quot (ev_viewport me).2 2);
               Some (onEvent_forward 4 me
                       (MouseEvent_ctor lx ly (ev_action me) (ev_modifiers me)
                          (ev_button me) half)));
        Some (Some me', handled)
      else if Z.eqb (maximized_ q) 1 then Some (Some (distributeEvent 1 me), [ToInport 1 me])
      else if Z.eqb (maximized_ q) 2 then Some (Some (distributeEvent 2 me), [ToInport 2 me])
      else if Z.eqb (maximized_ q) 3 then Some (Some (distributeEvent 3 me), [ToInport 3 me])
      else if Z.eqb (maximized_ q) 4 then Some (Some (distributeEvent 4 me), [ToInport 4 me])
      else Some (Some me, [])
  end.

End QuadViewEvents.

(** [QuadView::isReady]; the ports are asked in the order of the source, and
    [||] and [&&] stop at the first operand that decides. *)
Definition QuadView_isReady (fuel : nat) (q : QuadView) : M bool :=
  do out <- isReady fuel (outport_ q) in
  if negb out then ret false
  else
    do r1 <- isReady fuel (inport1_ q) in
    do none <- (if r1 then ret false
                else do r2 <- isReady fuel (inport2_ q) in
                     if r2 then ret false
                     else do r3 <- isReady fuel (inport3_ q) in
                          if r3 then ret false
                          else do r4 <- isReady fuel (inport4_ q) in
                               ret (negb r4)) in
    if none : bool then ret false
    else if Z.eqb (maximized_ q) 1 then isReady fuel (inport1_ q)
    else if Z.eqb (maximized_ q) 2 then isReady fuel (inport2_ q)
    else if Z.eqb (maximized_ q) 3 then isReady fuel (inport3_ q)
    else if Z.eqb (maximized_ q) 4 then isReady fuel (inport4_ q)
    else ret true.

(** ** Vocabulary of the statements *)

(** The [renderTarget_] pointer of a port is null or points to a live target. *)
Definition target_alive (s : State) (rp : RenderPort) : Prop :=
  match renderTarget_ rp with
  | Some r => deref_target s r ≠ None
  | None => True
  end.

(** The first non-null token of a sequence, null if there is none. *)
Definition first_nonnull (origins : list voidptr) : voidptr :=
  default null (head (filter (λ so : voidptr, so ≠ null) origins)).

(** [p] refers to a render inport whose [sizeOrigin_] is [so]. *)
Definition inport_with_origin (s : State) (p : PortRef) (so : voidptr) : Prop :=
  ∃ rp, static_cast_RenderPort s p = Some rp
        ∧ Port_isOutport (base rp) = false ∧ sizeOrigin_ rp = so.

(** Positions, counted from [i], of the true entries of [flags]. *)
Fixpoint indices_from (i : nat) (flags : list bool) : list nat :=
  match flags with
  | [] => []
  | b :: rest => if b then i :: indices_from (S i) rest else indices_from (S i) rest
  end.

Definition active_indices (flags : list bool) : list nat := indices_from 0 flags.

(** The line [#define OP<i> <k>]. *)
Definition header_line (i k : nat) : string :=
  "#define OP" +:+ decimal i +:+ " " +:+ decimal k +:+ String "010"%char EmptyString.

(** One line per entry of [idx]; the entries are numbered from [k] on. *)
Fixpoint header_lines (k : nat) (idx : list nat) : string :=
  match idx with
  | [] => ""
  | i :: rest => header_line i k +:+ header_lines (S k) rest
  end.

(** The colour attachment slot of the port at position [i] of a group. *)
Definition attachment (i : nat) : GLenum := GL_COLOR_ATTACHMENT0_EXT + Z.of_nat i.

(** [p] is an outport whose [renderTarget_] points to a live target. *)
Definition has_live_target (s : State) (p : PortRef) : Prop :=
  ∃ rp r rt, static_cast_RenderPort s p = Some rp
             ∧ Port_isOutport (base rp) = true
             ∧ renderTarget_ rp = Some r
             ∧ deref_target s r = Some rt.

(** What the queries of a port read of another port object, and of a target. *)
Definition port_view (o : PortObj) : Port * option (option TargetRef) :=
  (port_base o, renderTarget_ <$> dynamic_cast_RenderPort o).

(** Two states that differ at most in valid flags, update counters, labels and
    traces. *)
Definition similar (s s' : State) : Prop :=
  (∀ q, port_view <$> deref s' q = port_view <$> deref s q)
  ∧ (∀ r, rt_size <$> deref_target s' r = rt_size <$> deref_target s r).

(** *** The port graph as size-origin propagation sees it *)

(** What the propagation reads of a port object: the base part and, for a
    render port, the target pointer and the size origin. *)
Abbreviation PortView :=
  (Port * option (option TargetRef * voidptr))%type (only parsing).

Definition view_of (o : PortObj) : PortView :=
  (port_base o, (λ rp, (renderTarget_ rp, sizeOrigin_ rp)) <$> dynamic_cast_RenderPort o).

Definition views (s : State) : list PortView := view_of <$> ports s.

(** The view without the size origin. *)
Definition frame_of (v : PortView) : Port * option (option TargetRef) :=
  (v.1, fst <$> v.2).

Definition frames (s : State) : list (Port * option (option TargetRef)) :=
  frame_of <$> views s.

(** Which cells of the target registry hold a live target. *)
Definition alive (s : State) : list bool :=
  (λ cell : option RenderTarget, bool_decide (cell ≠ None)) <$> targets s.

(** [p] refers to a render port. *)
Definition is_render (s : State) (p : PortRef) : Prop :=
  ∃ b x, views s !! p = Some (b, Some x).

(** A well-formed network: every port connected to a render port is a render
    port of the registry, and every non-null target pointer points to a live
    target. *)
Definition wf (s : State) : Prop :=
  ∀ p b x, views s !! p = Some (b, Some x) →
    Forall (is_render s) (connectedPorts_ b)
    ∧ (∀ r, x.1 = Some r → alive s !! r = Some true).

(** 1 for a render inport whose size origin differs from [so], 0 otherwise. *)
Definition pend (so : voidptr) (v : PortView) : nat :=
  match v.2 with
  | Some x => if Port_isOutport v.1 then 0 else if N.eqb x.2 so then 0 else 1
  | None => 0
  end.

(** The number of render inports whose size origin differs from [so]. *)
Definition pending (so : voidptr) (s : State) : nat := sum_list_with (pend so) (views s).

Definition pending_at (so : voidptr) (s : State) (p : PortRef) : nat :=
  from_option (pend so) 0%nat (views s !! p).

(** The number of connections of the render inports whose size origin differs
    from [so]. *)
Definition weight (so : voidptr) (s : State) : nat :=
  sum_list_with (λ v, pend so v * length (connectedPorts_ v.1))%nat (views s).


(** Calls of [sizeOriginChanged] and assignments to [sizeOrigin_] in a list of
    probes. *)
Definition entered (l : list Probe) : nat :=
  sum_list_with (λ g, match g with Entered _ _ => 1 | Adopted _ _ => 0 end)%nat l.

Definition adopted (l : list Probe) : nat :=
  sum_list_with (λ g, match g with Entered _ _ => 0 | Adopted _ _ => 1 end)%nat l.

Definition adopted_by (p : PortRef) (l : list Probe) : nat :=
  sum_list_with (λ g, match g with
                      | Entered _ _ => 0
                      | Adopted q _ => if decide (q = p) then 1 else 0
                      end)%nat l.

(** The bookkeeping of a run from [s] to [s'] that adds the probes [new]: the
    shape of the graph is kept, every assignment to [sizeOrigin_] turns one
    pending inport into a settled one, and the calls are paid for by the
    connections of the inports that were settled. *)
Definition Account (so : voidptr) (s s' : State) (new : list Probe) (calls : Z) : Prop :=
  frames s' = frames s
  ∧ alive s' = alive s
  ∧ probes s' = (probes s ++ new)%list
  ∧ (pending so s' + adopted new = pending so s)%nat
  ∧ (∀ p, adopted_by p new + pending_at so s' p = pending_at so s p)%nat
  ∧ Z.of_nat (entered new) + Z.of_nat (weight so s') = calls + Z.of_nat (weight so s).

(** A boolean check of [wf]. *)
Definition is_renderb (s : State) (p : PortRef) : bool :=
  match views s !! p with
  | Some (_, Some _) => true
  | _ => false
  end.

Definition wfb (s : State) : bool :=
  forallb (λ v : PortView,
             match v.2 with
             | Some x =>
                 forallb (is_renderb s) (connectedPorts_ v.1)
                 && match x.1 with
                    | Some r => bool_decide (alive s !! r = Some true)
                    | None => true
                    end
             | None => true
             end) (views s).

(** A connected port that the loop of [getRenderTarget] passes over: it is not
    an outport, or it is not a render port. *)
Definition passed_over (s : State) (c : PortRef) : Prop :=
  ∃ o, deref s c = Some o
       ∧ (Port_isOutport (port_base o) = false ∨ dynamic_cast_RenderPort o = None).

(** The [portResized] calls that [resize] on an inport issues: one per
    connected port, in connection order, addressed to the processor that owns
    the connected port. *)
Definition resize_requests (pids : list N) (connected : list PortRef) (newsize : ivec2)
    : list Event :=
  zip_with (λ pid c, Proc_portResized pid c newsize) pids connected.

(** [c] refers to a render outport whose target pointer is null or points to
    a live target. *)
Definition render_outport (s : State) (c : PortRef) : Prop :=
  ∃ rp, static_cast_RenderPort s c = Some rp
        ∧ Port_isOutport (base rp) = true
        ∧ target_alive s rp.

(** [c] refers to a render outport that has taken over the size [size] and
    has no valid result. *)
Definition pushed (s : State) (c : PortRef) (size : ivec2) : Prop :=
  ∃ rp, static_cast_RenderPort s c = Some rp
        ∧ Port_isOutport (base rp) = true
        ∧ size_ rp = size
        ∧ validResult_ rp = false.

(** The sub-view of the 2x2 grid that the pixel [(x, y)] of a viewport lies
    in: 1 and 2 in the upper row, 3 and 4 in the lower row. *)
Definition quadrant (x y : Z) (viewport : ivec2) : Z :=
  if Z.ltb y (Z.quot viewport.2 2) then
    if Z.ltb x (Z.quot viewport.1 2) then 1 else 2
  else
    if Z.ltb x (Z.quot viewport.1 2) then 3 else 4.

(** A coordinate relative to the sub-view it lies in, [half] being the width
    or height of a sub-view. *)
Definition local_coordinate (c half : Z) : Z := if Z.ltb c half then c else c - half.

(** A call that attaches a depth texture. *)
Definition is_depth_attach (c : FboCall) : bool :=
  match c with
  | Fbo_attachTexture (DepthTextureOf _) _ => true
  | _ => false
  end.

(** What [reattachTargets] needs of a port of the group: its connectivity can
    be read and, if the port takes part, so can its textures. *)
Definition attachable (g : PortGroup) (s : State) (p : PortRef) : Prop :=
  ∃ a, PortGroup_active g s p = Some a
       ∧ (a = true → is_Some (getColorTexture_ptr s p)
                     ∧ is_Some (getDepthTexture_ptr s p)).

(** A call of the attachment loop is justified by a port of [rest], the part
    of the group that starts at position [i]: a colour texture goes to the slot
    of the port's position, a depth texture to the depth slot, and the port
    takes part in the group. *)
Definition attach_justified (g : PortGroup) (s : State) (rest : list PortRef) (i : nat)
    (c : FboCall) : Prop :=
  match c with
  | Fbo_attachTexture (ColorTextureOf t) att =>
      ∃ j p, rest !! j = Some p
             ∧ att = attachment (i + j)
             ∧ PortGroup_active g s p = Some true
             ∧ getColorTexture_ptr s p = Some (Some (ColorTextureOf t))
  | Fbo_attachTexture (DepthTextureOf t) att =>
      ∃ j p, rest !! j = Some p
             ∧ att = GL_DEPTH_ATTACHMENT_EXT
             ∧ PortGroup_active g s p = Some true
             ∧ getDepthTexture_ptr s p = Some (Some (DepthTextureOf t))
  | _ => False
  end.

(** [c] refers to a render outport whose recorded size is [size]. *)
Definition sized (s : State) (c : PortRef) (size : ivec2) : Prop :=
  ∃ rp, static_cast_RenderPort s c = Some rp
        ∧ Port_isOutport (base rp) = true
        ∧ size_ rp = size.

(** Every channel of a pixel is a byte. *)
Definition col4_in_range (c : Vector4 Z) : Prop :=
  0 ≤ vx c < 256 ∧ 0 ≤ vy c < 256 ∧ 0 ≤ vz c < 256 ∧ 0 ≤ va c < 256.

(** [m * 2 ^ e] is at most 255, respectively less than 255, for an exponent
    that is not positive. *)
Definition le_255 (m e : Z) : Prop := e ≤ 0 ∧ 0 ≤ m ≤ 255 * 2 ^ (- e).
Definition lt_255 (m e : Z) : Prop := e ≤ 0 ∧ 0 ≤ m < 255 * 2 ^ (- e).

(** The conversion of one float channel, in the arithmetic of binary32. *)
Definition float_channel (bits : float32) : option Z :=
  float_component tgt_clamp_float float_mul float_to_uint8_t bits.

(** No channel of the pixel is a NaN. *)
Definition no_nan (c : Vector4 float32) : Prop :=
  binary32 (vx c) ≠ S754_nan ∧ binary32 (vy c) ≠ S754_nan
  ∧ binary32 (vz c) ≠ S754_nan ∧ binary32 (va c) ≠ S754_nan.

(** Every channel of [o] is the conversion of the channel of [c]. *)
Definition converted_channels (c : Vector4 float32) (o : Vector4 Z) : Prop :=
  float_channel (vx c) = Some (vx o) ∧ float_channel (vy c) = Some (vy o)
  ∧ float_channel (vz c) = Some (vz o) ∧ float_channel (va c) = Some (va o).

(** ** Sample networks *)

Definition GL_RGBA16 : GLenum := 0x805B.
Definition GL_DEPTH_COMPONENT24 : GLenum := 0x81A6.

Definition sample_processor (id : N) (name : string) (verdict : bool) : Processor :=
  mkProcessor id name (λ _ _, verdict).

Definition sample_outport (name : string) (proc : Processor) (connected : list PortRef)
    (target : option TargetRef) (valid : bool) : PortObj :=
  IsRenderPort (mkRenderPort (mkPort name OUTPORT true connected proc)
                  target valid (128, 128) null GL_RGBA16 GL_DEPTH_COMPONENT24 false).

Definition sample_inport (name : string) (proc : Processor) (connected : list PortRef)
    (so : voidptr) : PortObj :=
  IsRenderPort (mkRenderPort (mkPort name INPORT false connected proc)
                  None false (128, 128) so GL_RGBA16 GL_DEPTH_COMPONENT24 false).

Definition sample_texture (px : PixelBuffer) (dataType : GLenum) : Texture :=
  mkTexture GL_RGBA dataType px.

Definition sample_target (size : ivec2) (tex : Texture) : RenderTarget :=
  mkRenderTarget size GL_RGBA16 GL_DEPTH_COMPONENT24 false 0 "" (Some tex) None 0.

Definition blank_target : RenderTarget :=
  sample_target (128, 128) (sample_texture (BufRaw []) GL_UNSIGNED_SHORT).

(** One outport (port 0, with render target 0) feeding two inports (ports 1
    and 2) of two other processors. *)
Definition net_fanout (so1 so2 : voidptr) : State :=
  mkState [sample_outport "image.out" (sample_processor 1 "Source" true) [1; 2]%nat
             (Some 0%nat) false;
           sample_inport "image.in" (sample_processor 2 "Canvas" true) [0%nat] so1;
           sample_inport "image.in" (sample_processor 3 "Snapshot" true) [0%nat] so2]
          [Some blank_target] [] [].

(** An unconnected outport (port 0) of a processor whose [testSizeOrigin]
    answers [verdict], next to an unconnected inport (port 1) that holds the
    size origin [so]. *)
Definition net_apart (verdict : bool) (so : voidptr) : State :=
  mkState [sample_outport "image.out" (sample_processor 1 "Source" verdict) []
             (Some 0%nat) false;
           sample_inport "image.in" (sample_processor 2 "Canvas" true) [] so]
          [Some blank_target] [] [].

(** An outport (port 0) that already feeds an inport with size origin 7
    (port 2), next to an unconnected inport without size origin (port 1). *)
Definition net_join : State :=
  mkState [sample_outport "image.out" (sample_processor 1 "Source" true) [2%nat]
             (Some 0%nat) true;
           sample_inport "image.in" (sample_processor 2 "Canvas" true) [] null;
           sample_inport "image.in" (sample_processor 3 "Snapshot" true) [0%nat] 7]
          [Some blank_target] [] [].

(** A group of three outports (ports 0, 1, 2, each with its own render
    target): the first and the third feed an inport (ports 3 and 4), the second
    is not connected. *)
Definition net_group : State :=
  mkState [sample_outport "color" (sample_processor 1 "Geometry" true) [3%nat]
             (Some 0%nat) false;
           sample_outport "normal" (sample_processor 1 "Geometry" true) []
             (Some 1%nat) false;
           sample_outport "depth" (sample_processor 1 "Geometry" true) [4%nat]
             (Some 2%nat) false;
           sample_inport "image.in" (sample_processor 2 "Canvas" true) [0%nat] null;
           sample_inport "image.in" (sample_processor 3 "Snapshot" true) [2%nat] null]
          [Some blank_target; Some blank_target; Some blank_target] [] [].

(** A single outport (port 0) whose render target holds a colour texture of
    two pixels. *)
Definition net_readback (tex : Texture) : State :=
  mkState [sample_outport "image.out" (sample_processor 1 "Source" true) []
             (Some 0%nat) true]
          [Some (sample_target (2, 1) tex)] [] [].

(** The same outport with a render target of another size. *)
Definition net_readback_sized (size : ivec2) (tex : Texture) : State :=
  mkState [sample_outport "image.out" (sample_processor 1 "Source" true) []
             (Some 0%nat) true]
          [Some (sample_target size tex)] [] [].

(** A 16-bit RGBA texture of two pixels. *)
Definition ushort_texture : Texture :=
  sample_texture (BufUShort [vec4 0xFFFF 0x8000 0x0100 0x00FF;
                             vec4 0x1234 0 0xABCD 0xFFFF]) GL_UNSIGNED_SHORT.

(** A float RGBA texture of two pixels: (0.5, -1, 2, 1) and (0.25, 0, the
    float just below 1, +infinity). *)
Definition float_texture : Texture :=
  sample_texture (BufFloat [vec4 0x3F000000 0xBF800000 0x40000000 0x3F800000;
                            vec4 0x3E800000 0x00000000 0x3F7FFFFF 0x7F800000]) GL_FLOAT.

(** An inport (port 0) that accepts several connections and is fed by two
    outports (ports 1 and 2). *)
Definition net_fanin : State :=
  mkState [IsRenderPort (mkRenderPort
                           (mkPort "image.in" INPORT true [1; 2]%nat
                              (sample_processor 1 "Compositor" true))
                           None false (128, 128) null GL_RGBA16 GL_DEPTH_COMPONENT24 false);
           sample_outport "image.out" (sample_processor 2 "Front" true) [0%nat]
             (Some 0%nat) true;
           sample_outport "image.out" (sample_processor 3 "Back" true) [0%nat]
             (Some 1%nat) true]
          [Some blank_target; Some blank_target] [] [].

(** Two inports connected to each other: each one is in the connection list of
    the other, so that a propagation comes back to where it started. *)
Definition net_inport_pair : State :=
  mkState [sample_inport "a" (sample_processor 1 "A" true) [1%nat] null;
           sample_inport "b" (sample_processor 2 "B" true) [0%nat] null]
          [] [] [].

(** A processor with one outport (port 0) as its constructor leaves it,
    feeding an inport (port 1); no render target has been allocated yet. *)
Definition net_fresh (sharing : bool) : State :=
  mkState [IsRenderPort
             (set_renderTargetSharing sharing
                (set_base (mkPort "image.out" OUTPORT true [1%nat]
                             (sample_processor 1 "Source" true))
                   (RenderPort_ctor OUTPORT "image.out" true
                      (sample_processor 1 "Source" true)
                      GL_RGBA16 GL_DEPTH_COMPONENT24)));
           sample_inport "image.in" (sample_processor 2 "Canvas" true) [0%nat] null]
          [] [] [].

(** Two outports in sharing mode (ports 0 and 1) that were handed the same
    render target. *)
Definition net_shared : State :=
  mkState [IsRenderPort (set_renderTargetSharing true
             (mkRenderPort (mkPort "left.out" OUTPORT true []
                              (sample_processor 1 "Left" true))
                (Some 0%nat) false (128, 128) null GL_RGBA16 GL_DEPTH_COMPONENT24 false));
           IsRenderPort (set_renderTargetSharing true
             (mkRenderPort (mkPort "right.out" OUTPORT true []
                              (sample_processor 2 "Right" true))
                (Some 0%nat) false (128, 128) null GL_RGBA16 GL_DEPTH_COMPONENT24 false))]
          [Some blank_target] [] [].

(** An inport (port 0) that holds the size origin [so] and is fed by two
    outports (ports 1 and 2). *)
Definition net_fanin_origin (so : voidptr) : State :=
  mkState [IsRenderPort (mkRenderPort
                           (mkPort "image.in" INPORT true [1; 2]%nat
                              (sample_processor 1 "Compositor" true))
                           None false (128, 128) so GL_RGBA16 GL_DEPTH_COMPONENT24 false);
           sample_outport "image.out" (sample_processor 2 "Front" true) [0%nat]
             (Some 0%nat) true;
           sample_outport "image.out" (sample_processor 3 "Back" true) [0%nat]
             (Some 1%nat) true]
          [Some blank_target; Some blank_target] [] [].

(** A [QuadView] (outport 0, inports 1 to 4) between a source (outport 5,
    feeding inport 1) and a canvas (inport 6, fed by outport 0); the inports 2
    to 4 are not connected. *)
Definition net_quadview (valid : bool) : State :=
  mkState [sample_outport "outport" (sample_processor 1 "QuadView" true) [6%nat]
             (Some 0%nat) false;
           sample_inport "inport1" (sample_processor 1 "QuadView" true) [5%nat] null;
           sample_inport "inport2" (sample_processor 1 "QuadView" true) [] null;
           sample_inport "inport3" (sample_processor 1 "QuadView" true) [] null;
           sample_inport "inport4" (sample_processor 1 "QuadView" true) [] null;
           sample_outport "image.out" (sample_processor 2 "Source" true) [1%nat]
             (Some 1%nat) valid;
           sample_inport "image.in" (sample_processor 3 "Canvas" true) [0%nat] null]
          [Some blank_target; Some blank_target] [] [].

Definition sample_quadview (maximized : Z) : QuadView :=
  mkQuadView maximized true (-1) false 0 1 2 3 4.

(** * Properties *)

(** ** Reading the state after an update *)

Lemma deref_set_port_eq (s : State) (p : PortRef) (o o0 : PortObj) :
  deref s p = Some o0 → deref (set_port p o s) p = Some o.
Proof.
  unfold deref, set_port; simpl; intros H.
  apply list_lookup_insert_eq. by eapply lookup_lt_Some.
Qed.

Lemma deref_set_port_ne (s : State) (p q : PortRef) (o : PortObj) :
  p ≠ q → deref (set_port p o s) q = deref s q.
Proof. unfold deref, set_port; simpl; intros H. by apply list_lookup_insert_ne. Qed.

Lemma static_cast_set_port_eq (s : State) (p : PortRef) (rp : RenderPort) (o0 : PortObj) :
  deref s p = Some o0 → static_cast_RenderPort (set_port p (IsRenderPort rp) s) p = Some rp.
Proof.
  intros H. unfold static_cast_RenderPort.
  by rewrite (deref_set_port_eq s p (IsRenderPort rp) o0 H).
Qed.

Lemma static_cast_set_port_ne (s : State) (p q : PortRef) (o : PortObj) :
  p ≠ q → static_cast_RenderPort (set_port p o s) q = static_cast_RenderPort s q.
Proof. intros H. unfold static_cast_RenderPort. by rewrite deref_set_port_ne. Qed.

Lemma static_cast_deref (s : State) (p : PortRef) (rp : RenderPort) :
  static_cast_RenderPort s p = Some rp → deref s p = Some (IsRenderPort rp).
Proof.
  unfold static_cast_RenderPort. destruct (deref s p) as [[?|?]|]; naive_solver.
Qed.

Lemma deref_static_cast (s : State) (p : PortRef) (rp : RenderPort) :
  deref s p = Some (IsRenderPort rp) → static_cast_RenderPort s p = Some rp.
Proof. unfold static_cast_RenderPort. by intros ->. Qed.

Lemma deref_target_set_target_eq (s : State) (r : TargetRef) (rt rt0 : RenderTarget) :
  deref_target s r = Some rt0 → deref_target (set_target r (Some rt) s) r = Some rt.
Proof.
  unfold deref_target, set_target; simpl; intros H.
  destruct (targets s !! r) eqn:E; [|done].
  rewrite list_lookup_insert_eq; [done|]. by eapply lookup_lt_Some.
Qed.

Lemma deref_target_set_target_ne (s : State) (r r' : TargetRef) (c : option RenderTarget) :
  r ≠ r' → deref_target (set_target r c s) r' = deref_target s r'.
Proof.
  unfold deref_target, set_target; simpl; intros H.
  by rewrite list_lookup_insert_ne.
Qed.

(** Updates of the other components leave a lookup alone. *)
Lemma deref_set_target (s : State) r c p : deref (set_target r c s) p = deref s p.
Proof. reflexivity. Qed.
Lemma deref_add_event (s : State) e p : deref (add_event e s) p = deref s p.
Proof. reflexivity. Qed.
Lemma deref_add_probe (s : State) g p : deref (add_probe g s) p = deref s p.
Proof. reflexivity. Qed.
Lemma static_cast_set_target (s : State) r c p :
  static_cast_RenderPort (set_target r c s) p = static_cast_RenderPort s p.
Proof. reflexivity. Qed.
Lemma static_cast_add_event (s : State) e p :
  static_cast_RenderPort (add_event e s) p = static_cast_RenderPort s p.
Proof. reflexivity. Qed.
Lemma static_cast_add_probe (s : State) g p :
  static_cast_RenderPort (add_probe g s) p = static_cast_RenderPort s p.
Proof. reflexivity. Qed.
Lemma deref_target_set_port (s : State) p o r :
  deref_target (set_port p o s) r = deref_target s r.
Proof. reflexivity. Qed.
Lemma deref_target_add_event (s : State) e r :
  deref_target (add_event e s) r = deref_target s r.
Proof. reflexivity. Qed.
Lemma deref_target_add_probe (s : State) g r :
  deref_target (add_probe g s) r = deref_target s r.
Proof. reflexivity. Qed.

Create Rewrite HintDb port_state.
#[export] Hint Rewrite deref_set_target deref_add_event deref_add_probe
  static_cast_set_target static_cast_add_event static_cast_add_probe
  deref_target_set_port deref_target_add_event deref_target_add_probe : port_state.

(** Unfolds the plumbing of [M] and leaves the lookups. *)
Ltac run := unfold bind, query, ret, emit, probe, store, update_target; simpl.

(** ** Validation of a result (claim C4) *)

Lemma validateResult_outport (s : State) (P : PortRef) (rp : RenderPort)
    (r : TargetRef) (rt : RenderTarget) :
  static_cast_RenderPort s P = Some rp →
  Port_isOutport (base rp) = true →
  renderTarget_ rp = Some r →
  deref_target s r = Some rt →
  validateResult P s =
    Some (tt, set_target r (Some (RenderTarget_increaseNumUpdates rt))
                (set_port P (IsRenderPort (set_validResult true rp)) s)).
Proof.
  intros Hp Ho Hr Ht. unfold validateResult. run.
  rewrite Hp, Ho, Hr. autorewrite with port_state. by rewrite Ht.
Qed.

Lemma hasValidResult_outport (fuel : nat) (s : State) (P : PortRef) (rp : RenderPort) :
  static_cast_RenderPort s P = Some rp →
  Port_isOutport (base rp) = true →
  hasValidResult (S fuel) P s =
    Some (bool_decide (renderTarget_ rp ≠ None) && validResult_ rp, s).
Proof. intros Hp Ho. simpl. run. by rewrite Hp, Ho. Qed.

(** C4.  On an outport with an allocated render target, [activateTarget]
    succeeds, leaves the target bound (active) with its update counter bumped
    once, and makes [hasValidResult] answer true; [invalidateResult] then makes
    it answer false again. *)
Theorem activateTarget_validates (s : State) (P : PortRef) (rp : RenderPort)
    (r : TargetRef) (rt : RenderTarget) (debugLabel : string) (fuel : nat) :
  static_cast_RenderPort s P = Some rp →
  Port_isOutport (base rp) = true →
  renderTarget_ rp = Some r →
  deref_target s r = Some rt →
  ∃ s1 rt1 s2,
    activateTarget P debugLabel s = Some (tt, s1)
    ∧ deref_target s1 r = Some rt1
    ∧ rt_active rt1 = true
    ∧ rt_numUpdates rt1 = S (rt_numUpdates rt)
    ∧ hasValidResult (S fuel) P s1 = Some (true, s1)
    ∧ invalidateResult P s1 = Some (tt, s2)
    ∧ hasValidResult (S fuel) P s2 = Some (false, s2).
Proof.
  intros Hp Ho Hr Ht.
  pose proof (static_cast_deref _ _ _ Hp) as Hd.
  set (lbl := procName rp +:+ ":" +:+ getName rp +:+ labelSuffix debugLabel).
  set (sa := set_target r (Some (RenderTarget_activateTarget lbl rt)) s).
  assert (Hva : validateResult P sa = Some (tt,
            set_target r (Some (RenderTarget_increaseNumUpdates
                                  (RenderTarget_activateTarget lbl rt)))
              (set_port P (IsRenderPort (set_validResult true rp)) sa))).
  { apply validateResult_outport; try done.
    subst sa. by eapply deref_target_set_target_eq. }
  set (s1 := set_target r (Some (RenderTarget_increaseNumUpdates
                                   (RenderTarget_activateTarget lbl rt)))
               (set_port P (IsRenderPort (set_validResult true rp)) sa)) in *.
  assert (Hp1 : static_cast_RenderPort s1 P = Some (set_validResult true rp)).
  { subst s1. rewrite static_cast_set_target.
    eapply static_cast_set_port_eq. subst sa. by rewrite deref_set_target. }
  set (s2 := set_port P (IsRenderPort (set_validResult false (set_validResult true rp))) s1).
  exists s1, (RenderTarget_increaseNumUpdates (RenderTarget_activateTarget lbl rt)), s2.
  split_and!.
  - unfold activateTarget. run. rewrite Hp, Ho, Hr, Ht. exact Hva.
  - subst s1. eapply deref_target_set_target_eq.
    rewrite deref_target_set_port. subst sa. by eapply deref_target_set_target_eq.
  - reflexivity.
  - reflexivity.
  - rewrite (hasValidResult_outport fuel s1 P _ Hp1 Ho). simpl.
    rewrite Hr. by rewrite bool_decide_true.
  - unfold invalidateResult. run. by rewrite Hp1; simpl; rewrite Ho.
  - assert (Hp2 : static_cast_RenderPort s2 P
                  = Some (set_validResult false (set_validResult true rp))).
    { subst s2. eapply static_cast_set_port_eq. by eapply static_cast_deref. }
    rewrite (hasValidResult_outport fuel s2 P _ Hp2 Ho). simpl.
    by rewrite andb_false_r.
Qed.

Lemma activateTarget_validates_witness :
  ∃ s1 rt1 s2,
    activateTarget 0 "frame" (net_fanout null null) = Some (tt, s1)
    ∧ deref_target s1 0 = Some rt1
    ∧ rt_active rt1 = true
    ∧ rt_numUpdates rt1 = S (rt_numUpdates blank_target)
    ∧ hasValidResult 1 0 s1 = Some (true, s1)
    ∧ invalidateResult 0 s1 = Some (tt, s2)
    ∧ hasValidResult 1 0 s2 = Some (false, s2).
Proof.
  eapply (activateTarget_validates (net_fanout null null) 0 _ 0 blank_target "frame" 0);
    reflexivity.
Defined.

(** ** Resizing an outport (claim C3) *)

(** C3.  On an outport, [resize] to the current size changes nothing at all; a
    resize to (0,0) changes no port and no render target (a warning is logged
    when the current size is another one); a resize to a different size other
    than (0,0) resizes the owned target, clears the valid flag, so that
    [hasValidResult] answers false whatever it answered before, records the
    new size and touches nothing else. *)
Theorem resize_outport (fuel : nat) (s : State) (this : PortRef) (rp : RenderPort)
    (newsize : ivec2) :
  static_cast_RenderPort s this = Some rp →
  Port_isOutport (base rp) = true →
  target_alive s rp →
  (size_ rp = newsize → resize fuel this newsize s = Some (tt, s))
  ∧ (newsize = ivec2_zero →
       ∃ s', resize fuel this newsize s = Some (tt, s')
             ∧ ports s' = ports s ∧ targets s' = targets s
             ∧ (size_ rp ≠ newsize →
                  s' = add_event (Log LWARNING [SStr "resize(): invalid size ";
                                                SVec2 newsize]) s))
  ∧ (size_ rp ≠ newsize → newsize ≠ ivec2_zero →
       ∃ s' rp',
         resize fuel this newsize s = Some (tt, s')
         ∧ static_cast_RenderPort s' this = Some rp'
         ∧ validResult_ rp' = false
         ∧ size_ rp' = newsize
         ∧ base rp' = base rp
         ∧ renderTarget_ rp' = renderTarget_ rp
         ∧ sizeOrigin_ rp' = sizeOrigin_ rp
         ∧ rp' = set_size newsize (set_validResult false rp)
         ∧ hasValidResult (S fuel) this s' = Some (false, s')
         ∧ (∀ q, q ≠ this → deref s' q = deref s q)
         ∧ (∀ r rt, renderTarget_ rp = Some r → deref_target s r = Some rt →
              deref_target s' r = Some (RenderTarget_resize newsize rt)
              ∧ getSize s' this = Some newsize)
         ∧ (∀ r, renderTarget_ rp ≠ Some r → deref_target s' r = deref_target s r)
         ∧ trace s' = trace s).
Proof.
  intros Hp Ho Ha.
  pose proof (static_cast_deref _ _ _ Hp) as Hd.
  split_and!.
  - intros Heq. unfold resize. run. rewrite Hp, Ho. by rewrite bool_decide_true.
  - intros Hz. unfold resize. run. rewrite Hp, Ho.
    case_bool_decide as Hs.
    + exists s. split_and!; try done.
    + rewrite bool_decide_true by done.
      eexists. split_and!; try done.
  - intros Hne Hnz.
    set (rp' := set_size newsize (set_validResult false rp)).
    assert (Hfin : ∀ s1, deref s1 this = Some (IsRenderPort rp) →
              let s' := set_port this (IsRenderPort rp') s1 in
              static_cast_RenderPort s' this = Some rp'
              ∧ hasValidResult (S fuel) this s' = Some (false, s')
              ∧ (∀ r rt', renderTarget_ rp = Some r → deref_target s1 r = Some rt' →
                   rt_size rt' = newsize → getSize s' this = Some newsize)).
    { intros s1 Hd1 s'.
      assert (Hp' : static_cast_RenderPort s' this = Some rp').
      { subst s'. by eapply static_cast_set_port_eq. }
      split_and!; [done| |].
      - rewrite (hasValidResult_outport fuel s' this rp' Hp' Ho).
        change (validResult_ rp') with false. by rewrite andb_false_r.
      - intros r rt' Hr Ht' Hsz.
        unfold getSize, hasRenderTarget, getRenderTarget. rewrite Hp'. simpl.
        rewrite Ho, Hr. simpl. subst s'. rewrite deref_target_set_port, Ht'. simpl.
        by rewrite Hsz. }
    unfold resize. run. rewrite Hp, Ho.
    rewrite bool_decide_false by done. rewrite bool_decide_false by done.
    unfold target_alive in Ha.
    destruct (renderTarget_ rp) as [r|] eqn:Hr.
    + destruct (deref_target s r) as [rt|] eqn:Ht; [|done].
      assert (Ht1 : deref_target (set_target r (Some (RenderTarget_resize newsize rt)) s) r
                    = Some (RenderTarget_resize newsize rt)).
      { by eapply deref_target_set_target_eq. }
      assert (Hsz : rt_size (RenderTarget_resize newsize rt) = newsize).
      { unfold RenderTarget_resize. by case_bool_decide. }
      destruct (Hfin (set_target r (Some (RenderTarget_resize newsize rt)) s))
        as (Hp' & Hv & Hg); [by rewrite deref_set_target|].
      eexists _, rp'. split; [reflexivity|]. split_and!; try done.
      * intros q Hq. by rewrite deref_set_port_ne.
      * intros r' rt' [= <-] Ht'. rewrite Ht in Ht'. injection Ht' as <-.
        split; [exact Ht1|]. exact (Hg r _ eq_refl Ht1 Hsz).
      * intros r' Hr'. rewrite deref_target_set_port.
        apply deref_target_set_target_ne. congruence.
    + destruct (Hfin s) as (Hp' & Hv & _); [done|].
      eexists _, rp'. split; [reflexivity|]. split_and!; try done.
      intros q Hq. by rewrite deref_set_port_ne.
Qed.

Lemma resize_outport_witness :
  hasValidResult 1 0 net_join = Some (true, net_join)
  ∧ resize 1 0 (128, 128) net_join = Some (tt, net_join)
  ∧ ∃ s', resize 1 0 (640, 480) net_join = Some (tt, s')
          ∧ hasValidResult 1 0 s' = Some (false, s')
          ∧ (static_cast_RenderPort s' 0 ≫= λ rp, Some (size_ rp, validResult_ rp))
            = Some ((640, 480), false)
          ∧ getSize s' 0 = Some (640, 480).
Proof.
  destruct (resize_outport 0 net_join 0 _ (640, 480) eq_refl eq_refl)
    as (_ & _ & H3); [discriminate|].
  destruct (resize_outport 1 net_join 0 _ (128, 128) eq_refl eq_refl)
    as (H1 & _ & _); [discriminate|].
  split; [reflexivity|]. split; [apply H1; reflexivity|].
  destruct H3 as (s' & rp' & Hr & Hp & Hv & Hs & _ & _ & _ & _ & Hq & _ & Ht & _);
    [discriminate..|].
  exists s'. split; [exact Hr|]. split; [exact Hq|]. split.
  - rewrite Hp. simpl. by rewrite Hs, Hv.
  - exact (proj2 (Ht 0%nat blank_target eq_refl eq_refl)).
Defined.

(** ** The derived size origin of an outport (claim C10) *)

Lemma getSizeOrigin_inport (fuel : nat) (s : State) (p : PortRef) (rp : RenderPort) :
  static_cast_RenderPort s p = Some rp →
  Port_isOutport (base rp) = false →
  getSizeOrigin (S fuel) s p = Some (sizeOrigin_ rp).
Proof. intros Hp Ho. simpl. rewrite Hp. simpl. by rewrite Ho. Qed.

Lemma first_nonnull_cons (so : voidptr) (origins : list voidptr) :
  first_nonnull (so :: origins) = if nonnull so then so else first_nonnull origins.
Proof.
  unfold first_nonnull, nonnull. rewrite filter_cons.
  destruct (N.eqb_spec so null) as [->|Hne]; simpl; [done|].
  by rewrite decide_True.
Qed.

(** One step of [getSizeOrigin] on an outport, whatever the connected ports
    are: the answers of the connected ports are scanned in connection order. *)
Lemma getSizeOrigin_outport_scan (fuel : nat) (s : State) (this : PortRef)
    (rp : RenderPort) (origins : list voidptr) :
  static_cast_RenderPort s this = Some rp →
  Port_isOutport (base rp) = true →
  Forall2 (λ c so, getSizeOrigin fuel s c = Some so) (connectedPorts_ (base rp)) origins →
  getSizeOrigin (S fuel) s this = Some (first_nonnull origins).
Proof.
  intros Hp Ho Hall. simpl. rewrite Hp. simpl. rewrite Ho.
  induction Hall as [|c so cs sos Hc _ IH]; [done|].
  rewrite Hc. simpl. rewrite first_nonnull_cons.
  destruct (nonnull so); [done|exact IH].
Qed.

(** The same scan when the connected ports are render inports: their
    [sizeOrigin_] members are what is scanned. *)
Lemma getSizeOrigin_over_inports (fuel : nat) (s : State) (this : PortRef)
    (rp : RenderPort) (origins : list voidptr) :
  static_cast_RenderPort s this = Some rp →
  Port_isOutport (base rp) = true →
  Forall2 (inport_with_origin s) (connectedPorts_ (base rp)) origins →
  getSizeOrigin (S (S fuel)) s this = Some (first_nonnull origins).
Proof.
  intros Hp Ho Hall.
  eapply getSizeOrigin_outport_scan; [exact Hp|exact Ho|].
  eapply Forall2_impl; [exact Hall|].
  intros c so (rc & Hc & Hdir & <-). by apply getSizeOrigin_inport.
Qed.

(** C10.  The size origin of an outport is derived from its connections: it is
    the [sizeOrigin_] of the first connected inport, in connection order, that
    holds a non-null one, and null when there is none; the outport's own
    [sizeOrigin_] member plays no part, so an unconnected outport reports
    null. *)
Theorem getSizeOrigin_outport (fuel : nat) (s : State) (this : PortRef)
    (rp : RenderPort) (origins : list voidptr) :
  static_cast_RenderPort s this = Some rp →
  Port_isOutport (base rp) = true →
  Forall2 (inport_with_origin s) (connectedPorts_ (base rp)) origins →
  getSizeOrigin (S (S fuel)) s this = Some (first_nonnull origins)
  ∧ (connectedPorts_ (base rp) = [] → getSizeOrigin (S (S fuel)) s this = Some null)
  ∧ (∀ so, getSizeOrigin (S (S fuel))
             (set_port this (IsRenderPort (set_sizeOrigin so rp)) s) this
           = getSizeOrigin (S (S fuel)) s this).
Proof.
  intros Hp Ho Hall.
  pose proof (getSizeOrigin_over_inports fuel s this rp origins Hp Ho Hall) as Hscan.
  split_and!.
  - exact Hscan.
  - intros Hnil. rewrite Hscan. rewrite Hnil in Hall.
    by apply Forall2_nil_inv_l in Hall as ->.
  - intros so. rewrite Hscan.
    apply (getSizeOrigin_over_inports fuel _ this (set_sizeOrigin so rp)).
    + eapply static_cast_set_port_eq. by eapply static_cast_deref.
    + exact Ho.
    + eapply Forall2_impl; [exact Hall|].
      intros c so' (rc & Hc & Hdir & Hso). exists rc. split_and!; try done.
      rewrite static_cast_set_port_ne; [done|].
      intros <-. congruence.
Qed.

Lemma getSizeOrigin_outport_witness :
  getSizeOrigin 2 (net_fanout null 7) 0 = Some 7%N.
Proof.
  refine (proj1 (getSizeOrigin_outport 0 (net_fanout null 7) 0 _ [null; 7%N]
                   eq_refl eq_refl _)).
  repeat constructor; eexists; (split; [reflexivity|split; reflexivity]).
Defined.

(** ** Validity of the result seen through an inport (claim C2) *)

Lemma update_base_render (s : State) (p : PortRef) (rp : RenderPort) (f : Port → Port) :
  static_cast_RenderPort s p = Some rp →
  update_base p f s = Some (tt, set_port p (IsRenderPort (set_base (f (base rp)) rp)) s).
Proof.
  intros Hp. unfold update_base. by rewrite (static_cast_deref _ _ _ Hp).
Qed.

Lemma inport_with_origin_set_port_ne (s : State) (p c : PortRef) (o : PortObj)
    (so : voidptr) :
  p ≠ c → inport_with_origin s c so → inport_with_origin (set_port p o s) c so.
Proof.
  intros Hne (rc & Hc & Hdir & Hso). exists rc.
  by rewrite static_cast_set_port_ne.
Qed.

Lemma Forall_exists_Forall2 {A B : Type} (P : A → B → Prop) (l : list A) :
  Forall (λ a, ∃ b, P a b) l → ∃ k, Forall2 P l k.
Proof.
  induction 1 as [|a l [b Hb] _ [k IH]].
  - by exists [].
  - exists (b :: k). by constructor.
Qed.

(** [RenderPort::disconnect] called on an outport whose connected ports are
    render inports: the two connection lists are updated, the peer is
    invalidated, and nothing faults. *)
Lemma disconnect_outport (fuel : nat) (s : State) (O I : PortRef)
    (rpO rpI : RenderPort) :
  static_cast_RenderPort s O = Some rpO →
  Port_isOutport (base rpO) = true →
  static_cast_RenderPort s I = Some rpI →
  Port_isOutport (base rpI) = false →
  Forall (λ c, ∃ so, inport_with_origin s c so) (connectedPorts_ (base rpO)) →
  ∃ s', disconnect (S (S fuel)) O I s = Some (tt, s')
        ∧ static_cast_RenderPort s' I = Some (set_base (erase O (base rpI)) rpI)
        ∧ static_cast_RenderPort s' O = Some (set_base (erase I (base rpO)) rpO).
Proof.
  intros HO HdO HI HdI Hpeers.
  assert (HOI : O ≠ I) by (intros ->; congruence).
  set (sa := set_port O (IsRenderPort (set_base (erase I (base rpO)) rpO)) s).
  set (sb := set_port I (IsRenderPort (set_base (erase O (base rpI)) rpI)) sa).
  assert (HIa : static_cast_RenderPort sa I = Some rpI).
  { subst sa. by rewrite static_cast_set_port_ne. }
  assert (HIb : static_cast_RenderPort sb I = Some (set_base (erase O (base rpI)) rpI)).
  { subst sb. eapply static_cast_set_port_eq. by eapply static_cast_deref. }
  assert (HOb : static_cast_RenderPort sb O = Some (set_base (erase I (base rpO)) rpO)).
  { subst sb. rewrite static_cast_set_port_ne by done.
    subst sa. eapply static_cast_set_port_eq. by eapply static_cast_deref. }
  assert (Hdisc : Port_disconnect O I s = Some (tt, sb)).
  { unfold Port_disconnect, bind.
    rewrite (update_base_render s O rpO _ HO). fold sa.
    by rewrite (update_base_render sa I rpI _ HIa). }
  assert (∃ origins, Forall2 (inport_with_origin sb)
            (connectedPorts_ (base (set_base (erase I (base rpO)) rpO))) origins)
    as [origins Horigins].
  { apply Forall_exists_Forall2. simpl.
    apply list.Forall_forall. intros c Hc.
    apply list_elem_of_filter in Hc as [HcI Hc].
    rewrite list.Forall_forall in Hpeers.
    destruct (Hpeers c Hc) as [so Hso]. exists so.
    subst sb sa. apply inport_with_origin_set_port_ne; [done|].
    apply inport_with_origin_set_port_ne; [|done].
    intros <-. destruct Hso as (rc & Hrc & Hdir & _). congruence. }
  pose proof (getSizeOrigin_over_inports fuel sb O _ origins HOb HdO Horigins) as HgO.
  pose proof (getSizeOrigin_inport (S fuel) sb I _ HIb HdI) as HgI.
  unfold disconnect, bind. rewrite Hdisc. unfold query at 1. rewrite HOb.
  change (Port_isOutport (base (set_base (erase I (base rpO)) rpO)))
    with (Port_isOutport (base rpO)). rewrite HdO.
  unfold query at 1. rewrite HgO. unfold query at 1. rewrite HgI.
  unfold Port_invalidate, emit, ret.
  destruct (negb _); eexists; (split; [reflexivity|]); by autorewrite with port_state.
Qed.

Lemma hasValidResult_unconnected (fuel : nat) (s : State) (I : PortRef) (rpI : RenderPort) :
  static_cast_RenderPort s I = Some rpI →
  Port_isOutport (base rpI) = false →
  connectedPorts_ (base rpI) = [] →
  hasValidResult (S fuel) I s = Some (false, s).
Proof. intros HI HdI Hnil. simpl. run. by rewrite HI, HdI, Hnil. Qed.

(** C2.  [hasValidResult] on an inport: false when the inport is unconnected or
    its first connected port is not a render port; equal to the answer of the
    first connected port when that is a render outport, whatever is connected
    after it; and false after the only connected outport has been
    disconnected. *)
Theorem hasValidResult_inport (fuel : nat) (s : State) (I : PortRef) (rpI : RenderPort) :
  static_cast_RenderPort s I = Some rpI →
  Port_isOutport (base rpI) = false →
  (connectedPorts_ (base rpI) = [] → hasValidResult (S fuel) I s = Some (false, s))
  ∧ (∀ O rest p,
       connectedPorts_ (base rpI) = O :: rest →
       deref s O = Some (PlainPort p) →
       hasValidResult (S fuel) I s
       = Some (false, add_event
                        (Log LERROR [SStr "RenderPort is connected to Non-RenderPort"]) s))
  ∧ (∀ O rest rpO,
       connectedPorts_ (base rpI) = O :: rest →
       static_cast_RenderPort s O = Some rpO →
       Port_isOutport (base rpO) = true →
       hasValidResult (S (S fuel)) I s = hasValidResult (S fuel) O s
       ∧ hasValidResult (S (S fuel)) I s
         = Some (bool_decide (renderTarget_ rpO ≠ None) && validResult_ rpO, s))
  ∧ (∀ O rpO,
       connectedPorts_ (base rpI) = [O] →
       static_cast_RenderPort s O = Some rpO →
       Port_isOutport (base rpO) = true →
       Forall (λ c, ∃ so, inport_with_origin s c so) (connectedPorts_ (base rpO)) →
       ∃ s', disconnect (S (S fuel)) O I s = Some (tt, s')
             ∧ hasValidResult (S fuel) I s' = Some (false, s')).
Proof.
  intros HI HdI. split_and!.
  - by apply hasValidResult_unconnected.
  - intros O rest p Hcs HO. simpl. run. rewrite HI, HdI, Hcs. by rewrite HO.
  - intros O rest rpO Hcs HO HdO.
    rewrite (hasValidResult_outport fuel s O rpO HO HdO).
    assert (hasValidResult (S (S fuel)) I s = hasValidResult (S fuel) O s) as ->.
    { change (hasValidResult (S (S fuel)) I s) with
        (bind (query (λ s, static_cast_RenderPort s I)) (λ rp,
           if Port_isOutport (base rp) then
             ret (bool_decide (renderTarget_ rp ≠ None) && validResult_ rp)
           else match connectedPorts_ (base rp) with
                | [] => ret false
                | first :: _ =>
                    bind (query (λ s, deref s first)) (λ o,
                      match dynamic_cast_RenderPort o with
                      | Some _ => hasValidResult (S fuel) first
                      | None =>
                          bind (emit (Log LERROR
                                  [SStr "RenderPort is connected to Non-RenderPort"]))
                               (λ _, ret false)
                      end)
                end) s).
      unfold bind at 1, query at 1. rewrite HI, HdI, Hcs.
      unfold bind at 1, query at 1. by rewrite (static_cast_deref _ _ _ HO). }
    by rewrite (hasValidResult_outport fuel s O rpO HO HdO).
  - intros O rpO Hcs HO HdO Hpeers.
    destruct (disconnect_outport fuel s O I rpO rpI HO HdO HI HdI Hpeers)
      as (s' & Hdis & HI' & _).
    exists s'. split; [exact Hdis|].
    eapply hasValidResult_unconnected; [exact HI'|exact HdI|].
    simpl. rewrite Hcs. rewrite filter_cons.
    by rewrite decide_False by (intros H; by apply H).
Qed.

Lemma hasValidResult_inport_witness :
  hasValidResult 2 1 (net_fanout null null) = hasValidResult 1 0 (net_fanout null null).
Proof.
  refine (proj1 (proj1 (proj2 (proj2 (hasValidResult_inport 0 (net_fanout null null) 1 _
                   eq_refl eq_refl))) 0%nat [] _ eq_refl eq_refl eq_refl)).
Defined.

(** ** Connectivity test (claim C5) *)

(** C5, counterexample.  The outport has no size origin and the base check
    passes, yet the connection to an inport with size origin 7 is refused,
    because the owning processor's [testSizeOrigin] says no. *)
Lemma testConnectivity_no_origin_counterexample :
  Port_testConnectivity (net_apart false 7) 0 1 = Some true
  ∧ getSizeOrigin 2 (net_apart false 7) 0 = Some null
  ∧ getSizeOrigin 2 (net_apart false 7) 1 = Some 7%N
  ∧ testConnectivity 2 (net_apart false 7) 0 1 = Some false.
Proof. repeat split. Qed.

(** C5, amended.  [testConnectivity] is false when the base check fails;
    when it passes, the answer is true if the candidate inport has no size
    origin or its origin equals the derived origin of this port, and otherwise,
    also when this port has no origin, it is the verdict of the owning
    processor's [testSizeOrigin]. *)
Theorem testConnectivity_rule (fuel : nat) (s : State) (this inport : PortRef)
    (base_ok : bool) :
  Port_testConnectivity s this inport = Some base_ok →
  (base_ok = false → testConnectivity fuel s this inport = Some false)
  ∧ (base_ok = true →
     ∀ me rin so_this so_in,
       static_cast_RenderPort s this = Some me →
       static_cast_RenderPort s inport = Some rin →
       getSizeOrigin fuel s this = Some so_this →
       getSizeOrigin fuel s inport = Some so_in →
       testConnectivity fuel s this inport
       = Some (if bool_decide (so_in = null) then true
               else if bool_decide (so_in = so_this) then true
               else proc_testSizeOrigin (processor_ (base me)) this so_in)).
Proof.
  intros Hbase. split.
  - intros ->. unfold testConnectivity. by rewrite Hbase.
  - intros -> me rin so_this so_in Hme Hrin Hthis Hin.
    unfold testConnectivity. rewrite Hbase. simpl.
    rewrite Hme. simpl. rewrite Hrin. simpl. rewrite Hin. simpl.
    case_bool_decide as H0.
    + subst so_in. reflexivity.
    + destruct (N.eqb_spec so_in null) as [?|_]; [done|].
      rewrite Hthis. simpl.
      case_bool_decide as H1.
      * subst so_this. by rewrite N.eqb_refl.
      * by destruct (N.eqb_spec so_in so_this).
Qed.

Lemma testConnectivity_rule_witness :
  testConnectivity 2 (net_apart false 7) 0 1 = Some false
  ∧ testConnectivity 2 (net_apart true 7) 0 1 = Some true.
Proof.
  split.
  - exact (proj2 (testConnectivity_rule 2 (net_apart false 7) 0 1 true eq_refl)
             eq_refl _ _ null 7%N eq_refl eq_refl eq_refl eq_refl).
  - exact (proj2 (testConnectivity_rule 2 (net_apart true 7) 0 1 true eq_refl)
             eq_refl _ _ null 7%N eq_refl eq_refl eq_refl eq_refl).
Defined.

(** ** Establishing a connection (claim C6) *)

Lemma sizeOriginChanged_outport (fuel : nat) (s : State) (this : PortRef)
    (me : RenderPort) (so : voidptr) :
  static_cast_RenderPort s this = Some me →
  Port_isOutport (base me) = true →
  sizeOriginChanged (S fuel) this so s
  = Some (tt, set_port this (IsRenderPort (set_validResult false me))
                (add_event (Proc_sizeOriginChanged (proc_id (processor_ (base me))) this)
                   (add_probe (Entered this so) s))).
Proof.
  intros Hme Hout. simpl. run. autorewrite with port_state. by rewrite Hme, Hout.
Qed.

Lemma Port_testConnectivity_true (s : State) (this inport : PortRef)
    (me rin : RenderPort) :
  Port_testConnectivity s this inport = Some true →
  static_cast_RenderPort s this = Some me →
  static_cast_RenderPort s inport = Some rin →
  Port_isOutport (base me) = true ∧ Port_isOutport (base rin) = false ∧ this ≠ inport.
Proof.
  intros Ht Hme Hrin. unfold Port_testConnectivity in Ht.
  rewrite (static_cast_deref _ _ _ Hme), (static_cast_deref _ _ _ Hrin) in Ht.
  simpl in Ht. injection Ht as Ht.
  repeat (apply andb_prop in Ht as [Ht ?]).
  unfold Port_isInport in *. split_and!.
  - done.
  - by apply negb_true_iff.
  - intros ->. by rewrite Nat.eqb_refl in *.
Qed.

(** C6, counterexample.  The outport carries the size origin 7 of the inport
    it already feeds; after it has been connected to a further inport, that
    inport still has no size origin. *)
Lemma connect_propagation_counterexample :
  getSizeOrigin 3 net_join 0 = Some 7%N
  ∧ (connect 3 0 1 net_join ≫= λ '(ok, s'),
       Some (ok, getSizeOrigin 3 s' 0, sizeOrigin_ <$> static_cast_RenderPort s' 1))
    = Some (true, Some 7%N, Some null).
Proof. split; reflexivity. Qed.

(** C6, amended.  A successful [connect] hands the size origin of the newly
    connected inport to [sizeOriginChanged] on the connecting outport: the
    outport's processor is notified and the outport's valid flag is cleared,
    while the inport keeps its size origin and size.  If the inport carries a
    non-null size origin, the outport's processor is then asked to handle
    [portResized] with the inport's current size.  When the base predicate
    fails, [connect] returns false and changes nothing. *)
Theorem connect_effects (fuel : nat) (s : State) (this inport : PortRef)
    (me rin : RenderPort) (base_ok : bool) :
  static_cast_RenderPort s this = Some me →
  static_cast_RenderPort s inport = Some rin →
  Port_testConnectivity s this inport = Some base_ok →
  (base_ok = false → connect (S fuel) this inport s = Some (false, s))
  ∧ (base_ok = true →
     ∃ s', connect (S fuel) this inport s = Some (true, s')
       ∧ static_cast_RenderPort s' inport
         = Some (set_base (push_back this (base rin)) rin)
       ∧ static_cast_RenderPort s' this
         = Some (set_validResult false (set_base (push_back inport (base me)) me))
       ∧ (∀ q, q ≠ this → q ≠ inport → deref s' q = deref s q)
       ∧ targets s' = targets s
       ∧ probes s' = (probes s ++ [Entered this (sizeOrigin_ rin)])%list
       ∧ trace s'
         = (trace s
            ++ Proc_sizeOriginChanged (proc_id (processor_ (base me))) this
               :: (if nonnull (sizeOrigin_ rin)
                   then [Proc_portResized (proc_id (processor_ (base me))) this
                           (size_ rin)]
                   else []))%list).
Proof.
  intros Hme Hrin Hbase. split.
  - intros ->. unfold connect, Port_connect, bind, query. by rewrite Hbase.
  - intros ->.
    destruct (Port_testConnectivity_true s this inport me rin Hbase Hme Hrin)
      as (Hout & Hin & Hne).
    set (me' := set_base (push_back inport (base me)) me).
    set (rin' := set_base (push_back this (base rin)) rin).
    set (sa := set_port this (IsRenderPort me') s).
    set (sb := set_port inport (IsRenderPort rin') sa).
    assert (Hrin_a : static_cast_RenderPort sa inport = Some rin).
    { subst sa. by rewrite static_cast_set_port_ne. }
    assert (Hrin_b : static_cast_RenderPort sb inport = Some rin').
    { subst sb. eapply static_cast_set_port_eq. by eapply static_cast_deref. }
    assert (Hme_b : static_cast_RenderPort sb this = Some me').
    { subst sb. rewrite static_cast_set_port_ne by done.
      subst sa. eapply static_cast_set_port_eq. by eapply static_cast_deref. }
    assert (Hconn : Port_connect this inport s = Some (true, sb)).
    { unfold Port_connect, bind, query. rewrite Hbase.
      rewrite (update_base_render s this me _ Hme). fold me' sa.
      by rewrite (update_base_render sa inport rin _ Hrin_a). }
    set (pid := proc_id (processor_ (base me))).
    set (s1 := set_port this (IsRenderPort (set_validResult false me'))
                 (add_event (Proc_sizeOriginChanged pid this)
                    (add_probe (Entered this (sizeOrigin_ rin)) sb))).
    assert (Hrin_1 : static_cast_RenderPort s1 inport = Some rin').
    { subst s1. rewrite static_cast_set_port_ne by done.
      by autorewrite with port_state. }
    assert (Hme_1 : static_cast_RenderPort s1 this = Some (set_validResult false me')).
    { subst s1. eapply static_cast_set_port_eq. autorewrite with port_state.
      by eapply static_cast_deref. }
    exists (if nonnull (sizeOrigin_ rin)
            then add_event (Proc_portResized pid this (size_ rin)) s1 else s1).
    split.
    { unfold connect, bind. rewrite Hconn.
      unfold query at 1. rewrite (getSizeOrigin_inport fuel sb inport rin' Hrin_b Hin).
      rewrite (sizeOriginChanged_outport fuel sb this me' _ Hme_b Hout).
      change (sizeOrigin_ rin') with (sizeOrigin_ rin).
      change (proc_id (processor_ (base me'))) with pid. fold s1.
      unfold query at 1. rewrite (getSizeOrigin_inport fuel s1 inport rin' Hrin_1 Hin).
      change (sizeOrigin_ rin') with (sizeOrigin_ rin).
      destruct (nonnull (sizeOrigin_ rin)); [|reflexivity].
      unfold query. rewrite Hrin_1, Hme_1. reflexivity. }
    assert (Hfin : ∀ (P : State → Prop), P s1 →
              (P s1 → P (add_event (Proc_portResized pid this (size_ rin)) s1)) →
              P (if nonnull (sizeOrigin_ rin)
                 then add_event (Proc_portResized pid this (size_ rin)) s1 else s1)).
    { intros P H1 H2. destruct (nonnull (sizeOrigin_ rin)); auto. }
    split_and!.
    + apply Hfin; [done|]. by autorewrite with port_state.
    + apply Hfin; [done|]. by autorewrite with port_state.
    + intros q Hq1 Hq2. apply (Hfin (λ st, deref st q = deref s q)).
      * subst s1. rewrite deref_set_port_ne by done. autorewrite with port_state.
        subst sb. rewrite deref_set_port_ne by done.
        subst sa. by rewrite deref_set_port_ne.
      * by autorewrite with port_state.
    + by destruct (nonnull (sizeOrigin_ rin)).
    + by destruct (nonnull (sizeOrigin_ rin)).
    + destruct (nonnull (sizeOrigin_ rin)); simpl; [|done].
      by rewrite <- app_assoc.
Qed.

Lemma connect_effects_witness :
  ∃ s', connect 1 0 1 (net_apart true 7) = Some (true, s')
        ∧ sizeOrigin_ <$> static_cast_RenderPort s' 1 = Some 7%N
        ∧ trace s' = [Proc_sizeOriginChanged 1 0; Proc_portResized 1 0 (128, 128)].
Proof.
  destruct (proj2 (connect_effects 0 (net_apart true 7) 0 1 _ _ true
                     eq_refl eq_refl eq_refl) eq_refl)
    as (s' & Hc & Hin & _ & _ & _ & _ & Htr).
  exists s'. split; [exact Hc|]. split; [by rewrite Hin|exact Htr].
Defined.

(** ** Port groups (claim C7) *)

Lemma string_app_assoc (a b c : string) : (a +:+ b) +:+ c = a +:+ (b +:+ c).
Proof.
  induction a as [|ch a IH]; [done|].
  change (String ch ((a +:+ b) +:+ c) = String ch (a +:+ (b +:+ c))). by rewrite IH.
Qed.

Lemma string_app_empty_r (a : string) : a +:+ "" = a.
Proof.
  induction a as [|ch a IH]; [done|].
  change (String ch (a +:+ "") = String ch a). by rewrite IH.
Qed.

Lemma generateHeader_loop_lines (g : PortGroup) (s : State) (rest : list PortRef)
    (flags : list bool) :
  Forall2 (λ p a, PortGroup_active g s p = Some a) rest flags →
  ∀ i k acc,
    generateHeader_loop g s rest i k acc
    = Some (acc +:+ header_lines k (indices_from i flags)).
Proof.
  induction 1 as [|p a rest flags Hp _ IH]; intros i k acc; simpl.
  - by rewrite string_app_empty_r.
  - rewrite Hp. simpl. destruct a; rewrite IH; [|done].
    simpl. by rewrite string_app_assoc.
Qed.

(** The header has one line per active port: the macro name keeps the port's
    position in the group, the value is the rank among the active ports. *)
Lemma generateHeader_lines (g : PortGroup) (s : State) (flags : list bool) :
  Forall2 (λ p a, PortGroup_active g s p = Some a) (ports_ g) flags →
  generateHeader g s = Some (header_lines 0 (active_indices flags)).
Proof.
  intros H. unfold generateHeader.
  by rewrite (generateHeader_loop_lines g s _ flags H).
Qed.

Lemma similar_refl (s : State) : similar s s.
Proof. by split. Qed.

Lemma similar_trans (s1 s2 s3 : State) : similar s1 s2 → similar s2 s3 → similar s1 s3.
Proof. intros [H1 H2] [H3 H4]. split; intros; [rewrite H3|rewrite H4]; auto. Qed.

Lemma similar_static_cast (s s' : State) (q : PortRef) (rp : RenderPort) :
  similar s s' → static_cast_RenderPort s q = Some rp →
  ∃ rp', static_cast_RenderPort s' q = Some rp'
         ∧ base rp' = base rp ∧ renderTarget_ rp' = renderTarget_ rp.
Proof.
  intros [Hs _] Hq. specialize (Hs q).
  rewrite (static_cast_deref _ _ _ Hq) in Hs. unfold static_cast_RenderPort.
  destruct (deref s' q) as [[b|rp']|]; simpl in Hs; try done.
  exists rp'. injection Hs as Hb Hr. by split_and!.
Qed.

Lemma similar_active (g : PortGroup) (s s' : State) (p : PortRef) (a : bool) :
  similar s s' → PortGroup_active g s p = Some a → PortGroup_active g s' p = Some a.
Proof.
  intros Hsim. unfold PortGroup_active. destruct (ignoreConnectivity_ g); [done|].
  destruct (static_cast_RenderPort s p) as [rp|] eqn:Hp; [|done]. simpl.
  intros [= <-].
  destruct (similar_static_cast s s' p rp Hsim Hp) as (rp' & -> & Hb & _).
  simpl. by rewrite Hb.
Qed.

Lemma similar_live_target (s s' : State) (p : PortRef) :
  similar s s' → has_live_target s p → has_live_target s' p.
Proof.
  intros Hsim (rp & r & rt & Hp & Ho & Hr & Ht).
  destruct (similar_static_cast s s' p rp Hsim Hp) as (rp' & Hp' & Hb & Hr').
  destruct Hsim as [_ Hts]. specialize (Hts r). rewrite Ht in Hts.
  destruct (deref_target s' r) as [rt'|] eqn:Ht'; [|done].
  exists rp', r, rt'. split_and!; try done; congruence.
Qed.

Lemma similar_getRenderTarget (s s' : State) (q : PortRef) :
  similar s s' → getRenderTarget s' q = getRenderTarget s q.
Proof.
  intros Hsim. pose proof Hsim as [Hs _].
  assert (Hloop : ∀ cs, getRenderTarget_loop s' cs = getRenderTarget_loop s cs).
  { induction cs as [|c cs IH]; [done|]. simpl.
    specialize (Hs c).
    destruct (deref s c) as [o|], (deref s' c) as [o'|]; simpl in *; try done.
    injection Hs as Hb Hr. rewrite Hb.
    destruct (negb (Port_isOutport (port_base o))); [done|].
    destruct o, o'; simpl in *; try done; congruence. }
  unfold getRenderTarget, static_cast_RenderPort.
  specialize (Hs q).
  destruct (deref s q) as [o|], (deref s' q) as [o'|]; simpl in *; try done.
  injection Hs as Hb Hr.
  destruct o, o'; simpl in *; try done.
  injection Hr as Hr. rewrite Hb, Hr. by rewrite Hloop.
Qed.

Lemma similar_getSize (s s' : State) (q : PortRef) :
  similar s s' → getSize s' q = getSize s q.
Proof.
  intros Hsim. unfold getSize, hasRenderTarget.
  rewrite (similar_getRenderTarget s s' q Hsim).
  destruct (getRenderTarget s q) as [[t|]|]; simpl; try done.
  destruct Hsim as [_ Hts]. specialize (Hts t).
  destruct (deref_target s t), (deref_target s' t); simpl in *; congruence.
Qed.

(** One round of the loop of [activateTargets] on an active port, followed by
    the rest [k] of the loop. *)
Lemma activateTargets_round {B : Type} (s : State) (p : PortRef) (debugLabel : string)
    (k : M B) :
  has_live_target s p →
  ∃ rp r s',
    static_cast_RenderPort s p = Some rp
    ∧ (validateResult p >>
       do rp' <- query (λ s, static_cast_RenderPort s p) in
       do t <- query (λ s, getRenderTarget s p) in
       match t with
       | Some t =>
           update_target t (RenderTarget_setDebugLabel
                              (procName rp' +:+ "::" +:+ getName rp'
                               +:+ labelSuffix debugLabel))
       | None => fault
       end >> k) s = k s'
    ∧ similar s s' ∧ trace s' = trace s
    ∧ static_cast_RenderPort s' p = Some (set_validResult true rp)
    ∧ (∃ rt, deref_target s' r = Some rt ∧ renderTarget_ rp = Some r
             ∧ rt_debugLabel rt
               = procName rp +:+ "::" +:+ getName rp +:+ labelSuffix debugLabel).
Proof.
  intros (rp & r & rt & Hp & Ho & Hr & Ht).
  pose proof (static_cast_deref _ _ _ Hp) as Hd.
  set (lbl := procName rp +:+ "::" +:+ getName rp +:+ labelSuffix debugLabel).
  set (s1 := set_target r (Some (RenderTarget_increaseNumUpdates rt))
               (set_port p (IsRenderPort (set_validResult true rp)) s)).
  assert (Hp1 : static_cast_RenderPort s1 p = Some (set_validResult true rp)).
  { subst s1. rewrite static_cast_set_target. by eapply static_cast_set_port_eq. }
  assert (Ht1 : deref_target s1 r = Some (RenderTarget_increaseNumUpdates rt)).
  { subst s1. eapply deref_target_set_target_eq. by rewrite deref_target_set_port. }
  set (s2 := set_target r (Some (RenderTarget_setDebugLabel lbl
                                   (RenderTarget_increaseNumUpdates rt))) s1).
  exists rp, r, s2. split_and!.
  - done.
  - unfold bind at 1. rewrite (validateResult_outport s p rp r rt Hp Ho Hr Ht). fold s1.
    unfold bind, query. rewrite Hp1.
    unfold getRenderTarget. rewrite Hp1. simpl. rewrite Ho, Hr.
    unfold update_target. by rewrite Ht1.
  - split.
    + intros q. subst s2 s1. rewrite !deref_set_target.
      destruct (decide (p = q)) as [<-|Hne].
      * rewrite (deref_set_port_eq s p _ _ Hd). by rewrite Hd.
      * by rewrite deref_set_port_ne.
    + intros r'. destruct (decide (r = r')) as [<-|Hne].
      * subst s2. rewrite (deref_target_set_target_eq s1 r _ _ Ht1). by rewrite Ht.
      * subst s2. rewrite deref_target_set_target_ne by done.
        subst s1. rewrite deref_target_set_target_ne by done.
        by rewrite deref_target_set_port.
  - reflexivity.
  - subst s2. by rewrite static_cast_set_target.
  - eexists. split; [|split; [exact Hr|]].
    + subst s2. by eapply deref_target_set_target_eq.
    + reflexivity.
Qed.

Lemma activateTargets_loop_buffers (g : PortGroup) (label : string)
    (rest : list PortRef) (flags : list bool) :
  ∀ (s : State) (i : nat) (buffers : list GLenum),
    Forall2 (λ p a, PortGroup_active g s p = Some a
                    ∧ (a = true → has_live_target s p)) rest flags →
    ∃ s', activateTargets_loop g label rest i buffers s
          = Some ((buffers ++ (attachment <$> indices_from i flags))%list, s')
          ∧ similar s s' ∧ trace s' = trace s.
Proof.
  revert flags. induction rest as [|p rest IH]; intros flags s i buffers Hall.
  - apply Forall2_nil_inv_l in Hall as ->. exists s. simpl.
    rewrite app_nil_r. split_and!; [done|apply similar_refl|done].
  - apply Forall2_cons_inv_l in Hall as (a & flags' & [Ha Hlive] & Hall & ->).
    simpl. unfold bind at 1, query at 1. rewrite Ha. destruct a.
    + destruct (activateTargets_round s p label
                  (activateTargets_loop g label rest (S i)
                     (buffers ++ [GL_COLOR_ATTACHMENT0_EXT + Z.of_nat i])%list)
                  (Hlive eq_refl))
        as (rp & r & s1 & Hp & Hrun & Hsim & Htr & _).
      assert (Hall1 : Forall2 (λ p a, PortGroup_active g s1 p = Some a
                                      ∧ (a = true → has_live_target s1 p)) rest flags').
      { eapply Forall2_impl; [exact Hall|]. intros q b [Hq Hl]. split.
        - by eapply similar_active.
        - intros Hb. eapply similar_live_target; eauto. }
      destruct (IH flags' s1 (S i) (buffers ++ [attachment i])%list Hall1)
        as (s' & Hloop & Hsim' & Htr').
      exists s'. split_and!.
      * rewrite Hrun. etrans; [exact Hloop|].
        simpl. by rewrite <- app_assoc.
      * by eapply similar_trans.
      * congruence.
    + apply (IH flags' s (S i) buffers).
      eapply Forall2_impl; [exact Hall|]. by intros q b [Hq Hl].
Qed.

Lemma getSize_live_target (s : State) (p : PortRef) :
  has_live_target s p → is_Some (getSize s p).
Proof.
  intros (rp & r & rt & Hp & Ho & Hr & Ht).
  exists (rt_size rt). unfold getSize, hasRenderTarget, getRenderTarget.
  rewrite Hp. simpl. rewrite Ho, Hr. simpl. by rewrite Ht.
Qed.

Lemma similar_add_event (s : State) (e : Event) : similar s (add_event e s).
Proof. by split. Qed.

Lemma getSize_add_event (s : State) (e : Event) (p : PortRef) :
  getSize (add_event e s) p = getSize s p.
Proof. apply similar_getSize, similar_add_event. Qed.

(** [activateTargets] binds the framebuffer object, issues one [glDrawBuffers]
    over the slots of the active ports and sets the viewport. *)
Lemma activateTargets_draw_buffers (g : PortGroup) (label : string) (s : State)
    (fbo : N) (first : PortRef) (rest : list PortRef) (flags : list bool) :
  fbo_ g = Some fbo →
  ports_ g = first :: rest →
  Forall2 (λ p a, PortGroup_active g s p = Some a
                  ∧ (a = true → has_live_target s p)) (ports_ g) flags →
  is_Some (getSize s first) →
  ∃ s' w h,
    activateTargets g label s = Some (tt, s')
    ∧ trace s'
      = (trace s ++ [FboActivate fbo;
                     GlDrawBuffers (Z.of_nat (length (active_indices flags)))
                       (attachment <$> active_indices flags);
                     GlViewport 0 0 w h])%list.
Proof.
  intros Hfbo Hports Hall [sz Hsz].
  destruct (activateTargets_loop_buffers g label (ports_ g) flags
              (add_event (FboActivate fbo) s) 0 [] Hall)
    as (s1 & Hloop & Hsim & Htr).
  change (([] ++ (attachment <$> indices_from 0 flags))%list)
    with (attachment <$> active_indices flags) in Hloop.
  set (bufs := attachment <$> active_indices flags) in *.
  assert (Hlen : length bufs = length (active_indices flags)).
  { subst bufs. apply length_fmap. }
  rewrite <- Hlen.
  set (s2 := add_event (GlDrawBuffers (Z.of_nat (length bufs)) bufs) s1).
  assert (Hsz2 : getSize s2 first = Some sz).
  { subst s2. rewrite getSize_add_event.
    rewrite (similar_getSize _ _ first Hsim). by rewrite getSize_add_event. }
  exists (add_event (GlViewport 0 0 sz.1 sz.2) s2), sz.1, sz.2.
  split.
  - unfold activateTargets. rewrite Hfbo, Hports. rewrite Hports in Hloop.
    unfold bind at 1, emit at 1. unfold bind at 1. rewrite Hloop.
    unfold bind at 1, emit at 1. fold s2. unfold bind, query. by rewrite Hsz2.
  - simpl. rewrite Htr. simpl. by rewrite <- !app_assoc.
Qed.

(** C7.  The header has one [#define OP<i> <k>] line per active port, [i]
    being the port's position in the group and [k] its rank among the active
    ports; [activateTargets] issues one [glDrawBuffers] over the attachment
    slots of the active ports.  For a group of three ports that checks
    connectivity and whose second port is the only unconnected one, the header
    is the two lines [#define OP0 0] and [#define OP2 1], each ended by a line
    feed (character 10), and exactly two draw buffers, slots 0 and 2, are
    bound. *)
Theorem portgroup_compact_outputs :
  (∀ (g : PortGroup) (s : State) (flags : list bool),
     Forall2 (λ p a, PortGroup_active g s p = Some a) (ports_ g) flags →
     generateHeader g s = Some (header_lines 0 (active_indices flags)))
  ∧ (∀ (g : PortGroup) (label : string) (s : State) (fbo : N) (first : PortRef)
       (rest : list PortRef) (flags : list bool),
       fbo_ g = Some fbo →
       ports_ g = first :: rest →
       Forall2 (λ p a, PortGroup_active g s p = Some a
                       ∧ (a = true → has_live_target s p)) (ports_ g) flags →
       is_Some (getSize s first) →
       ∃ s' w h,
         activateTargets g label s = Some (tt, s')
         ∧ trace s'
           = (trace s ++ [FboActivate fbo;
                          GlDrawBuffers (Z.of_nat (length (active_indices flags)))
                            (attachment <$> active_indices flags);
                          GlViewport 0 0 w h])%list)
  ∧ (∀ (s : State) (fbo : N) (A B C : PortRef) (label : string),
       PortGroup_active (mkPortGroup [A; B; C] (Some fbo) false) s A = Some true →
       PortGroup_active (mkPortGroup [A; B; C] (Some fbo) false) s B = Some false →
       PortGroup_active (mkPortGroup [A; B; C] (Some fbo) false) s C = Some true →
       has_live_target s A →
       has_live_target s C →
       generateHeader (mkPortGroup [A; B; C] (Some fbo) false) s
       = Some ("#define OP0 0" +:+ String "010"%char
               ("#define OP2 1" +:+ String "010"%char EmptyString))
       ∧ ∃ s' w h,
           activateTargets (mkPortGroup [A; B; C] (Some fbo) false) label s
           = Some (tt, s')
           ∧ trace s'
             = (trace s ++ [FboActivate fbo;
                            GlDrawBuffers 2 [GL_COLOR_ATTACHMENT0_EXT;
                                             GL_COLOR_ATTACHMENT0_EXT + 2];
                            GlViewport 0 0 w h])%list).
Proof.
  split_and!.
  - apply generateHeader_lines.
  - apply activateTargets_draw_buffers.
  - intros s fbo A B C label HA HB HC HlA HlC. split.
    + by rewrite (generateHeader_lines _ s [true; false; true])
        by (repeat constructor; done).
    + apply (activateTargets_draw_buffers _ label s fbo A [B; C] [true; false; true]);
        [done|done| |by apply getSize_live_target].
      repeat constructor; done.
Qed.

Lemma portgroup_compact_outputs_witness :
  generateHeader (mkPortGroup [0; 1; 2]%nat (Some 1%N) false) net_group
  = Some ("#define OP0 0" +:+ String "010"%char
               ("#define OP2 1" +:+ String "010"%char EmptyString))
  ∧ ∃ s' w h,
      activateTargets (mkPortGroup [0; 1; 2]%nat (Some 1%N) false) "pass" net_group
      = Some (tt, s')
      ∧ trace s'
        = (trace net_group ++ [FboActivate 1;
                               GlDrawBuffers 2 [GL_COLOR_ATTACHMENT0_EXT;
                                                GL_COLOR_ATTACHMENT0_EXT + 2];
                               GlViewport 0 0 w h])%list.
Proof.
  refine (proj2 (proj2 portgroup_compact_outputs) net_group 1%N 0%nat 1%nat 2%nat "pass"
            eq_refl eq_refl eq_refl _ _).
  - eexists _, _, _. repeat split.
  - eexists _, _, _. repeat split.
Defined.

(** ** Reading back the colour buffer (claim C8) *)

Lemma convert_loop_pure {A B : Type} (g : A → B) (pixels : list A) (n : nat) :
  ∀ i : nat, (i + n ≤ length pixels)%nat →
    convert_loop (λ c, Some (g c)) pixels i n = Some (g <$> take n (drop i pixels)).
Proof.
  induction n as [|n IH]; intros i Hlen; simpl.
  - reflexivity.
  - destruct (pixels !! i) as [x|] eqn:Hx.
    + simpl. rewrite IH by lia. simpl.
      by rewrite (drop_S pixels x i Hx).
    + apply lookup_ge_None in Hx. lia.
Qed.

Lemma convert_loop_total {A B : Type} (f : A → option B) (pixels : list A) (n : nat) :
  Forall (λ x, is_Some (f x)) pixels →
  ∀ i : nat, (i + n ≤ length pixels)%nat →
    ∃ out, convert_loop f pixels i n = Some out
           ∧ Forall2 (λ x y, f x = Some y) (take n (drop i pixels)) out.
Proof.
  intros Hall. induction n as [|n IH]; intros i Hlen; simpl.
  - exists []. split; [done|constructor].
  - destruct (pixels !! i) as [x|] eqn:Hx.
    + simpl. rewrite list.Forall_forall in Hall.
      destruct (Hall x (list_elem_of_lookup_2 _ _ _ Hx)) as [y Hy]. rewrite Hy. simpl.
      destruct (IH (S i)) as (out & -> & Hout); [lia|]. simpl.
      exists (y :: out). split; [done|].
      rewrite (drop_S pixels x i Hx). simpl. by constructor.
    + apply lookup_ge_None in Hx. lia.
Qed.

Lemma convert_loop_short {A B : Type} (f : A → option B) (pixels : list A) (n : nat) :
  ∀ i : nat, (i ≤ length pixels)%nat → (length pixels < i + n)%nat →
    convert_loop f pixels i n = None.
Proof.
  induction n as [|n IH]; intros i Hi Hlen; simpl; [lia|].
  destruct (pixels !! i) as [x|] eqn:Hx; [|done].
  apply lookup_lt_Some in Hx. simpl. destruct (f x); [|done].
  simpl. rewrite IH; [done|lia|lia].
Qed.

Lemma shift_to_uint8 (c : Z) :
  0 ≤ c < 65536 →
  to_uint8 (Z.shiftr c 8) = Z.shiftr c 8 ∧ Z.shiftr c 8 = c / 256
  ∧ 0 ≤ Z.shiftr c 8 < 256.
Proof.
  intros Hc. rewrite Z.shiftr_div_pow2 by lia. change (2 ^ 8) with 256.
  assert (0 ≤ c / 256 < 256).
  { split; [apply Z.div_pos; lia|apply Z.div_lt_upper_bound; lia]. }
  unfold to_uint8. split_and!; try lia. apply Z.mod_small. lia.
Qed.

(** The pixel count of a buffer of [length px] pixels, as the code computes
    it. *)
Lemma int_mul_count (size : ivec2) (len : nat) :
  size.1 * size.2 = Z.of_nat len →
  Z.of_nat len ≤ INT_MAX →
  int_mul size.1 size.2 = Some (Z.of_nat len)
  ∧ new_col4 true (Z.of_nat len) = true
  ∧ Z.to_nat (Z.of_nat len) = len.
Proof.
  intros Hsz Hmax. unfold int_mul, new_col4. rewrite Hsz.
  destruct (Z.leb_spec INT_MIN (Z.of_nat len)) as [_|H]; [|unfold INT_MIN in H; lia].
  destruct (Z.leb_spec (Z.of_nat len) INT_MAX) as [_|H]; [|lia].
  destruct (Z.ltb_spec (Z.of_nat len) 0) as [H|_]; [lia|].
  split_and!; [done|done|lia].
Qed.

(** *** Rounding in binary32 *)

Lemma digits2_pos_bounds (p : positive) :
  2 ^ (Zpos (digits2_pos p) - 1) ≤ Zpos p < 2 ^ Zpos (digits2_pos p).
Proof.
  induction p as [p IH|p IH|]; simpl digits2_pos.
  - rewrite Pos2Z.inj_succ.
    replace (Z.succ (Zpos (digits2_pos p)) - 1) with (Zpos (digits2_pos p)) by lia.
    rewrite Z.pow_succ_r by lia.
    replace (Zpos (digits2_pos p)) with (Z.succ (Zpos (digits2_pos p) - 1)) at 1 by lia.
    rewrite Z.pow_succ_r by lia. lia.
  - rewrite Pos2Z.inj_succ.
    replace (Z.succ (Zpos (digits2_pos p)) - 1) with (Zpos (digits2_pos p)) by lia.
    rewrite Z.pow_succ_r by lia.
    replace (Zpos (digits2_pos p)) with (Z.succ (Zpos (digits2_pos p) - 1)) at 1 by lia.
    rewrite Z.pow_succ_r by lia. lia.
  - simpl. lia.
Qed.

Lemma Zdigits2_le (m d : Z) : 0 < m → 0 ≤ d → m < 2 ^ d → Zdigits2 m ≤ d.
Proof.
  intros Hm Hd Hlt.
  assert (Hlo : 2 ^ (Zdigits2 m - 1) ≤ m).
  { destruct m as [|p|p]; try lia. apply digits2_pos_bounds. }
  destruct (Z_le_gt_dec (Zdigits2 m) d) as [|Hgt]; [done|].
  assert (2 ^ d ≤ 2 ^ (Zdigits2 m - 1)) by (apply Z.pow_le_mono_r; lia). lia.
Qed.

Lemma shr_1_m (r : shr_record) : 0 ≤ shr_m r → shr_m (shr_1 r) = shr_m r / 2.
Proof.
  destruct r as [m rr ss]. cbn [shr_m shr_1]. intros Hm.
  destruct m as [|[p|p|]|p]; cbn [shr_m]; try lia.
  - reflexivity.
  - rewrite Pos2Z.inj_xI. apply Z.div_unique with (r := 1); lia.
  - rewrite Pos2Z.inj_xO. apply Z.div_unique with (r := 0); lia.
  - reflexivity.
Qed.

Lemma pow2_xO (p : positive) : 2 ^ Zpos p~0 = 2 ^ Zpos p * 2 ^ Zpos p.
Proof. rewrite <- Z.pow_add_r by lia. f_equal. lia. Qed.

Lemma pow2_xI (p : positive) : 2 ^ Zpos p~1 = 2 * (2 ^ Zpos p * 2 ^ Zpos p).
Proof.
  rewrite <- Z.pow_add_r by lia. rewrite <- Z.pow_succ_r by lia. f_equal. lia.
Qed.

(** Shifting a mantissa right by [p] bits divides it by [2 ^ p]. *)
Lemma iter_pos_shr_1_m (p : positive) :
  ∀ r, 0 ≤ shr_m r → shr_m (SpecFloat.iter_pos shr_1 p r) = shr_m r / 2 ^ Zpos p.
Proof.
  induction p as [p IH|p IH|]; intros r Hr; cbn [SpecFloat.iter_pos].
  - assert (H0 : 0 ≤ shr_m (shr_1 r)).
    { rewrite shr_1_m by done. apply Z.div_pos; lia. }
    assert (Hp : 0 < 2 ^ Zpos p) by (apply Z.pow_pos_nonneg; lia).
    assert (H1 : 0 ≤ shr_m (SpecFloat.iter_pos shr_1 p (shr_1 r))).
    { rewrite IH by done. apply Z.div_pos; lia. }
    rewrite IH by done. rewrite IH by done. rewrite shr_1_m by done.
    rewrite !Z.div_div by lia. by rewrite pow2_xI, Z.mul_assoc.
  - assert (Hp : 0 < 2 ^ Zpos p) by (apply Z.pow_pos_nonneg; lia).
    assert (H1 : 0 ≤ shr_m (SpecFloat.iter_pos shr_1 p r)).
    { rewrite IH by done. apply Z.div_pos; lia. }
    rewrite IH by done. rewrite IH by done.
    rewrite !Z.div_div by lia. by rewrite pow2_xO.
  - rewrite shr_1_m by done. reflexivity.
Qed.

(** The exponent and the mantissa after [shr_fexp]. *)
Lemma shr_fexp_m (m e : Z) (l : location) :
  0 ≤ m →
  let k := fexp 24 128 (Zdigits2 m + e) - e in
  (shr_fexp 24 128 m e l).2 = (if Z.ltb 0 k then e + k else e)
  ∧ shr_m (shr_fexp 24 128 m e l).1 = (if Z.ltb 0 k then m / 2 ^ k else m).
Proof.
  intros Hm k. unfold shr_fexp. fold k. unfold shr.
  assert (Hrec : shr_m (shr_record_of_loc m l) = m).
  { by destruct l as [|[]]. }
  destruct k as [|p|p] eqn:Hk; cbn [fst snd Z.ltb Z.compare].
  - done.
  - split; [done|]. rewrite iter_pos_shr_1_m by lia. by rewrite Hrec.
  - done.
Qed.

Lemma shr_fexp_le_255 (m e : Z) (l : location) :
  le_255 m e →
  le_255 (shr_m (shr_fexp 24 128 m e l).1) (shr_fexp 24 128 m e l).2.
Proof.
  intros (He & Hm0 & Hm).
  destruct (shr_fexp_m m e l Hm0) as [-> ->].
  set (k := fexp 24 128 (Zdigits2 m + e) - e).
  destruct (Z.ltb_spec 0 k) as [Hk|Hk]; [|done].
  assert (Hpow : 0 < 2 ^ (- e)) by (apply Z.pow_pos_nonneg; lia).
  assert (Hek : e + k ≤ 0).
  { subst k. unfold fexp, emin in *.
    destruct (Z.eq_dec m 0) as [->|Hne]; [simpl in *; lia|].
    assert (Zdigits2 m ≤ 8 - e).
    { apply Zdigits2_le; [lia|lia|].
      replace (8 - e) with (8 + - e) by lia. rewrite Z.pow_add_r by lia.
      change (2 ^ 8) with 256. lia. }
    lia. }
  split; [done|].
  assert (H2k : 0 < 2 ^ k) by (apply Z.pow_pos_nonneg; lia).
  split; [apply Z.div_pos; lia|].
  apply Z.div_le_upper_bound; [lia|].
  replace (- e) with (k + - (e + k)) in Hm by lia.
  rewrite Z.pow_add_r in Hm by lia. lia.
Qed.

Lemma shr_fexp_lt_255 (m e : Z) (l : location) :
  lt_255 m e →
  Z.ltb 0 (fexp 24 128 (Zdigits2 m + e) - e) = true →
  lt_255 (shr_m (shr_fexp 24 128 m e l).1) (shr_fexp 24 128 m e l).2.
Proof.
  intros (He & Hm0 & Hm) Hk.
  destruct (shr_fexp_le_255 m e l) as (He' & Hm0' & _); [split; [done|lia]|].
  split; [done|]. split; [done|].
  destruct (shr_fexp_m m e l Hm0) as [Hs Hf]. rewrite Hs, Hf in *. rewrite Hk in *.
  set (k := fexp 24 128 (Zdigits2 m + e) - e) in *.
  apply Z.ltb_lt in Hk.
  assert (H2k : 0 < 2 ^ k) by (apply Z.pow_pos_nonneg; lia).
  apply Z.div_lt_upper_bound; [lia|].
  replace (- e) with (k + - (e + k)) in Hm by lia.
  rewrite Z.pow_add_r in Hm by lia. lia.
Qed.

Lemma round_nearest_even_bounds (m : Z) (l : location) :
  m ≤ round_nearest_even m l ≤ m + 1.
Proof.
  unfold round_nearest_even. destruct l as [|[]]; try lia. destruct (Z.even m); lia.
Qed.

Lemma float_to_uint8_t_le_255 (s : bool) (m e : Z) :
  le_255 m e →
  ∃ v,
    float_to_uint8_t (match m with
                      | 0 => S754_zero s
                      | Zpos p => if Z.leb e (128 - 24) then S754_finite false p e
                                  else S754_infinity false
                      | Zneg _ => S754_nan
                      end) = Some v
    ∧ 0 ≤ v ≤ 255.
Proof.
  intros (He & Hm0 & Hm). destruct m as [|p|p]; [by exists 0| |lia].
  destruct (Z.leb_spec e (128 - 24)) as [_|?]; [|lia].
  unfold float_to_uint8_t, float_trunc.
  assert (Hpow : 0 < 2 ^ (- e)) by (apply Z.pow_pos_nonneg; lia).
  set (a := if Z.leb 0 e then Zpos p * 2 ^ e else Zpos p / 2 ^ (- e)).
  assert (Ha : 0 ≤ a ≤ 255).
  { subst a. destruct (Z.leb_spec 0 e) as [H0|H0].
    - assert (e = 0) as -> by lia. simpl in *. lia.
    - split; [apply Z.div_pos; lia|]. apply Z.div_le_upper_bound; lia. }
  exists a. destruct (Z.leb_spec 0 a); [|lia]. destruct (Z.leb_spec a 255); [|lia].
  done.
Qed.

(** A positive product below 255, rounded to binary32 and converted, is a
    byte. *)
Lemma round_255 (M E : Z) :
  lt_255 M E →
  ∃ v, float_to_uint8_t (binary_round_aux 24 128 false M E loc_Exact) = Some v
       ∧ 0 ≤ v ≤ 255.
Proof.
  intros Hlt. pose proof Hlt as (He & Hm0 & Hm).
  unfold binary_round_aux.
  destruct (shr_fexp 24 128 M E loc_Exact) as [mrs' e'] eqn:H1.
  assert (Hle1 : le_255 (round_nearest_even (shr_m mrs') (loc_of_shr_record mrs')) e').
  { destruct (Z.ltb_spec 0 (fexp 24 128 (Zdigits2 M + E) - E)) as [Hk|Hk].
    - pose proof (shr_fexp_lt_255 M E loc_Exact Hlt) as Hlt1.
      rewrite H1 in Hlt1. cbn [fst snd] in Hlt1.
      destruct Hlt1 as (He' & Hm0' & Hm'); [by apply Z.ltb_lt|].
      pose proof (round_nearest_even_bounds (shr_m mrs') (loc_of_shr_record mrs')).
      split; [done|lia].
    - unfold shr_fexp, shr in H1.
      destruct (fexp 24 128 (Zdigits2 M + E) - E) as [|p|p]; [| lia |];
        injection H1 as <- <-; cbn; (split; [done|lia]). }
  destruct (shr_fexp 24 128 _ e' loc_Exact) as [mrs'' e''] eqn:H2.
  pose proof (shr_fexp_le_255 _ e' loc_Exact Hle1) as Hle2.
  rewrite H2 in Hle2. cbn [fst snd] in Hle2.
  by apply float_to_uint8_t_le_255.
Qed.

Lemma f_0_eq : f_0 = S754_zero false.
Proof. reflexivity. Qed.
Lemma f_1_eq : f_1 = S754_finite false 8388608 (-23).
Proof. reflexivity. Qed.
Lemma f_255_eq : f_255 = S754_finite false 16711680 (-16).
Proof. reflexivity. Qed.

(** What a bit pattern decodes to: a zero, an infinity, a NaN, or a finite
    number with a subnormal or a normal mantissa. *)
Lemma binary32_cases (bits : Z) :
  (∃ s, binary32 bits = S754_zero s)
  ∨ (∃ s, binary32 bits = S754_infinity s)
  ∨ binary32 bits = S754_nan
  ∨ (∃ s m e, binary32 bits = S754_finite s m e
        ∧ (e = -149 ∧ Zpos m < 2 ^ 23
           ∨ -149 ≤ e ≤ 104 ∧ 2 ^ 23 ≤ Zpos m < 2 ^ 24)).
Proof.
  unfold binary32.
  set (sign := Z.testbit bits 31).
  assert (Hex : 0 ≤ Z.land (Z.shiftr bits 23) (Z.ones 8) < 2 ^ 8).
  { rewrite Z.land_ones by lia. apply Z.mod_pos_bound. lia. }
  assert (Hfr : 0 ≤ Z.land bits (Z.ones 23) < 2 ^ 23).
  { rewrite Z.land_ones by lia. apply Z.mod_pos_bound. lia. }
  set (ex := Z.land (Z.shiftr bits 23) (Z.ones 8)) in *.
  set (frac := Z.land bits (Z.ones 23)) in *.
  destruct (Z.eqb_spec ex 0) as [H0|H0].
  - destruct frac as [|m|m] eqn:Hf.
    + left. by exists sign.
    + right. right. right. exists sign, m, (-149). split; [done|]. left. lia.
    + lia.
  - destruct (Z.eqb_spec ex 255) as [H255|H255].
    + destruct (Z.eqb frac 0); [right; left; by exists sign|right; right; by left].
    + destruct (frac + 2 ^ 23) as [|m|m] eqn:Hf; [lia| |lia].
      right. right. right. exists sign, m, (ex - 150). split; [done|]. right.
      change (2 ^ 8) with 256 in Hex. change (2 ^ 24) with (2 ^ 23 + 2 ^ 23). lia.
Qed.

(** A channel that is not a NaN is converted to a byte. *)
Lemma float_channel_range (bits : float32) :
  binary32 bits ≠ S754_nan →
  ∃ v, float_channel bits = Some v ∧ 0 ≤ v ≤ 255.
Proof.
  intros Hnan.
  unfold float_channel, float_component, tgt_clamp_float, std_min, std_max, float_mul.
  rewrite f_0_eq, f_1_eq, f_255_eq.
  destruct (binary32_cases bits) as [[s ->]|[[s ->]|[?|(s & m & e & -> & Hcan)]]].
  - exists 0. by destruct s.
  - destruct s; [by exists 0|by exists 255].
  - done.
  - destruct s; [by exists 0|].
    change (SFltb (S754_finite false m e) (S754_zero false)) with false. cbv iota.
    unfold SFltb at 1, SFcompare.
    destruct (Z.compare_spec (-23) e) as [Heq|Hlt|Hgt].
    + subst e. destruct Hcan as [[? _]|[_ Hm]]; [lia|].
      change (PosDef.Pos.compare_cont Eq 8388608 m) with (Pos.compare 8388608 m).
      destruct (Pos.compare_spec 8388608 m) as [H|H|H].
      * subst m. by exists 255.
      * by exists 255.
      * lia.
    + by exists 255.
    + cbn [SFmul xorb]. apply round_255. split; [lia|].
      assert (Hm : Zpos m < 2 ^ 24).
      { destruct Hcan as [[_ ?]|[_ ?]]; [change (2 ^ 24) with (2 ^ 23 + 2 ^ 23)|]; lia. }
      assert (Hp : 2 ^ 24 ≤ 2 ^ (- e)) by (apply Z.pow_le_mono_r; lia).
      replace (- (e + -16)) with (16 + - e) by lia.
      rewrite Z.pow_add_r by lia. change (2 ^ 16) with 65536.
      rewrite Pos2Z.inj_mul. change (Zpos 16711680) with (255 * 65536). nia.
Qed.

(** A channel that is at most [0.f] becomes 0. *)
Lemma float_channel_low (bits : float32) :
  SFleb (binary32 bits) f_0 = true → float_channel bits = Some 0.
Proof.
  unfold float_channel, float_component, tgt_clamp_float, std_min, std_max, float_mul.
  rewrite f_0_eq, f_1_eq, f_255_eq.
  destruct (binary32 bits) as [s|s| |s m e]; try done; by destruct s.
Qed.

(** A channel that is at least [1.f] becomes 255. *)
Lemma float_channel_high (bits : float32) :
  SFleb f_1 (binary32 bits) = true → float_channel bits = Some 255.
Proof.
  unfold float_channel, float_component, tgt_clamp_float, std_min, std_max, float_mul.
  rewrite f_0_eq, f_1_eq, f_255_eq.
  destruct (binary32_cases bits) as [[s ->]|[[s ->]|[->|(s & m & e & -> & Hcan)]]];
    try done; try (by destruct s).
  destruct s; [done|].
  unfold SFleb, SFltb, SFcompare.
  change (PosDef.Pos.compare_cont Eq 8388608 m) with (Pos.compare 8388608 m).
  change (PosDef.Pos.compare_cont Eq m 8388608) with (Pos.compare m 8388608).
  destruct (Z.compare_spec (-23) e) as [Heq|Hlt|Hgt]; [|done|done].
  subst e. destruct (Pos.compare_spec 8388608 m) as [H|H|H]; [|done|done].
  subst m. done.
Qed.

(** A channel between [0.f] and [1.f] passes the clamp as it is: the byte is
    its product with [255.f] (mantissa 16711680 = 255 * 2^16, exponent -16),
    rounded to binary32, without its fractional part. *)
Lemma float_channel_inside (bits : float32) :
  SFltb (S754_zero false) (binary32 bits) = true →
  SFltb (binary32 bits) (S754_finite false 8388608 (-23)) = true →
  float_channel bits
  = float_to_uint8_t (SFmul 24 128 (binary32 bits) (S754_finite false 16711680 (-16))).
Proof.
  unfold float_channel, float_component, tgt_clamp_float, std_min, std_max, float_mul.
  rewrite f_0_eq, f_1_eq, f_255_eq.
  destruct (binary32 bits) as [s|s| |s m e]; try done; try (by destruct s).
  destruct s; [done|]. intros _.
  change (SFltb (S754_finite false m e) (S754_zero false)) with false. cbv iota.
  unfold SFltb, SFcompare.
  change (PosDef.Pos.compare_cont Eq 8388608 m) with (Pos.compare 8388608 m).
  change (PosDef.Pos.compare_cont Eq m 8388608) with (Pos.compare m 8388608).
  rewrite (Z.compare_antisym e (-23)), (Pos.compare_antisym m 8388608).
  destruct (e ?= -23); simpl; try done.
  by destruct (m ?= 8388608)%positive.
Qed.

(** A NaN stays a NaN through the clamp and the product, and has no
    conversion to a byte. *)
Lemma float_channel_nan (bits : float32) :
  binary32 bits = S754_nan → float_channel bits = None.
Proof.
  intros H. unfold float_channel, float_component. by rewrite H.
Qed.

Lemma float_pixel_converted (c : Vector4 float32) :
  no_nan c →
  ∃ o, float_pixel tgt_clamp_float float_mul float_to_uint8_t c = Some o
       ∧ converted_channels c o
       ∧ col4_in_range o.
Proof.
  intros (Hx & Hy & Hz & Ha).
  destruct (float_channel_range _ Hx) as (x & Ex & Rx).
  destruct (float_channel_range _ Hy) as (y & Ey & Ry).
  destruct (float_channel_range _ Hz) as (z & Ez & Rz).
  destruct (float_channel_range _ Ha) as (a & Ea & Ra).
  exists (vec4 x y z a). unfold float_pixel.
  unfold converted_channels, col4_in_range. cbn [vx vy vz va].
  split_and!; try done; try lia.
  unfold float_channel in Ex, Ey, Ez, Ea. by rewrite Ex, Ey, Ez, Ea.
Qed.

Lemma float_pixels_converted (px : list (Vector4 float32)) (out : list col4) :
  Forall no_nan px →
  Forall2 (λ c o, float_pixel tgt_clamp_float float_mul float_to_uint8_t c = Some o)
    px out →
  Forall2 converted_channels px out ∧ Forall col4_in_range out.
Proof.
  intros Hnan Hout. induction Hout as [|c o px out Hco _ IH].
  - split; constructor.
  - apply Forall_cons in Hnan as [Hc Hrest].
    destruct (float_pixel_converted c Hc) as (o' & Ho' & Hconv & Hrange).
    rewrite Ho' in Hco. injection Hco as <-.
    destruct (IH Hrest). split; by constructor.
Qed.

(** C8.  [readColorBuffer] throws a descriptive exception unless the colour
    texture has format GL_RGBA.  With that format, and a buffer of [size.x *
    size.y] pixels, it returns the pixels of an 8-bit texture as they are,
    every channel of a 16-bit texture shifted right by 8 bits (which for a
    16-bit value is the high byte, a byte), and every channel of a float
    texture clamped to the range from [0.f] to [1.f], multiplied by [255.f] in
    single precision and converted to a byte: a channel that is not a NaN gives
    a value from 0 to 255, namely 0 if it is at most [0.f] and 255 if it is at
    least [1.f] (the float with mantissa 8388608 = 2^23 and exponent -23), and
    in between the binary32 product with [255.f] (mantissa 16711680, exponent
    -16) without its fractional part; the conversion of a NaN is undefined.
    The
    buffer sizes are those of a texture of [size.x * size.y] pixels, a product
    that fits an [int]. *)
Theorem readColorBuffer_conversion (download_ok new_ok : bool) (s : State)
    (this : PortRef) (t : Texture) (size : ivec2) :
  getColorTexture s this = Some (Some t) →
  getSize s this = Some size →
  (tex_format t ≠ GL_RGBA →
     readColorBuffer tgt_clamp_float float_mul float_to_uint8_t download_ok new_ok s this
     = Some (Thrown "RenderPort::readColorBuffer(): Saving render port to file currently only supported for GL_RGBA format"))
  ∧ (tex_format t = GL_RGBA → download_ok = true →
       (∀ px, tex_dataType t = GL_UNSIGNED_BYTE → tex_pixels t = BufUByte px →
          readColorBuffer tgt_clamp_float float_mul float_to_uint8_t
            download_ok new_ok s this
          = Some (Returned px))
       ∧ (∀ px, tex_dataType t = GL_UNSIGNED_SHORT → tex_pixels t = BufUShort px →
            size.1 * size.2 = Z.of_nat (length px) → Z.of_nat (length px) ≤ INT_MAX →
            new_ok = true →
            readColorBuffer tgt_clamp_float float_mul float_to_uint8_t
              download_ok new_ok s this
            = Some (Returned (map4 (λ c, to_uint8 (Z.shiftr c 8)) <$> px)))
       ∧ (∀ px, tex_dataType t = GL_FLOAT → tex_pixels t = BufFloat px →
            size.1 * size.2 = Z.of_nat (length px) → Z.of_nat (length px) ≤ INT_MAX →
            new_ok = true →
            Forall no_nan px →
            ∃ out,
              readColorBuffer tgt_clamp_float float_mul float_to_uint8_t
                download_ok new_ok s this
              = Some (Returned out)
              ∧ Forall2 converted_channels px out
              ∧ Forall col4_in_range out))
  ∧ (∀ c, 0 ≤ c < 65536 →
       to_uint8 (Z.shiftr c 8) = Z.shiftr c 8 ∧ Z.shiftr c 8 = c / 256
       ∧ 0 ≤ Z.shiftr c 8 < 256)
  ∧ (∀ bits,
       (binary32 bits ≠ S754_nan → ∃ v, float_channel bits = Some v ∧ 0 ≤ v ≤ 255)
       ∧ (SFleb (binary32 bits) (S754_zero false) = true → float_channel bits = Some 0)
       ∧ (SFleb (S754_finite false 8388608 (-23)) (binary32 bits) = true →
            float_channel bits = Some 255)
       ∧ (SFltb (S754_zero false) (binary32 bits) = true →
          SFltb (binary32 bits) (S754_finite false 8388608 (-23)) = true →
          float_channel bits
          = float_to_uint8_t (SFmul 24 128 (binary32 bits)
                                (S754_finite false 16711680 (-16))))
       ∧ (binary32 bits = S754_nan → float_channel bits = None)).
Proof.
  intros Htex Hsize. split_and!.
  - intros Hfmt. unfold readColorBuffer. rewrite Htex. simpl.
    destruct (Z.eqb_spec (tex_format t) GL_RGBA); done.
  - intros Hfmt ->. split_and!.
    + intros px Hty Hpx. unfold readColorBuffer. rewrite Htex. simpl.
      rewrite Hfmt, Hsize, Hty, Hpx. reflexivity.
    + intros px Hty Hpx Hlen Hmax ->.
      destruct (int_mul_count size (length px) Hlen Hmax) as (Hmul & Hnew & Hnat).
      unfold readColorBuffer. rewrite Htex. simpl.
      rewrite Hfmt, Hsize, Hty, Hpx. simpl. rewrite Hmul. simpl. rewrite Hnew, Hnat.
      simpl. rewrite convert_loop_pure by (simpl; lia).
      by rewrite drop_0, firstn_all.
    + intros px Hty Hpx Hlen Hmax -> Hnan.
      destruct (int_mul_count size (length px) Hlen Hmax) as (Hmul & Hnew & Hnat).
      destruct (convert_loop_total
                  (float_pixel tgt_clamp_float float_mul float_to_uint8_t) px (length px))
        with (i := 0%nat) as (out & Hloop & Hout).
      { eapply Forall_impl; [exact Hnan|]. intros c Hc.
        destruct (float_pixel_converted c Hc) as (o & -> & _). by eexists. }
      { simpl. lia. }
      rewrite drop_0, firstn_all in Hout.
      exists out. split_and!.
      * unfold readColorBuffer. rewrite Htex. simpl.
        rewrite Hfmt, Hsize, Hty, Hpx. simpl. rewrite Hmul. simpl. rewrite Hnew, Hnat.
        simpl. by rewrite Hloop.
      * by apply float_pixels_converted.
      * by eapply float_pixels_converted.
  - apply shift_to_uint8.
  - intros bits. split_and!.
    + apply float_channel_range.
    + apply float_channel_low.
    + apply float_channel_high.
    + apply float_channel_inside.
    + apply float_channel_nan.
Qed.

Lemma readColorBuffer_conversion_witness :
  readColorBuffer tgt_clamp_float float_mul float_to_uint8_t true true
    (net_readback ushort_texture) 0
  = Some (Returned [vec4 0xFF 0x80 0x01 0x00; vec4 0x12 0 0xAB 0xFF])
  ∧ ∃ out,
      readColorBuffer tgt_clamp_float float_mul float_to_uint8_t true true
        (net_readback float_texture) 0
      = Some (Returned out)
      ∧ out = [vec4 127 0 255 255; vec4 63 0 254 255].
Proof.
  split.
  - refine (proj1 (proj2 (proj1 (proj2
              (readColorBuffer_conversion true true
                 (net_readback ushort_texture) 0 ushort_texture (2, 1) eq_refl eq_refl))
              eq_refl eq_refl))
              _ eq_refl eq_refl eq_refl _ eq_refl).
    vm_compute. discriminate.
  - destruct (proj2 (proj2 (proj1 (proj2
              (readColorBuffer_conversion true true
                 (net_readback float_texture) 0 float_texture (2, 1) eq_refl eq_refl))
              eq_refl eq_refl))
              _ eq_refl eq_refl eq_refl) as (out & Hread & _).
    + vm_compute. discriminate.
    + reflexivity.
    + repeat (apply Forall_cons_2 || apply Forall_nil_2);
        (split_and!; vm_compute; discriminate).
    + exists out. split; [exact Hread|].
      vm_compute in Hread. by injection Hread as <-.
Defined.

(** ** Misuse is logged and ignored (claim C9) *)

Lemma getRenderTarget_loop_plain (s : State) (connected : list PortRef) :
  Forall (λ c, ∃ p, deref s c = Some (PlainPort p)) connected →
  getRenderTarget_loop s connected = Some None.
Proof.
  induction 1 as [|c cs [p Hc] _ IH]; [done|].
  simpl. rewrite Hc. simpl. rewrite IH. by destruct (negb _).
Qed.

(** C9, counterexample.  A resize of an inport to (0,0) is not refused: the
    inport records the size, and nothing is logged.  (On an outport the guard
    is for (0,0) alone: a size with one zero component is taken.) *)
Lemma resize_zero_inport_counterexample :
  size_ <$> static_cast_RenderPort (net_fanout null null) 1 = Some (128, 128)
  ∧ (resize 1 1 ivec2_zero (net_fanout null null) ≫= λ '(_, s'),
       Some (size_ <$> static_cast_RenderPort s' 1, trace s'))
    = Some (Some (0, 0), [])
  ∧ (resize 1 0 (0, 480) (net_fanout null null) ≫= λ '(_, s'),
       Some (size_ <$> static_cast_RenderPort s' 0, trace s'))
    = Some (Some (0, 480), []).
Proof. repeat split. Qed.

(** C9, amended.  Every outport-only operation called on an inport, the
    activation or validation of an outport without render target, and the
    resize of an outport to (0,0) (its recorded size being another one) log
    one message and change nothing else; an inport that is unconnected, or
    connected to ports that are not render ports only, has no render target, no
    colour texture, size (0,0) and no valid result. *)
Theorem misuse_is_logged_and_ignored (fuel : nat) (s : State) (this : PortRef)
    (rp : RenderPort) :
  static_cast_RenderPort s this = Some rp →
  (Port_isOutport (base rp) = false →
     (∀ debugLabel,
        activateTarget this debugLabel s
        = Some (tt, add_event
                      (Log LERROR [SStr "activateTarget() called on inport (";
                                   SStr (procName rp); SStr ":"; SStr (getName rp);
                                   SStr ")"]) s))
     ∧ deactivateTarget this s
       = Some (tt, add_event (Log LERROR [SStr "deactivateTarget() called on inport"]) s)
     ∧ validateResult this s
       = Some (tt, add_event (Log LERROR [SStr "validateResult() called on inport"]) s)
     ∧ invalidateResult this s
       = Some (tt, add_event (Log LERROR [SStr "invalidateResult() called on inport"]) s)
     ∧ (∀ c d fresh,
          changeFormat this c d fresh s
          = Some (tt, add_event (Log LERROR [SStr "changeFormat() called on inport"]) s))
     ∧ clearTarget this s
       = Some (tt, add_event (Log LERROR [SStr "clearTarget() called on inport"]) s)
     ∧ (∀ r,
          setRenderTarget this r s
          = Some (tt, add_event (Log LERROR [SStr "setRenderTarget() called on inport"]) s)))
  ∧ (Port_isOutport (base rp) = true → renderTarget_ rp = None →
       (∀ debugLabel,
          activateTarget this debugLabel s
          = Some (tt, add_event
                        (Log LERROR
                           [SStr "Trying to activate RenderPort without RenderTarget (";
                            SStr (procName rp); SStr ":"; SStr (getName rp);
                            SStr ")"]) s))
       ∧ validateResult this s
         = Some (tt, add_event (Log LERROR [SStr "validateResult(): no RenderTarget"]) s))
  ∧ (Port_isOutport (base rp) = true → size_ rp ≠ ivec2_zero →
       resize fuel this ivec2_zero s
       = Some (tt, add_event (Log LWARNING [SStr "resize(): invalid size ";
                                            SVec2 ivec2_zero]) s))
  ∧ (Port_isOutport (base rp) = false →
     Forall (λ c, ∃ p, deref s c = Some (PlainPort p)) (connectedPorts_ (base rp)) →
       getRenderTarget s this = Some None
       ∧ hasRenderTarget s this = Some false
       ∧ getColorTexture s this = Some None
       ∧ getSize s this = Some ivec2_zero
       ∧ (connectedPorts_ (base rp) = [] →
            hasValidResult (S fuel) this s = Some (false, s))
       ∧ (connectedPorts_ (base rp) ≠ [] →
            hasValidResult (S fuel) this s
            = Some (false,
                    add_event
                      (Log LERROR [SStr "RenderPort is connected to Non-RenderPort"]) s))).
Proof.
  intros Hp. split_and!.
  - intros Hin. split_and!; intros;
      try unfold activateTarget; try unfold deactivateTarget;
      try unfold validateResult; try unfold invalidateResult;
      try unfold changeFormat; try unfold clearTarget; try unfold setRenderTarget;
      run; by rewrite Hp, Hin.
  - intros Hout Hnull. split_and!; intros;
      try unfold activateTarget; try unfold validateResult;
      run; by rewrite Hp, Hout, Hnull.
  - intros Hout Hsz. unfold resize. run. rewrite Hp, Hout.
    by rewrite bool_decide_false by done.
  - intros Hin Hplain.
    assert (Hrt : getRenderTarget s this = Some None).
    { unfold getRenderTarget. rewrite Hp. simpl. rewrite Hin.
      by apply getRenderTarget_loop_plain. }
    split_and!.
    + exact Hrt.
    + unfold hasRenderTarget. by rewrite Hrt.
    + unfold getColorTexture, hasRenderTarget. by rewrite Hrt.
    + unfold getSize, hasRenderTarget. by rewrite Hrt.
    + by apply hasValidResult_unconnected.
    + intros Hne. destruct (connectedPorts_ (base rp)) as [|c cs] eqn:Hcs; [done|].
      apply Forall_cons in Hplain as [[p Hc] _].
      simpl. run. by rewrite Hp, Hin, Hcs, Hc.
Qed.

Lemma misuse_is_logged_and_ignored_witness :
  validateResult 1 (net_fanout null null)
  = Some (tt, add_event (Log LERROR [SStr "validateResult() called on inport"])
                (net_fanout null null)).
Proof.
  refine (proj1 (proj2 (proj2 (proj1
            (misuse_is_logged_and_ignored 0 (net_fanout null null) 1 _ eq_refl)
            eq_refl)))).
Defined.

(** ** Propagation of the size origin (claim C1) *)

Lemma sum_list_with_insert {A : Type} (f : A → nat) (l : list A) (i : nat) (x y : A) :
  l !! i = Some x →
  (sum_list_with f (<[i := y]> l) + f x = sum_list_with f l + f y)%nat.
Proof.
  revert i. induction l as [|a l IH]; intros [|i] Hi; simplify_eq/=; [lia|].
  specialize (IH i Hi). lia.
Qed.

Lemma views_static_cast (s : State) (p : PortRef) (rp : RenderPort) :
  static_cast_RenderPort s p = Some rp →
  views s !! p = Some (base rp, Some (renderTarget_ rp, sizeOrigin_ rp)).
Proof.
  intros Hp. unfold views. rewrite list_lookup_fmap.
  apply static_cast_deref in Hp. unfold deref in Hp. by rewrite Hp.
Qed.

Lemma views_is_render (s : State) (p : PortRef) (b : Port)
    (x : option TargetRef * voidptr) :
  views s !! p = Some (b, Some x) →
  ∃ rp, static_cast_RenderPort s p = Some rp
        ∧ base rp = b ∧ renderTarget_ rp = x.1 ∧ sizeOrigin_ rp = x.2.
Proof.
  unfold views, static_cast_RenderPort, deref. rewrite list_lookup_fmap.
  destruct (ports s !! p) as [[q|rp]|]; simpl; intros H; simplify_eq.
  unfold view_of in H. simpl in H. injection H as <- <-. by exists rp.
Qed.

Lemma is_render_static_cast (s : State) (p : PortRef) :
  is_render s p ↔ is_Some (static_cast_RenderPort s p).
Proof.
  split.
  - intros (b & x & H). destruct (views_is_render s p b x H) as (rp & Hrp & _).
    by exists rp.
  - intros [rp Hrp]. eexists _, _. by apply views_static_cast.
Qed.

Lemma views_set_port (s : State) (p : PortRef) (o : PortObj) :
  views (set_port p o s) = <[p := view_of o]> (views s).
Proof. unfold views, set_port. simpl. by rewrite list_fmap_insert. Qed.

Lemma views_set_port_same (s : State) (p : PortRef) (o o0 : PortObj) :
  deref s p = Some o0 → view_of o = view_of o0 →
  views (set_port p o s) = views s.
Proof.
  intros Hp Hv. rewrite views_set_port, Hv. apply list_insert_id.
  unfold views. rewrite list_lookup_fmap. unfold deref in Hp. by rewrite Hp.
Qed.

Lemma alive_set_target (s : State) (r : TargetRef) (rt rt0 : RenderTarget) :
  deref_target s r = Some rt0 → alive (set_target r (Some rt) s) = alive s.
Proof.
  intros Hr. unfold alive, set_target. simpl. rewrite list_fmap_insert.
  apply list_insert_id. rewrite list_lookup_fmap.
  unfold deref_target in Hr. destruct (targets s !! r) as [[?|]|]; naive_solver.
Qed.

Lemma alive_deref_target (s : State) (r : TargetRef) :
  alive s !! r = Some true → is_Some (deref_target s r).
Proof.
  unfold alive, deref_target. rewrite list_lookup_fmap.
  destruct (targets s !! r) as [[rt|]|]; simpl; intros H; simplify_eq.
  by exists rt.
Qed.

Lemma is_render_transfer (s s' : State) (p : PortRef) :
  frames s' = frames s → is_render s p → is_render s' p.
Proof.
  intros Hf (b & x & Hp).
  assert (frames s !! p = Some (b, Some x.1)) as Hfp.
  { unfold frames. rewrite list_lookup_fmap, Hp. done. }
  rewrite <- Hf in Hfp. unfold frames in Hfp. rewrite list_lookup_fmap in Hfp.
  destruct (views s' !! p) as [[b' [x'|]]|] eqn:E; simplify_eq/=. by eexists _, _.
Qed.

(** Well-formedness only depends on the frames and on the live targets. *)
Lemma wf_transfer (s s' : State) :
  frames s' = frames s → alive s' = alive s → wf s → wf s'.
Proof.
  intros Hf Ha Hwf p b x Hp.
  assert (frames s' !! p = Some (b, Some x.1)) as Hfp.
  { unfold frames. rewrite list_lookup_fmap, Hp. done. }
  rewrite Hf in Hfp. unfold frames in Hfp. rewrite list_lookup_fmap in Hfp.
  destruct (views s !! p) as [[b0 [x0|]]|] eqn:Hp0; simplify_eq/=.
  unfold frame_of in Hfp. simpl in Hfp. injection Hfp as -> Hx.
  destruct (Hwf p b x0 Hp0) as [Hc Ht]. split.
  - eapply Forall_impl; [exact Hc|]. intros c. by apply is_render_transfer.
  - intros r Hr. rewrite Ha. apply Ht. congruence.
Qed.

(** *** Rules of the bookkeeping *)

Lemma Account_refl (so : voidptr) (s : State) : Account so s s [] 0.
Proof.
  unfold Account. rewrite app_nil_r. split_and!; try done; simpl; intros; lia.
Qed.

Lemma entered_app (l k : list Probe) : entered (l ++ k) = (entered l + entered k)%nat.
Proof. unfold entered. by rewrite sum_list_with_app. Qed.

Lemma adopted_app (l k : list Probe) : adopted (l ++ k) = (adopted l + adopted k)%nat.
Proof. unfold adopted. by rewrite sum_list_with_app. Qed.

Lemma adopted_by_app (p : PortRef) (l k : list Probe) :
  adopted_by p (l ++ k) = (adopted_by p l + adopted_by p k)%nat.
Proof. unfold adopted_by. by rewrite sum_list_with_app. Qed.

Lemma Account_trans (so : voidptr) (s1 s2 s3 : State) (n1 n2 : list Probe) (c1 c2 : Z) :
  Account so s1 s2 n1 c1 → Account so s2 s3 n2 c2 →
  Account so s1 s3 (n1 ++ n2) (c1 + c2).
Proof.
  intros (Hf1 & Ha1 & Hp1 & Hn1 & Hq1 & Hw1) (Hf2 & Ha2 & Hp2 & Hn2 & Hq2 & Hw2).
  unfold Account. rewrite entered_app, adopted_app. split_and!.
  - congruence.
  - congruence.
  - rewrite Hp2, Hp1. by rewrite app_assoc.
  - lia.
  - intros p. rewrite adopted_by_app. specialize (Hq1 p). specialize (Hq2 p). lia.
  - lia.
Qed.

(** A step that keeps the views and the live targets and adds no probe. *)
Lemma Account_same_views (so : voidptr) (s s' : State) :
  views s' = views s → alive s' = alive s → probes s' = probes s →
  Account so s s' [] 0.
Proof.
  intros Hv Ha Hp. unfold Account, frames, pending, pending_at, weight.
  rewrite Hv, Ha, Hp, app_nil_r. split_and!; try done; simpl; intros; lia.
Qed.

Lemma Account_entered (so : voidptr) (s : State) (p : PortRef) (tok : voidptr) :
  Account so s (add_probe (Entered p tok) s) [Entered p tok] 1.
Proof. unfold Account. split_and!; try done; simpl; intros; lia. Qed.

Lemma pend_settled (so : voidptr) (b : Port) (r : option TargetRef) :
  pend so (b, Some (r, so)) = 0%nat.
Proof. unfold pend. simpl. rewrite N.eqb_refl. by destruct (Port_isOutport b). Qed.

Lemma pend_unsettled (so : voidptr) (rp : RenderPort) :
  Port_isOutport (base rp) = false → sizeOrigin_ rp ≠ so →
  pend so (base rp, Some (renderTarget_ rp, sizeOrigin_ rp)) = 1%nat.
Proof.
  intros Hin Hne. unfold pend. simpl. rewrite Hin.
  by destruct (N.eqb_spec (sizeOrigin_ rp) so).
Qed.

(** The assignment [sizeOrigin_ = so] on an inport that held another token. *)
Lemma Account_adopt (so : voidptr) (s : State) (this : PortRef) (rp : RenderPort) :
  static_cast_RenderPort s this = Some rp →
  Port_isOutport (base rp) = false →
  sizeOrigin_ rp ≠ so →
  Account so s
    (add_probe (Adopted this so) (set_port this (IsRenderPort (set_sizeOrigin so rp)) s))
    [Adopted this so] (- Z.of_nat (length (connectedPorts_ (base rp)))).
Proof.
  intros Hp Hin Hne.
  pose proof (views_static_cast s this rp Hp) as Hv.
  pose proof (pend_unsettled so rp Hin Hne) as Hpend.
  pose proof (pend_settled so (base rp) (renderTarget_ rp)) as Hset.
  set (s' := add_probe _ _).
  assert (Hvs : views s' = <[this := (base rp, Some (renderTarget_ rp, so))]> (views s)).
  { subst s'. unfold add_probe, views. simpl. by rewrite list_fmap_insert. }
  unfold Account. split_and!.
  - unfold frames. rewrite Hvs, list_fmap_insert. apply list_insert_id.
    rewrite list_lookup_fmap, Hv. done.
  - done.
  - done.
  - unfold pending. rewrite Hvs.
    pose proof (sum_list_with_insert (pend so) (views s) this _
                  (base rp, Some (renderTarget_ rp, so)) Hv) as H.
    rewrite Hpend, Hset in H. simpl. lia.
  - intros p. unfold pending_at, adopted_by. simpl. rewrite Hvs.
    destruct (decide (this = p)) as [<-|Hnp].
    + rewrite list_lookup_insert_eq by (by eapply lookup_lt_Some).
      rewrite Hv. simpl. rewrite Hpend, Hset. lia.
    + by rewrite list_lookup_insert_ne.
  - unfold weight. rewrite Hvs.
    pose proof (sum_list_with_insert
                  (λ v : PortView, pend so v * length (connectedPorts_ v.1))%nat
                  (views s) this _ (base rp, Some (renderTarget_ rp, so)) Hv) as H.
    simpl in H. rewrite Hpend, Hset in H. simpl. lia.
Qed.

(** *** [resize] keeps the graph *)

Lemma notify_peers_run (newsize : ivec2) (connected : list PortRef) :
  ∀ s, Forall (is_render s) connected →
    ∃ s', forM_ connected (λ c,
            do peer <- query (λ s, static_cast_RenderPort s c) in
            emit (Proc_portResized (proc_id (processor_ (base peer))) c newsize)) s
          = Some (tt, s')
          ∧ ports s' = ports s ∧ targets s' = targets s ∧ probes s' = probes s.
Proof.
  induction connected as [|c cs IH]; intros s Hall.
  - by exists s.
  - apply Forall_cons in Hall as [Hc Hcs].
    apply is_render_static_cast in Hc as [peer Hpeer].
    destruct (IH (add_event (Proc_portResized (proc_id (processor_ (base peer)))
                               c newsize) s)) as (s' & Hrun & Hp & Ht & Hpr).
    { eapply Forall_impl; [exact Hcs|]. intros q Hq. exact Hq. }
    exists s'. split; [|done].
    simpl. unfold bind at 1. unfold bind at 1, query at 1. rewrite Hpeer.
    unfold emit at 1. exact Hrun.
Qed.

(** On a well-formed network [resize] returns, keeps size origins, connections
    and target pointers, and adds no probe. *)
Lemma resize_keeps_views (fuel : nat) (s : State) (c : PortRef) (newsize : ivec2) :
  wf s → is_render s c →
  ∃ s', resize (S fuel) c newsize s = Some (tt, s')
        ∧ views s' = views s ∧ alive s' = alive s ∧ probes s' = probes s.
Proof.
  intros Hwf Hc.
  pose proof Hc as (b & x & Hv).
  destruct (views_is_render s c b x Hv) as (rp & Hp & <- & Hx1 & Hx2).
  pose proof (static_cast_deref _ _ _ Hp) as Hd.
  destruct (Hwf c _ x Hv) as [Hpeers Htarget].
  unfold resize. unfold bind at 1, query at 1. rewrite Hp.
  destruct (Port_isOutport (base rp)) eqn:Hdir.
  - case_bool_decide as Hsame; [by exists s|].
    case_bool_decide as Hzero; [by eexists|].
    destruct (renderTarget_ rp) as [r|] eqn:Hr.
    + destruct (alive_deref_target s r) as [rt Hrt]; [apply Htarget; congruence|].
      unfold bind, update_target, store. rewrite Hrt.
      eexists. split; [reflexivity|]. split_and!.
      * etrans; [apply (views_set_port_same
                          (set_target r (Some (RenderTarget_resize newsize rt)) s)
                          c _ (IsRenderPort rp)); [done|]|done].
        unfold view_of. simpl. by rewrite Hr.
      * change (alive (set_target r (Some (RenderTarget_resize newsize rt)) s) = alive s).
        by eapply alive_set_target.
      * done.
    + unfold bind, ret, store. eexists. split; [reflexivity|]. split_and!; try done.
      apply (views_set_port_same _ c _ (IsRenderPort rp)); [done|].
      unfold view_of. simpl. by rewrite Hr.
  - set (s1 := set_port c (IsRenderPort (set_size newsize rp)) s).
    assert (Hv1 : views s1 = views s).
    { subst s1. by apply (views_set_port_same _ c _ (IsRenderPort rp)). }
    assert (Hp1 : static_cast_RenderPort s1 c = Some (set_size newsize rp)).
    { subst s1. by eapply static_cast_set_port_eq. }
    unfold bind at 1, store at 1. fold s1.
    unfold bind at 1, query at 1.
    rewrite (getSizeOrigin_inport fuel s1 c _ Hp1 Hdir).
    destruct (negb (nonnull _)); [by exists s1|].
    destruct (notify_peers_run newsize (connectedPorts_ (base rp)) s1)
      as (s' & Hrun & Hps & Hts & Hprs).
    { eapply Forall_impl; [exact Hpeers|]. intros q (b' & x' & Hq).
      exists b', x'. by rewrite Hv1. }
    exists s'. split; [exact Hrun|]. split_and!.
    + unfold views. rewrite Hps. exact Hv1.
    + unfold alive. by rewrite Hts.
    + by rewrite Hprs.
Qed.

(** *** Termination and bookkeeping of [sizeOriginChanged] *)

Lemma Account_wf (so : voidptr) (s s' : State) (new : list Probe) (calls : Z) :
  Account so s s' new calls → wf s → wf s'.
Proof. intros (Hf & Ha & _). by apply wf_transfer. Qed.

Lemma Account_is_render (so : voidptr) (s s' : State) (new : list Probe) (calls : Z)
    (p : PortRef) :
  Account so s s' new calls → is_render s p → is_render s' p.
Proof. intros (Hf & _). by apply is_render_transfer. Qed.

Lemma Account_pending_le (so : voidptr) (s s' : State) (new : list Probe) (calls : Z) :
  Account so s s' new calls → (pending so s' ≤ pending so s)%nat.
Proof. intros (_ & _ & _ & Hn & _). lia. Qed.

Lemma sizeOriginChanged_unfold (fuel : nat) (this : PortRef) (so : voidptr) :
  sizeOriginChanged (S fuel) this so
  = (probe (Entered this so) >>
     do rp <- query (λ s, static_cast_RenderPort s this) in
     if Port_isOutport (base rp) then
       emit (Proc_sizeOriginChanged (proc_id (processor_ (base rp))) this) >>
       store this (set_validResult false rp)
     else
       if N.eqb (sizeOrigin_ rp) so then ret tt
       else
         store this (set_sizeOrigin so rp) >>
         probe (Adopted this so) >>
         forM_ (connectedPorts_ (base rp)) (λ c,
           sizeOriginChanged fuel c so >>
           if nonnull so then
             do me <- query (λ s, static_cast_RenderPort s this) in
             resize (S fuel) c (size_ me)
           else ret tt)).
Proof. reflexivity. Qed.

(** The loop over the connected ports, given that the recursive calls behave. *)
Lemma propagate_loop (fuel : nat) (this : PortRef) (so : voidptr) :
  (∀ s c, wf s → is_render s c → (pending so s < fuel)%nat →
     ∃ s' new, sizeOriginChanged fuel c so s = Some (tt, s') ∧ Account so s s' new 1) →
  ∀ connected s,
    wf s → Forall (is_render s) connected → is_render s this →
    (pending so s < fuel)%nat →
    ∃ s' new,
      forM_ connected (λ c,
        sizeOriginChanged fuel c so >>
        if nonnull so then
          do me <- query (λ s, static_cast_RenderPort s this) in
          resize (S fuel) c (size_ me)
        else ret tt) s = Some (tt, s')
      ∧ Account so s s' new (Z.of_nat (length connected)).
Proof.
  intros Hcall. induction connected as [|c cs IH]; intros s Hwf Hall Hthis Hfuel.
  - exists s, []. split; [done|apply Account_refl].
  - apply Forall_cons in Hall as [Hc Hcs].
    destruct (Hcall s c Hwf Hc Hfuel) as (s2 & n2 & Hrun2 & Hacc2).
    assert (∃ s3, (if nonnull so then
                     do me <- query (λ s, static_cast_RenderPort s this) in
                     resize (S fuel) c (size_ me)
                   else ret tt) s2 = Some (tt, s3) ∧ Account so s2 s3 [] 0)
      as (s3 & Hrun3 & Hacc3).
    { destruct (nonnull so).
      - pose proof (Account_is_render _ _ _ _ _ this Hacc2 Hthis) as Hthis2.
        apply is_render_static_cast in Hthis2 as [me Hme].
        destruct (resize_keeps_views fuel s2 c (size_ me)) as (s3 & Hr & Hv & Ha & Hp).
        { by eapply Account_wf. }
        { by eapply Account_is_render. }
        exists s3. split.
        + unfold bind, query. by rewrite Hme.
        + by apply Account_same_views.
      - exists s2. split; [done|apply Account_refl]. }
    pose proof (Account_trans _ _ _ _ _ _ _ _ Hacc2 Hacc3) as Hacc23.
    destruct (IH s3) as (s' & n' & Hrun & Hacc').
    { by eapply Account_wf. }
    { eapply Forall_impl; [exact Hcs|]. intros q. by eapply Account_is_render. }
    { by eapply Account_is_render. }
    { pose proof (Account_pending_le _ _ _ _ _ Hacc23). lia. }
    exists s', ((n2 ++ []) ++ n')%list. split.
    + simpl. unfold bind at 1. unfold bind at 1. rewrite Hrun2.
      rewrite Hrun3. exact Hrun.
    + replace (Z.of_nat (length (c :: cs))) with (1 + 0 + Z.of_nat (length cs))
        by (simpl length; lia).
      by eapply Account_trans.
Qed.

Lemma pending_at_static_cast (so : voidptr) (s : State) (p : PortRef) (rp : RenderPort) :
  static_cast_RenderPort s p = Some rp →
  pending_at so s p = pend so (base rp, Some (renderTarget_ rp, sizeOrigin_ rp)).
Proof. intros Hp. unfold pending_at. by rewrite (views_static_cast s p rp Hp). Qed.

(** With more fuel than there are pending inports, [sizeOriginChanged] returns
    on every well-formed network; the run is one call plus what the
    connections of the adopting inports pay for. *)
Lemma sizeOriginChanged_account (fuel : nat) :
  ∀ (s : State) (this : PortRef) (so : voidptr),
    wf s → is_render s this → (pending so s < fuel)%nat →
    ∃ s' new,
      sizeOriginChanged fuel this so s = Some (tt, s')
      ∧ Account so s s' new 1
      ∧ pending_at so s' this = 0%nat.
Proof.
  induction fuel as [|fuel IH]; intros s this so Hwf Hthis Hfuel; [lia|].
  pose proof Hthis as Hthis'.
  apply is_render_static_cast in Hthis' as [rp Hp].
  pose proof (static_cast_deref _ _ _ Hp) as Hd.
  set (s0 := add_probe (Entered this so) s).
  pose proof (Account_entered so s this so) as Hacc0. fold s0 in Hacc0.
  rewrite sizeOriginChanged_unfold.
  unfold bind at 1, probe at 1. fold s0.
  assert (Hp0 : static_cast_RenderPort s0 this = Some rp) by done.
  pose proof (static_cast_deref _ _ _ Hp0) as Hd0.
  unfold bind at 1, query at 1. rewrite Hp0.
  destruct (Port_isOutport (base rp)) eqn:Hdir.
  - (* outport: the owning processor is notified *)
    eexists _, ([Entered this so] ++ [])%list. split; [reflexivity|]. split.
    + replace 1 with (1 + 0) by lia. eapply Account_trans; [exact Hacc0|].
      apply Account_same_views; try done.
      etrans; [apply (views_set_port_same
                        (add_event (Proc_sizeOriginChanged
                                      (proc_id (processor_ (base rp))) this) s0)
                        this _ (IsRenderPort rp)); done|done].
    + erewrite pending_at_static_cast
        by (eapply static_cast_set_port_eq; exact Hd0).
      unfold pend. simpl. by rewrite Hdir.
  - destruct (N.eqb_spec (sizeOrigin_ rp) so) as [Heq|Hne].
    + (* inport that already holds the token *)
      exists s0, [Entered this so]. split; [done|]. split; [done|].
      rewrite (pending_at_static_cast so s0 this rp) by done.
      rewrite <- Heq. apply pend_settled.
    + (* inport that adopts the token *)
      set (s1 := add_probe (Adopted this so)
                   (set_port this (IsRenderPort (set_sizeOrigin so rp)) s0)).
      assert (Hacc1 : Account so s0 s1 [Adopted this so]
                        (- Z.of_nat (length (connectedPorts_ (base rp))))).
      { by apply Account_adopt. }
      pose proof (Account_trans _ _ _ _ _ _ _ _ Hacc0 Hacc1) as Hacc01.
      assert (Hp1 : static_cast_RenderPort s1 this = Some (set_sizeOrigin so rp)).
      { subst s1. rewrite static_cast_add_probe. by eapply static_cast_set_port_eq. }
      destruct (Hwf this _ _ (views_static_cast s this rp Hp)) as [Hpeers _].
      destruct (propagate_loop fuel this so) with (connected := connectedPorts_ (base rp))
        (s := s1) as (s' & new & Hrun & Hacc).
      { intros st c Hwfst Hc Hlt.
        destruct (IH st c so Hwfst Hc Hlt) as (st' & n & Hr & Ha & _). eauto. }
      { by eapply Account_wf. }
      { eapply Forall_impl; [exact Hpeers|]. intros q. by eapply Account_is_render. }
      { by eapply Account_is_render. }
      { destruct Hacc01 as (_ & _ & _ & Hn & _).
        rewrite adopted_app in Hn. simpl in Hn. lia. }
      exists s', (([Entered this so] ++ [Adopted this so]) ++ new)%list.
      split; [|split].
      * unfold bind at 1, store at 1. unfold bind at 1, probe at 1. fold s1.
        exact Hrun.
      * replace 1 with (1 + - Z.of_nat (length (connectedPorts_ (base rp)))
                        + Z.of_nat (length (connectedPorts_ (base rp)))) by lia.
        by eapply Account_trans.
      * destruct Hacc as (_ & _ & _ & _ & Hq & _). specialize (Hq this).
        rewrite (pending_at_static_cast so s1 this _ Hp1) in Hq.
        simpl in Hq. rewrite pend_settled in Hq. lia.
Qed.

Lemma is_renderb_sound (s : State) (p : PortRef) :
  is_renderb s p = true → is_render s p.
Proof.
  unfold is_renderb, is_render.
  destruct (views s !! p) as [[b [x|]]|]; try done. by exists b, x.
Qed.

Lemma wfb_sound (s : State) : wfb s = true → wf s.
Proof.
  unfold wfb. rewrite forallb_forall. intros Hall p b x Hp.
  apply list_elem_of_lookup_2, list_elem_of_In in Hp.
  specialize (Hall _ Hp). simpl in Hall.
  apply andb_prop in Hall as [Hc Ht]. split.
  - rewrite forallb_forall in Hc. apply list.Forall_forall. intros c Hin.
    apply is_renderb_sound, Hc. by apply list_elem_of_In.
  - intros r Hr. rewrite Hr in Ht. by apply bool_decide_eq_true in Ht.
Qed.








(** * Further properties *)

(** ** The life cycle of a render target *)

Lemma deref_target_add_target_new (s : State) (rt : RenderTarget) :
  deref_target (add_target rt s) (length (targets s)) = Some rt.
Proof.
  unfold deref_target, add_target. simpl.
  rewrite lookup_app_r by lia. by rewrite Nat.sub_diag.
Qed.

Lemma deref_target_add_target_old (s : State) (rt : RenderTarget) (r : TargetRef) :
  (r < length (targets s))%nat →
  deref_target (add_target rt s) r = deref_target s r.
Proof.
  intros Hr. unfold deref_target, add_target. simpl. by rewrite lookup_app_l.
Qed.

Lemma deref_target_lt (s : State) (r : TargetRef) (rt : RenderTarget) :
  deref_target s r = Some rt → (r < length (targets s))%nat.
Proof.
  unfold deref_target. destruct (targets s !! r) eqn:E; [|done].
  intros _. by eapply lookup_lt_Some.
Qed.

Lemma deref_target_set_target_None (s : State) (r : TargetRef) (rt : RenderTarget) :
  deref_target s r = Some rt → deref_target (set_target r None s) r = None.
Proof.
  intros Hr. apply deref_target_lt in Hr.
  unfold deref_target, set_target. simpl. by rewrite list_lookup_insert_eq.
Qed.

Lemma rt_size_resize (newsize : ivec2) (rt : RenderTarget) :
  rt_size (RenderTarget_resize newsize rt) = newsize.
Proof. unfold RenderTarget_resize. by case_bool_decide. Qed.

Lemma getSize_outport (s : State) (this : PortRef) (rp : RenderPort) :
  static_cast_RenderPort s this = Some rp →
  Port_isOutport (base rp) = true →
  getSize s this
  = match renderTarget_ rp with
    | Some r => rt ← deref_target s r; Some (rt_size rt)
    | None => Some ivec2_zero
    end.
Proof.
  intros Hp Ho. unfold getSize, hasRenderTarget, getRenderTarget.
  rewrite Hp. simpl. rewrite Ho. by destruct (renderTarget_ rp).
Qed.

(** *** Running a computation step by step *)

Lemma bind_query {A B : Type} (q : State → option A) (k : A → M B) (s : State) (a : A) :
  q s = Some a → bind (query q) k s = k a s.
Proof. intros H. unfold bind, query. by rewrite H. Qed.

Lemma bind_ret {A B : Type} (a : A) (k : A → M B) (s : State) : bind (ret a) k s = k a s.
Proof. reflexivity. Qed.

Lemma bind_store {B : Type} (p : PortRef) (rp : RenderPort) (k : unit → M B) (s : State) :
  bind (store p rp) k s = k tt (set_port p (IsRenderPort rp) s).
Proof. reflexivity. Qed.

Lemma bind_emit {B : Type} (e : Event) (k : unit → M B) (s : State) :
  bind (emit e) k s = k tt (add_event e s).
Proof. reflexivity. Qed.

Lemma bind_new_target {B : Type} (rt : RenderTarget) (k : TargetRef → M B) (s : State) :
  bind (new_target rt) k s = k (length (targets s)) (add_target rt s).
Proof. reflexivity. Qed.

Lemma bind_update_target {B : Type} (r : TargetRef) (f : RenderTarget → RenderTarget)
    (k : unit → M B) (s : State) (rt : RenderTarget) :
  deref_target s r = Some rt →
  bind (update_target r f) k s = k tt (set_target r (Some (f rt)) s).
Proof. intros H. unfold bind, update_target. by rewrite H. Qed.

Lemma bind_delete_target {B : Type} (r : TargetRef) (k : unit → M B) (s : State)
    (rt : RenderTarget) :
  deref_target s r = Some rt →
  bind (delete_target r) k s = k tt (set_target r None s).
Proof. intros H. unfold bind, delete_target. by rewrite H. Qed.

Lemma bind_assoc {A B C : Type} (m : M A) (k : A → M B) (h : B → M C) (s : State) :
  bind (bind m k) h s = bind m (λ a, bind (k a) h) s.
Proof. unfold bind. destruct (m s) as [[a s']|]; done. Qed.

(** The state after [initialize] on an outport that owns its target. *)
Lemma initialize_run (s : State) (this : PortRef) (rp : RenderPort) (fresh : RenderTarget) :
  static_cast_RenderPort s this = Some rp →
  Port_isOutport (base rp) = true →
  renderTargetSharing_ rp = false →
  initialize this fresh s
  = Some (tt,
          set_port this
            (IsRenderPort (set_validResult false
                             (set_renderTarget (Some (length (targets s))) rp)))
            (set_target (length (targets s))
               (Some (RenderTarget_resize (size_ rp)
                        (RenderTarget_setDebugLabel
                           (procName rp +:+ "::" +:+ getName rp) fresh)))
               (set_target (length (targets s))
                  (Some (RenderTarget_setDebugLabel
                           (procName rp +:+ "::" +:+ getName rp) fresh))
                  (set_port this
                     (IsRenderPort (set_renderTarget (Some (length (targets s))) rp))
                     (add_target fresh s))))).
Proof.
  intros Hp Ho Hs.
  pose proof (static_cast_deref _ _ _ Hp) as Hd.
  unfold initialize, Port_initialize. rewrite bind_ret.
  rewrite (bind_query _ _ s rp Hp). rewrite Ho, Hs. change (negb true) with false. cbv iota.
  rewrite bind_new_target, bind_store.
  erewrite bind_update_target
    by (rewrite deref_target_set_port; apply deref_target_add_target_new).
  erewrite bind_update_target
    by (eapply deref_target_set_target_eq; rewrite deref_target_set_port;
        apply deref_target_add_target_new).
  erewrite bind_query; [reflexivity|].
  rewrite !static_cast_set_target. eapply static_cast_set_port_eq. exact Hd.
Qed.

(** X1.  [initialize] on an outport that owns its target allocates a target
    in a fresh cell, gives it the size recorded in [size_] and the label
    [<processor>::<port>], and leaves the port without valid result; no other
    port and no existing target is touched.  On an inport, and on an outport in
    sharing mode, it changes nothing. *)
Theorem initialize_allocates (fuel : nat) (s : State) (this : PortRef) (rp : RenderPort)
    (fresh : RenderTarget) :
  static_cast_RenderPort s this = Some rp →
  (Port_isOutport (base rp) = false ∨ renderTargetSharing_ rp = true →
     initialize this fresh s = Some (tt, s))
  ∧ (Port_isOutport (base rp) = true → renderTargetSharing_ rp = false →
     ∃ s' rt,
       initialize this fresh s = Some (tt, s')
       ∧ getRenderTarget s' this = Some (Some (length (targets s)))
       ∧ deref_target s' (length (targets s)) = Some rt
       ∧ rt_size rt = size_ rp
       ∧ rt_debugLabel rt = procName rp +:+ "::" +:+ getName rp
       ∧ getSize s' this = Some (size_ rp)
       ∧ hasValidResult (S fuel) this s' = Some (false, s')
       ∧ (∀ r, (r < length (targets s))%nat → deref_target s' r = deref_target s r)
       ∧ (∀ q, q ≠ this → deref s' q = deref s q)
       ∧ trace s' = trace s).
Proof.
  intros Hp. split.
  - intros Hcase. unfold initialize, Port_initialize, bind, ret, query. rewrite Hp.
    destruct Hcase as [-> | ->]; [done|]. by destruct (Port_isOutport (base rp)).
  - intros Ho Hs.
    pose proof (static_cast_deref _ _ _ Hp) as Hd.
    rewrite (initialize_run s this rp fresh Hp Ho Hs).
    set (r := length (targets s)).
    set (lbl := procName rp +:+ "::" +:+ getName rp).
    set (s' := set_port this _ _).
    assert (Hp' : static_cast_RenderPort s' this
                  = Some (set_validResult false (set_renderTarget (Some r) rp))).
    { subst s'. eapply static_cast_set_port_eq. rewrite !deref_set_target.
      eapply deref_set_port_eq. exact Hd. }
    assert (Ht' : deref_target s' r
                  = Some (RenderTarget_resize (size_ rp)
                            (RenderTarget_setDebugLabel lbl fresh))).
    { subst s'. rewrite deref_target_set_port.
      eapply deref_target_set_target_eq. eapply deref_target_set_target_eq.
      rewrite deref_target_set_port. apply deref_target_add_target_new. }
    eexists s', _. split_and!.
    + reflexivity.
    + unfold getRenderTarget. rewrite Hp'. simpl. by rewrite Ho.
    + exact Ht'.
    + apply rt_size_resize.
    + unfold RenderTarget_resize. by case_bool_decide.
    + rewrite (getSize_outport s' this _ Hp' Ho). simpl. rewrite Ht'. simpl.
      by rewrite rt_size_resize.
    + by rewrite (hasValidResult_outport fuel s' this _ Hp' Ho).
    + intros r' Hr'. subst s'. rewrite deref_target_set_port.
      rewrite !deref_target_set_target_ne by (subst r; lia).
      rewrite deref_target_set_port. by apply deref_target_add_target_old.
    + intros q Hq. subst s'. rewrite deref_set_port_ne by done.
      rewrite !deref_set_target. by rewrite deref_set_port_ne.
    + reflexivity.
Qed.

Lemma initialize_allocates_witness :
  ∃ s' rt,
    initialize 0 blank_target (net_fresh false) = Some (tt, s')
    ∧ getRenderTarget s' 0 = Some (Some 0%nat)
    ∧ deref_target s' 0 = Some rt
    ∧ rt_size rt = (128, 128)
    ∧ getSize s' 0 = Some (128, 128).
Proof.
  destruct (proj2 (initialize_allocates 0 (net_fresh false) 0 _ blank_target eq_refl)
              eq_refl eq_refl)
    as (s' & rt & Hi & Hg & Ht & Hsz & _ & Hgs & _).
  exists s', rt. by split_and!.
Defined.

Lemma deinitialize_run (s : State) (this : PortRef) (rp : RenderPort) (r : TargetRef)
    (rt : RenderTarget) :
  static_cast_RenderPort s this = Some rp →
  Port_isOutport (base rp) = true →
  renderTarget_ rp = Some r →
  deref_target s r = Some rt →
  deinitialize this s
  = Some (tt, set_port this (IsRenderPort (set_renderTarget None rp)) (set_target r None s)).
Proof.
  intros Hp Ho Hr Ht. unfold deinitialize, Port_deinitialize.
  rewrite (bind_query _ _ s rp Hp). rewrite Ho, Hr.
  rewrite bind_assoc. by rewrite (bind_delete_target r _ s rt Ht).
Qed.

Lemma deinitialize_nothing (s : State) (this : PortRef) (rp : RenderPort) :
  static_cast_RenderPort s this = Some rp →
  Port_isOutport (base rp) = false ∨ renderTarget_ rp = None →
  deinitialize this s = Some (tt, s).
Proof.
  intros Hp Hcase. unfold deinitialize, Port_deinitialize.
  rewrite (bind_query _ _ s rp Hp).
  destruct Hcase as [-> | ->]; [done|]. by destruct (Port_isOutport (base rp)).
Qed.

(** X2.  The life cycle of an owned target: after [initialize] the destructor
    would complain that the port has not been deinitialized; [deinitialize]
    deletes the target and nulls the pointer, so that the port reports no
    render target and size (0,0), a second [deinitialize] does nothing, and
    the destructor stays silent. *)
Theorem initialize_deinitialize (s : State) (this : PortRef) (rp : RenderPort)
    (fresh : RenderTarget) :
  static_cast_RenderPort s this = Some rp →
  Port_isOutport (base rp) = true →
  renderTargetSharing_ rp = false →
  ∃ s1 s2,
    initialize this fresh s = Some (tt, s1)
    ∧ RenderPort_dtor this s1
      = Some (tt, add_event
                    (Log LERROR [SStr "~RenderPort(): '"; SStr (getName rp);
                                 SStr "' has not been deinitialized before destruction"])
                    s1)
    ∧ deinitialize this s1 = Some (tt, s2)
    ∧ getRenderTarget s2 this = Some None
    ∧ hasRenderTarget s2 this = Some false
    ∧ getSize s2 this = Some ivec2_zero
    ∧ deref_target s2 (length (targets s)) = None
    ∧ deinitialize this s2 = Some (tt, s2)
    ∧ RenderPort_dtor this s2 = Some (tt, s2)
    ∧ (∀ r, (r < length (targets s))%nat → deref_target s2 r = deref_target s r)
    ∧ (∀ q, q ≠ this → deref s2 q = deref s q).
Proof.
  intros Hp Ho Hs.
  pose proof (static_cast_deref _ _ _ Hp) as Hd.
  set (r := length (targets s)).
  set (lbl := procName rp +:+ "::" +:+ getName rp).
  pose proof (initialize_run s this rp fresh Hp Ho Hs) as Hinit.
  set (s1 := set_port this _ _) in Hinit.
  set (rp1 := set_validResult false (set_renderTarget (Some r) rp)).
  assert (Hp1 : static_cast_RenderPort s1 this = Some rp1).
  { subst s1. eapply static_cast_set_port_eq. rewrite !deref_set_target.
    eapply deref_set_port_eq. exact Hd. }
  assert (Ht1 : deref_target s1 r
                = Some (RenderTarget_resize (size_ rp)
                          (RenderTarget_setDebugLabel lbl fresh))).
  { subst s1. rewrite deref_target_set_port.
    eapply deref_target_set_target_eq. eapply deref_target_set_target_eq.
    rewrite deref_target_set_port. apply deref_target_add_target_new. }
  pose proof (deinitialize_run s1 this rp1 r _ Hp1 Ho eq_refl Ht1) as Hde.
  set (s2 := set_port this _ _) in Hde.
  assert (Hp2 : static_cast_RenderPort s2 this = Some (set_renderTarget None rp1)).
  { subst s2. eapply static_cast_set_port_eq. rewrite deref_set_target.
    by eapply static_cast_deref. }
  assert (Hg2 : getRenderTarget s2 this = Some None).
  { unfold getRenderTarget. rewrite Hp2. simpl. by rewrite Ho. }
  exists s1, s2. split_and!.
  - exact Hinit.
  - unfold RenderPort_dtor. by rewrite (bind_query _ _ s1 rp1 Hp1).
  - exact Hde.
  - exact Hg2.
  - unfold hasRenderTarget. by rewrite Hg2.
  - unfold getSize, hasRenderTarget. by rewrite Hg2.
  - subst s2. rewrite deref_target_set_port.
    by eapply deref_target_set_target_None.
  - apply (deinitialize_nothing s2 this _ Hp2). by right.
  - unfold RenderPort_dtor. by rewrite (bind_query _ _ s2 _ Hp2).
  - intros r' Hr'. subst s2. rewrite deref_target_set_port.
    rewrite deref_target_set_target_ne by (subst r; lia).
    subst s1. rewrite deref_target_set_port.
    rewrite !deref_target_set_target_ne by (subst r; lia).
    rewrite deref_target_set_port. by apply deref_target_add_target_old.
  - intros q Hq. subst s2. rewrite deref_set_port_ne by done.
    rewrite deref_set_target. subst s1. rewrite deref_set_port_ne by done.
    rewrite !deref_set_target. by rewrite deref_set_port_ne.
Qed.

Lemma initialize_deinitialize_witness :
  ∃ s1 s2,
    initialize 0 blank_target (net_fresh false) = Some (tt, s1)
    ∧ deinitialize 0 s1 = Some (tt, s2)
    ∧ getRenderTarget s2 0 = Some None
    ∧ RenderPort_dtor 0 s2 = Some (tt, s2).
Proof.
  destruct (initialize_deinitialize (net_fresh false) 0 _ blank_target
              eq_refl eq_refl eq_refl)
    as (s1 & s2 & Hi & _ & Hd & Hg & _ & _ & _ & _ & Hdt & _).
  exists s1, s2. by split_and!.
Defined.

(** X3.  [deinitialize] deletes whatever target the outport points to, with
    no regard to [renderTargetSharing_]: when two outports point to one target
    and the first is deinitialized, the second is left with a dangling
    pointer, and asking it for its size, activating it or deinitializing it
    dereferences the deleted target. *)
Theorem deinitialize_shared_target (s : State) (a b : PortRef) (rpa rpb : RenderPort)
    (r : TargetRef) (rt : RenderTarget) (debugLabel : string) :
  a ≠ b →
  static_cast_RenderPort s a = Some rpa →
  Port_isOutport (base rpa) = true →
  renderTarget_ rpa = Some r →
  static_cast_RenderPort s b = Some rpb →
  Port_isOutport (base rpb) = true →
  renderTarget_ rpb = Some r →
  deref_target s r = Some rt →
  ∃ s',
    deinitialize a s = Some (tt, s')
    ∧ getRenderTarget s' b = Some (Some r)
    ∧ deref_target s' r = None
    ∧ getSize s' b = None
    ∧ activateTarget b debugLabel s' = None
    ∧ deinitialize b s' = None.
Proof.
  intros Hab Ha Hoa Hra Hb Hob Hrb Ht.
  rewrite (deinitialize_run s a rpa r rt Ha Hoa Hra Ht).
  set (s' := set_port a _ _).
  assert (Hb' : static_cast_RenderPort s' b = Some rpb).
  { subst s'. rewrite static_cast_set_port_ne by done. by rewrite static_cast_set_target. }
  assert (Ht' : deref_target s' r = None).
  { subst s'. rewrite deref_target_set_port. by eapply deref_target_set_target_None. }
  exists s'. split_and!.
  - reflexivity.
  - unfold getRenderTarget. rewrite Hb'. simpl. by rewrite Hob, Hrb.
  - exact Ht'.
  - rewrite (getSize_outport s' b rpb Hb' Hob). by rewrite Hrb, Ht'.
  - unfold activateTarget. rewrite (bind_query _ _ s' rpb Hb'). rewrite Hob, Hrb.
    unfold bind, update_target. by rewrite Ht'.
  - unfold deinitialize. rewrite (bind_query _ _ s' rpb Hb'). rewrite Hob, Hrb.
    unfold bind, delete_target. by rewrite Ht'.
Qed.

Lemma deinitialize_shared_target_witness :
  ∃ s',
    deinitialize 0 net_shared = Some (tt, s')
    ∧ getRenderTarget s' 1 = Some (Some 0%nat)
    ∧ deref_target s' 0 = None
    ∧ getSize s' 1 = None
    ∧ activateTarget 1 "" s' = None
    ∧ deinitialize 1 s' = None.
Proof.
  eapply deinitialize_shared_target with (a := 0%nat) (b := 1%nat) (rt := blank_target);
    first [discriminate | reflexivity].
Defined.

(** ** Activation, readiness and what an inport sees *)

Lemma activateTarget_run (s : State) (this : PortRef) (rp : RenderPort) (r : TargetRef)
    (rt : RenderTarget) (debugLabel : string) :
  static_cast_RenderPort s this = Some rp →
  Port_isOutport (base rp) = true →
  renderTarget_ rp = Some r →
  deref_target s r = Some rt →
  activateTarget this debugLabel s
  = Some (tt,
          set_target r
            (Some (RenderTarget_increaseNumUpdates
                     (RenderTarget_activateTarget
                        (procName rp +:+ ":" +:+ getName rp +:+ labelSuffix debugLabel) rt)))
            (set_port this (IsRenderPort (set_validResult true rp))
               (set_target r
                  (Some (RenderTarget_activateTarget
                           (procName rp +:+ ":" +:+ getName rp +:+ labelSuffix debugLabel)
                           rt)) s))).
Proof.
  intros Hp Ho Hr Ht. unfold activateTarget.
  rewrite (bind_query _ _ s rp Hp). rewrite Ho, Hr.
  rewrite (bind_update_target r _ _ s rt Ht).
  apply validateResult_outport; try done.
  by eapply deref_target_set_target_eq.
Qed.

Lemma isActive_target (s : State) (this : PortRef) (rp : RenderPort) (r : TargetRef)
    (rt : RenderTarget) :
  static_cast_RenderPort s this = Some rp →
  renderTarget_ rp = Some r →
  deref_target s r = Some rt →
  isActive s this = Some (rt_active rt).
Proof. intros Hp Hr Ht. unfold isActive. rewrite Hp. simpl. by rewrite Hr, Ht. Qed.

(** X4.  Activation and deactivation of an outport with a render target:
    between the two the target is active and [clearTarget] clears the buffers;
    [deactivateTarget] makes the target inactive but keeps the result valid,
    and [clearTarget] is then refused with a log message.  The update counter
    of the target goes up by one. *)
Theorem activate_clear_deactivate (fuel : nat) (s : State) (this : PortRef)
    (rp : RenderPort) (r : TargetRef) (rt : RenderTarget) (debugLabel : string) :
  static_cast_RenderPort s this = Some rp →
  Port_isOutport (base rp) = true →
  renderTarget_ rp = Some r →
  deref_target s r = Some rt →
  ∃ s1 s2 rt2,
    activateTarget this debugLabel s = Some (tt, s1)
    ∧ isActive s1 this = Some true
    ∧ clearTarget this s1
      = Some (tt, add_event (GlClear (Z.lor GL_COLOR_BUFFER_BIT GL_DEPTH_BUFFER_BIT)) s1)
    ∧ deactivateTarget this s1 = Some (tt, s2)
    ∧ isActive s2 this = Some false
    ∧ hasValidResult (S fuel) this s2 = Some (true, s2)
    ∧ clearTarget this s2
      = Some (tt, add_event
                    (Log LERROR [SStr "clearTarget() called on inactive outport"]) s2)
    ∧ deref_target s2 r = Some rt2
    ∧ rt_numUpdates rt2 = S (rt_numUpdates rt)
    ∧ rt_size rt2 = rt_size rt
    ∧ trace s2 = trace s.
Proof.
  intros Hp Ho Hr Ht.
  pose proof (static_cast_deref _ _ _ Hp) as Hd.
  set (lbl := procName rp +:+ ":" +:+ getName rp +:+ labelSuffix debugLabel).
  pose proof (activateTarget_run s this rp r rt debugLabel Hp Ho Hr Ht) as Hact.
  fold lbl in Hact. set (s1 := set_target r _ _) in Hact.
  set (rt1 := RenderTarget_increaseNumUpdates (RenderTarget_activateTarget lbl rt)).
  assert (Hp1 : static_cast_RenderPort s1 this = Some (set_validResult true rp)).
  { subst s1. rewrite static_cast_set_target. eapply static_cast_set_port_eq.
    by rewrite deref_set_target. }
  assert (Ht1 : deref_target s1 r = Some rt1).
  { subst s1. eapply deref_target_set_target_eq. rewrite deref_target_set_port.
    by eapply deref_target_set_target_eq. }
  set (rt2 := RenderTarget_deactivateTarget rt1).
  set (s2 := set_target r (Some rt2) s1).
  assert (Hp2 : static_cast_RenderPort s2 this = Some (set_validResult true rp)).
  { subst s2. by rewrite static_cast_set_target. }
  assert (Ht2 : deref_target s2 r = Some rt2).
  { subst s2. by eapply deref_target_set_target_eq. }
  exists s1, s2, rt2. split_and!.
  - exact Hact.
  - by rewrite (isActive_target s1 this _ r rt1 Hp1 Hr Ht1).
  - unfold clearTarget. rewrite (bind_query _ _ s1 _ Hp1).
    change (Port_isOutport (base (set_validResult true rp)))
      with (Port_isOutport (base rp)). rewrite Ho.
    change (negb true) with false. cbv iota.
    by rewrite (bind_query _ _ s1 true (isActive_target s1 this _ r rt1 Hp1 Hr Ht1)).
  - unfold deactivateTarget. rewrite (bind_query _ _ s1 _ Hp1).
    change (Port_isOutport (base (set_validResult true rp)))
      with (Port_isOutport (base rp)). rewrite Ho.
    change (renderTarget_ (set_validResult true rp)) with (renderTarget_ rp). rewrite Hr.
    unfold update_target. by rewrite Ht1.
  - by rewrite (isActive_target s2 this _ r rt2 Hp2 Hr Ht2).
  - rewrite (hasValidResult_outport fuel s2 this _ Hp2 Ho). simpl. rewrite Hr.
    by rewrite bool_decide_true.
  - unfold clearTarget. rewrite (bind_query _ _ s2 _ Hp2).
    change (Port_isOutport (base (set_validResult true rp)))
      with (Port_isOutport (base rp)). rewrite Ho.
    change (negb true) with false. cbv iota.
    by rewrite (bind_query _ _ s2 false (isActive_target s2 this _ r rt2 Hp2 Hr Ht2)).
  - exact Ht2.
  - reflexivity.
  - reflexivity.
  - reflexivity.
Qed.

Lemma activate_clear_deactivate_witness :
  ∃ s1 s2 rt2,
    activateTarget 0 "frame" (net_fanout null null) = Some (tt, s1)
    ∧ isActive s1 0 = Some true
    ∧ deactivateTarget 0 s1 = Some (tt, s2)
    ∧ isActive s2 0 = Some false
    ∧ hasValidResult 1 0 s2 = Some (true, s2)
    ∧ deref_target s2 0 = Some rt2
    ∧ rt_numUpdates rt2 = 1%nat.
Proof.
  destruct (activate_clear_deactivate 0 (net_fanout null null) 0 _ 0 blank_target "frame"
              eq_refl eq_refl eq_refl eq_refl)
    as (s1 & s2 & rt2 & H1 & H2 & _ & H3 & H4 & H5 & _ & H6 & H7 & _).
  exists s1, s2, rt2. by split_and!.
Defined.

Lemma hasValidResult_first_outport (fuel : nat) (s : State) (I O : PortRef)
    (rpI rpO : RenderPort) (rest : list PortRef) :
  static_cast_RenderPort s I = Some rpI →
  Port_isOutport (base rpI) = false →
  connectedPorts_ (base rpI) = O :: rest →
  static_cast_RenderPort s O = Some rpO →
  Port_isOutport (base rpO) = true →
  hasValidResult (S (S fuel)) I s
  = Some (bool_decide (renderTarget_ rpO ≠ None) && validResult_ rpO, s).
Proof.
  intros HI HdI Hcs HO HdO.
  rewrite <- (hasValidResult_outport fuel s O rpO HO HdO).
  change (hasValidResult (S (S fuel)) I s) with
    (bind (query (λ s, static_cast_RenderPort s I)) (λ rp,
       if Port_isOutport (base rp) then
         ret (bool_decide (renderTarget_ rp ≠ None) && validResult_ rp)
       else match connectedPorts_ (base rp) with
            | [] => ret false
            | first :: _ =>
                bind (query (λ s, deref s first)) (λ o,
                  match dynamic_cast_RenderPort o with
                  | Some _ => hasValidResult (S fuel) first
                  | None =>
                      bind (emit (Log LERROR
                              [SStr "RenderPort is connected to Non-RenderPort"]))
                           (λ _, ret false)
                  end)
            end) s).
  rewrite (bind_query _ _ s rpI HI). rewrite HdI, Hcs.
  by rewrite (bind_query _ _ s _ (static_cast_deref _ _ _ HO)).
Qed.

Lemma isReady_inport (fuel : nat) (s : State) (I : PortRef) (rpI : RenderPort)
    (v : bool) :
  static_cast_RenderPort s I = Some rpI →
  Port_isOutport (base rpI) = false →
  hasValidResult fuel I s = Some (v, s) →
  isReady fuel I s = Some (Port_isConnected (base rpI) && v, s).
Proof.
  intros HI HdI Hv. unfold isReady. rewrite (bind_query _ _ s rpI HI).
  unfold Port_isInport. rewrite HdI. change (negb false) with true. cbv iota.
  unfold bind at 1. rewrite Hv. rewrite bind_ret.
  unfold ret. by rewrite orb_false_r.
Qed.

(** X5.  Readiness follows the producer: an unconnected port is never ready; a
    connected outport is ready as soon as it has a render target, valid or
    not; an inport whose first connection is a render outport is ready exactly
    when that outport has a target and a valid result, so it becomes ready
    when the outport is activated and stops being ready when the outport's
    result is invalidated. *)
Theorem isReady_follows_producer (fuel : nat) (s : State) (I O : PortRef)
    (rpI rpO : RenderPort) (rest : list PortRef) :
  static_cast_RenderPort s I = Some rpI →
  Port_isOutport (base rpI) = false →
  connectedPorts_ (base rpI) = O :: rest →
  static_cast_RenderPort s O = Some rpO →
  Port_isOutport (base rpO) = true →
  isReady (S (S fuel)) I s
  = Some (bool_decide (renderTarget_ rpO ≠ None) && validResult_ rpO, s)
  ∧ isReady (S fuel) O s
    = Some (Port_isConnected (base rpO) && bool_decide (renderTarget_ rpO ≠ None), s)
  ∧ (∀ p rp, static_cast_RenderPort s p = Some rp → connectedPorts_ (base rp) = [] →
       isReady (S fuel) p s = Some (false, s))
  ∧ (∀ r rt debugLabel,
       renderTarget_ rpO = Some r → deref_target s r = Some rt →
       ∃ s1 s2,
         activateTarget O debugLabel s = Some (tt, s1)
         ∧ isReady (S (S fuel)) I s1 = Some (true, s1)
         ∧ invalidateResult O s1 = Some (tt, s2)
         ∧ isReady (S (S fuel)) I s2 = Some (false, s2)).
Proof.
  intros HI HdI Hcs HO HdO.
  assert (Hne : O ≠ I) by (intros ->; congruence).
  assert (Hready : ∀ st rpO',
            static_cast_RenderPort st I = Some rpI →
            static_cast_RenderPort st O = Some rpO' →
            Port_isOutport (base rpO') = true →
            isReady (S (S fuel)) I st
            = Some (bool_decide (renderTarget_ rpO' ≠ None) && validResult_ rpO', st)).
  { intros st rpO' HI' HO' HdO'.
    rewrite (isReady_inport _ st I rpI _ HI' HdI
               (hasValidResult_first_outport fuel st I O rpI rpO' rest HI' HdI Hcs HO' HdO')).
    unfold Port_isConnected. by rewrite Hcs. }
  split_and!.
  - by apply Hready.
  - unfold isReady. rewrite (bind_query _ _ s rpO HO).
    unfold Port_isInport. rewrite HdO. change (negb true) with false. cbv iota.
    rewrite bind_ret. erewrite bind_query; [reflexivity|].
    unfold hasRenderTarget, getRenderTarget. rewrite HO. simpl. by rewrite HdO.
  - intros p rp Hp Hnil. unfold isReady. rewrite (bind_query _ _ s rp Hp).
    unfold Port_isInport, Port_isConnected. rewrite Hnil.
    destruct (Port_isOutport (base rp)) eqn:Hdir.
    + change (negb true) with false. cbv iota. rewrite bind_ret.
      erewrite bind_query; [reflexivity|].
      unfold hasRenderTarget, getRenderTarget. rewrite Hp. simpl. by rewrite Hdir.
    + change (negb false) with true. cbv iota. unfold bind at 1.
      by rewrite (hasValidResult_unconnected fuel s p rp Hp Hdir Hnil).
  - intros r rt debugLabel Hr Ht.
    pose proof (static_cast_deref _ _ _ HO) as HdeO.
    rewrite (activateTarget_run s O rpO r rt debugLabel HO HdO Hr Ht).
    set (s1 := set_target r _ _).
    assert (HO1 : static_cast_RenderPort s1 O = Some (set_validResult true rpO)).
    { subst s1. rewrite static_cast_set_target. eapply static_cast_set_port_eq.
      by rewrite deref_set_target. }
    assert (HI1 : static_cast_RenderPort s1 I = Some rpI).
    { subst s1. rewrite static_cast_set_target.
      rewrite static_cast_set_port_ne by done. by rewrite static_cast_set_target. }
    set (s2 := set_port O (IsRenderPort (set_validResult false (set_validResult true rpO))) s1).
    assert (HO2 : static_cast_RenderPort s2 O
                  = Some (set_validResult false (set_validResult true rpO))).
    { subst s2. eapply static_cast_set_port_eq. by eapply static_cast_deref. }
    assert (HI2 : static_cast_RenderPort s2 I = Some rpI).
    { subst s2. by rewrite static_cast_set_port_ne. }
    exists s1, s2. split_and!.
    + reflexivity.
    + rewrite (Hready s1 _ HI1 HO1 HdO). simpl. rewrite Hr.
      by rewrite bool_decide_true.
    + unfold invalidateResult. rewrite (bind_query _ _ s1 _ HO1).
      change (Port_isOutport (base (set_validResult true rpO)))
        with (Port_isOutport (base rpO)). by rewrite HdO.
    + rewrite (Hready s2 _ HI2 HO2 HdO). simpl. by rewrite andb_false_r.
Qed.

Lemma isReady_follows_producer_witness :
  isReady 2 1 (net_fanout null null) = Some (false, net_fanout null null)
  ∧ isReady 1 0 (net_fanout null null) = Some (true, net_fanout null null).
Proof.
  destruct (isReady_follows_producer 0 (net_fanout null null) 1 0 _ _ []
              eq_refl eq_refl eq_refl eq_refl eq_refl) as (H1 & H2 & _).
  split; [exact H1|exact H2].
Defined.

Lemma getRenderTarget_loop_first_outport (s : State) (pre post : list PortRef)
    (O : PortRef) (rpO : RenderPort) :
  Forall (passed_over s) pre →
  static_cast_RenderPort s O = Some rpO →
  Port_isOutport (base rpO) = true →
  getRenderTarget_loop s (pre ++ O :: post) = Some (renderTarget_ rpO).
Proof.
  intros Hpre HO HdO. induction Hpre as [|c pre (o & Hc & Hskip) _ IH]; simpl.
  - rewrite (static_cast_deref _ _ _ HO). simpl. by rewrite HdO.
  - rewrite Hc. simpl. destruct Hskip as [-> | Hcast]; [exact IH|].
    rewrite Hcast. by destruct (negb _).
Qed.

(** X6.  An inport has no target of its own: its render target, size, colour
    and depth texture are those of the first connected port that is a render
    outport; connections before it that are not outports or not render ports
    are passed over. *)
Theorem inport_reads_through (s : State) (I O : PortRef) (rpI rpO : RenderPort)
    (pre post : list PortRef) :
  static_cast_RenderPort s I = Some rpI →
  Port_isOutport (base rpI) = false →
  connectedPorts_ (base rpI) = (pre ++ O :: post)%list →
  Forall (passed_over s) pre →
  static_cast_RenderPort s O = Some rpO →
  Port_isOutport (base rpO) = true →
  getRenderTarget s I = Some (renderTarget_ rpO)
  ∧ getRenderTarget s I = getRenderTarget s O
  ∧ hasRenderTarget s I = hasRenderTarget s O
  ∧ getSize s I = getSize s O
  ∧ getColorTexture s I = getColorTexture s O
  ∧ getDepthTexture s I = getDepthTexture s O.
Proof.
  intros HI HdI Hcs Hpre HO HdO.
  assert (HgO : getRenderTarget s O = Some (renderTarget_ rpO)).
  { unfold getRenderTarget. rewrite HO. simpl. by rewrite HdO. }
  assert (HgI : getRenderTarget s I = Some (renderTarget_ rpO)).
  { unfold getRenderTarget. rewrite HI. simpl. rewrite HdI, Hcs.
    by apply getRenderTarget_loop_first_outport. }
  split_and!.
  - exact HgI.
  - by rewrite HgI, HgO.
  - unfold hasRenderTarget. by rewrite HgI, HgO.
  - unfold getSize, hasRenderTarget. by rewrite HgI, HgO.
  - unfold getColorTexture, hasRenderTarget. by rewrite HgI, HgO.
  - unfold getDepthTexture, hasRenderTarget. by rewrite HgI, HgO.
Qed.

Lemma inport_reads_through_witness :
  getSize (net_fanout null null) 2 = getSize (net_fanout null null) 0
  ∧ getColorTexture (net_fanout null null) 2 = getColorTexture (net_fanout null null) 0.
Proof.
  destruct (inport_reads_through (net_fanout null null) 2 0 _ _ [] []
              eq_refl eq_refl eq_refl (Forall_nil_2 _) eq_refl eq_refl)
    as (_ & _ & _ & H1 & H2 & _).
  split; [exact H1|exact H2].
Defined.

(** ** Replacing and sharing a render target *)

Lemma changeFormat_tail (s0 : State) (this : PortRef) (rp : RenderPort) (o0 : PortObj)
    (sz : ivec2) (c d : GLenum) (fresh : RenderTarget) :
  deref s0 this = Some o0 →
  (do r' <- new_target fresh in
   store this (set_renderTarget (Some r') rp) >>
   update_target r' (RenderTarget_resize sz) >>
   Port_invalidate this >>
   do rp' <- query (λ s, static_cast_RenderPort s this) in
   store this (set_formats c d rp')) s0
  = Some (tt,
          set_port this
            (IsRenderPort (set_formats c d
                             (set_renderTarget (Some (length (targets s0))) rp)))
            (add_event (Invalidated this)
               (set_target (length (targets s0)) (Some (RenderTarget_resize sz fresh))
                  (set_port this
                     (IsRenderPort (set_renderTarget (Some (length (targets s0))) rp))
                     (add_target fresh s0))))).
Proof.
  intros Hd. rewrite bind_new_target, bind_store.
  erewrite bind_update_target
    by (rewrite deref_target_set_port; apply deref_target_add_target_new).
  unfold Port_invalidate. rewrite bind_emit.
  erewrite bind_query; [reflexivity|].
  rewrite static_cast_add_event, static_cast_set_target.
  eapply static_cast_set_port_eq. exact Hd.
Qed.

(** X7.  [changeFormat] on an outport replaces the render target: the old
    target, if any, is deleted, a new one is allocated in a fresh cell and
    given the size the port reported before, the two formats are recorded, and
    the invalidation is handed to [Port::invalidate].  The port reports the
    same size as before, and [changeFormat] itself does not write
    [validResult_]; other ports and other targets are left alone. *)
Theorem changeFormat_outport (s : State) (this : PortRef) (rp : RenderPort) (sz : ivec2)
    (c d : GLenum) (fresh : RenderTarget) :
  static_cast_RenderPort s this = Some rp →
  Port_isOutport (base rp) = true →
  getSize s this = Some sz →
  ∃ s',
    changeFormat this c d fresh s = Some (tt, s')
    ∧ static_cast_RenderPort s' this
      = Some (set_formats c d (set_renderTarget (Some (length (targets s))) rp))
    ∧ deref_target s' (length (targets s)) = Some (RenderTarget_resize sz fresh)
    ∧ getSize s' this = Some sz
    ∧ (∀ r, renderTarget_ rp = Some r → deref_target s' r = None)
    ∧ (∀ r, renderTarget_ rp ≠ Some r → (r < length (targets s))%nat →
         deref_target s' r = deref_target s r)
    ∧ (∀ q, q ≠ this → deref s' q = deref s q)
    ∧ trace s' = (trace s ++ [Invalidated this])%list.
Proof.
  intros Hp Ho Hsz.
  pose proof (static_cast_deref _ _ _ Hp) as Hd.
  set (s0 := match renderTarget_ rp with Some r => set_target r None s | None => s end).
  assert (Hlen : length (targets s0) = length (targets s)).
  { subst s0. destruct (renderTarget_ rp); [|done]. simpl. by rewrite length_insert. }
  assert (Hd0 : ∀ q, deref s0 q = deref s q).
  { intros q. subst s0. by destruct (renderTarget_ rp). }
  assert (Htr0 : trace s0 = trace s).
  { subst s0. by destruct (renderTarget_ rp). }
  assert (Hdel : ∀ r, renderTarget_ rp = Some r → deref_target s0 r = None).
  { intros r Hr. subst s0. rewrite Hr.
    rewrite (getSize_outport s this rp Hp Ho), Hr in Hsz.
    destruct (deref_target s r) as [rt|] eqn:Ht; [|done].
    by eapply deref_target_set_target_None. }
  assert (Hkeep : ∀ r, renderTarget_ rp ≠ Some r → deref_target s0 r = deref_target s r).
  { intros r Hr. subst s0. destruct (renderTarget_ rp) as [r0|]; [|done].
    apply deref_target_set_target_ne. congruence. }
  pose proof (changeFormat_tail s0 this rp _ sz c d fresh (eq_trans (Hd0 this) Hd)) as Htail.
  rewrite Hlen in Htail.
  set (r' := length (targets s)) in *.
  set (s' := set_port this _ _) in Htail.
  assert (Hrun : changeFormat this c d fresh s = Some (tt, s')).
  { unfold changeFormat. rewrite (bind_query _ _ s rp Hp). rewrite Ho.
    change (negb true) with false. cbv iota.
    rewrite (bind_query _ _ s sz Hsz).
    rewrite <- Htail. subst s0.
    destruct (renderTarget_ rp) as [r|] eqn:Hr; [|reflexivity].
    rewrite (getSize_outport s this rp Hp Ho), Hr in Hsz.
    destruct (deref_target s r) as [rt|] eqn:Ht; [|done].
    by rewrite (bind_delete_target r _ s rt Ht). }
  assert (Hp' : static_cast_RenderPort s' this
                = Some (set_formats c d (set_renderTarget (Some r') rp))).
  { subst s'. eapply static_cast_set_port_eq.
    rewrite deref_add_event, deref_set_target.
    eapply deref_set_port_eq. unfold deref, add_target. simpl.
    exact (eq_trans (Hd0 this) Hd). }
  assert (Hnew : deref_target s' r' = Some (RenderTarget_resize sz fresh)).
  { subst s'. rewrite deref_target_set_port, deref_target_add_event.
    eapply deref_target_set_target_eq. rewrite deref_target_set_port.
    subst r'. rewrite <- Hlen. apply deref_target_add_target_new. }
  assert (Hold : ∀ r, (r < r')%nat → deref_target s' r = deref_target s0 r).
  { intros r Hr. subst s'. rewrite deref_target_set_port, deref_target_add_event.
    rewrite deref_target_set_target_ne by lia. rewrite deref_target_set_port.
    apply deref_target_add_target_old. lia. }
  exists s'. split_and!.
  - exact Hrun.
  - exact Hp'.
  - exact Hnew.
  - rewrite (getSize_outport s' this _ Hp' Ho). simpl. rewrite Hnew. simpl.
    by rewrite rt_size_resize.
  - intros r Hr.
    rewrite (getSize_outport s this rp Hp Ho), Hr in Hsz.
    destruct (deref_target s r) as [rt|] eqn:Ht; [|done].
    rewrite Hold by (by eapply deref_target_lt). by apply Hdel.
  - intros r Hr Hlt. rewrite Hold by done. by apply Hkeep.
  - intros q Hq. subst s'. rewrite deref_set_port_ne by done.
    rewrite deref_add_event, deref_set_target. rewrite deref_set_port_ne by done.
    unfold deref, add_target. simpl. apply Hd0.
  - subst s'. simpl. by rewrite Htr0.
Qed.

Lemma changeFormat_outport_witness :
  ∃ s',
    changeFormat 0 GL_RGBA GL_DEPTH_COMPONENT24 blank_target (net_fanout null null)
    = Some (tt, s')
    ∧ getSize s' 0 = Some (128, 128)
    ∧ deref_target s' 0 = None
    ∧ getRenderTarget s' 1 = Some (Some 1%nat).
Proof.
  destruct (changeFormat_outport (net_fanout null null) 0 _ (128, 128)
              GL_RGBA GL_DEPTH_COMPONENT24 blank_target eq_refl eq_refl eq_refl)
    as (s' & Hrun & _ & _ & Hsz & Hdel & _).
  exists s'. split; [exact Hrun|]. split; [exact Hsz|]. split; [exact (Hdel 0%nat eq_refl)|].
  injection Hrun as <-. reflexivity.
Defined.

(** X8.  Two outports that share one render target: [resize] on one of them
    resizes the shared target and clears the caller's valid flag only.  The
    other port keeps its [size_] and its valid flag, while [getSize] on it
    reports the new size. *)
Theorem resize_shared_target (fuel : nat) (s : State) (a b : PortRef)
    (rpa rpb : RenderPort) (r : TargetRef) (rt : RenderTarget) (newsize : ivec2) :
  a ≠ b →
  static_cast_RenderPort s a = Some rpa →
  static_cast_RenderPort s b = Some rpb →
  Port_isOutport (base rpa) = true →
  Port_isOutport (base rpb) = true →
  renderTarget_ rpa = Some r →
  renderTarget_ rpb = Some r →
  deref_target s r = Some rt →
  size_ rpa ≠ newsize →
  newsize ≠ ivec2_zero →
  ∃ s',
    resize fuel a newsize s = Some (tt, s')
    ∧ static_cast_RenderPort s' a = Some (set_size newsize (set_validResult false rpa))
    ∧ static_cast_RenderPort s' b = Some rpb
    ∧ getSize s' a = Some newsize
    ∧ getSize s' b = Some newsize
    ∧ hasValidResult (S fuel) a s' = Some (false, s')
    ∧ hasValidResult (S fuel) b s' = Some (validResult_ rpb, s').
Proof.
  intros Hab Ha Hb Hoa Hob Hra Hrb Ht Hsize Hzero.
  set (s' := set_port a (IsRenderPort (set_size newsize (set_validResult false rpa)))
               (set_target r (Some (RenderTarget_resize newsize rt)) s)).
  assert (Ha' : static_cast_RenderPort s' a
                = Some (set_size newsize (set_validResult false rpa))).
  { subst s'. eapply static_cast_set_port_eq. rewrite deref_set_target.
    by eapply static_cast_deref. }
  assert (Hb' : static_cast_RenderPort s' b = Some rpb).
  { subst s'. rewrite static_cast_set_port_ne by done. by rewrite static_cast_set_target. }
  assert (Ht' : deref_target s' r = Some (RenderTarget_resize newsize rt)).
  { subst s'. rewrite deref_target_set_port. by eapply deref_target_set_target_eq. }
  exists s'. split_and!.
  - unfold resize. rewrite (bind_query _ _ s rpa Ha). rewrite Hoa.
    rewrite bool_decide_false by done. rewrite bool_decide_false by done.
    rewrite Hra. by rewrite (bind_update_target r _ _ s rt Ht).
  - exact Ha'.
  - exact Hb'.
  - rewrite (getSize_outport s' a _ Ha' Hoa). simpl. rewrite Hra, Ht'. simpl.
    by rewrite rt_size_resize.
  - rewrite (getSize_outport s' b _ Hb' Hob). rewrite Hrb, Ht'. simpl.
    by rewrite rt_size_resize.
  - rewrite (hasValidResult_outport fuel s' a _ Ha' Hoa). simpl.
    by rewrite andb_false_r.
  - rewrite (hasValidResult_outport fuel s' b _ Hb' Hob). rewrite Hrb.
    by rewrite bool_decide_true.
Qed.

Lemma resize_shared_target_witness :
  ∃ s',
    resize 0 0 (256, 256) net_shared = Some (tt, s')
    ∧ size_ <$> static_cast_RenderPort s' 1 = Some (128, 128)
    ∧ getSize s' 1 = Some (256, 256).
Proof.
  edestruct (resize_shared_target 0 net_shared 0%nat 1%nat) with
    (r := 0%nat) (rt := blank_target) (newsize := (256, 256))
    as (s' & Hrun & _ & Hb & _ & Hsz & _);
    [discriminate | reflexivity | reflexivity | reflexivity | reflexivity | reflexivity
    | reflexivity | reflexivity | discriminate | discriminate |].
  exists s'. split; [exact Hrun|]. split; [by rewrite Hb|exact Hsz].
Defined.

(** ** Size requests of an inport *)

Lemma resize_requests_run (newsize : ivec2) (connected : list PortRef) (pids : list N) :
  ∀ s,
    Forall2 (λ c pid, ∃ rp, static_cast_RenderPort s c = Some rp
                            ∧ proc_id (processor_ (base rp)) = pid) connected pids →
    forM_ connected (λ c,
      do peer <- query (λ s, static_cast_RenderPort s c) in
      emit (Proc_portResized (proc_id (processor_ (base peer))) c newsize)) s
    = Some (tt, mkState (ports s) (targets s)
                  (trace s ++ resize_requests pids connected newsize) (probes s)).
Proof.
  intros s H. revert s H.
  induction connected as [|c connected IH] in pids |- *; intros s H.
  - apply Forall2_nil_inv_l in H as ->. unfold resize_requests. simpl.
    rewrite app_nil_r. by destruct s.
  - apply Forall2_cons_inv_l in H as (pid & pids' & (rp & Hc & Hpid) & Hrest & ->).
    cbn [forM_]. rewrite bind_assoc. rewrite (bind_query _ _ s rp Hc).
    rewrite bind_emit. rewrite Hpid.
    rewrite (IH pids'); [|exact Hrest].
    unfold resize_requests. simpl. by rewrite <- app_assoc.
Qed.

(** X9.  [resize] on an inport always records the new size, also the size
    (0,0).  An inport without size origin does nothing more.  An inport with a
    size origin asks the owning processor of every connected port, in
    connection order, to handle [portResized] with the new size; it touches no
    other port and no render target. *)
Theorem resize_inport_requests (fuel : nat) (s : State) (this : PortRef)
    (rp : RenderPort) (pids : list N) (newsize : ivec2) :
  static_cast_RenderPort s this = Some rp →
  Port_isOutport (base rp) = false →
  Forall2 (λ c pid, ∃ peer, static_cast_RenderPort s c = Some peer
                            ∧ proc_id (processor_ (base peer)) = pid)
    (connectedPorts_ (base rp)) pids →
  resize (S fuel) this newsize s
  = Some (tt, mkState (<[this := IsRenderPort (set_size newsize rp)]> (ports s))
                (targets s)
                (trace s ++ if nonnull (sizeOrigin_ rp)
                            then resize_requests pids (connectedPorts_ (base rp)) newsize
                            else [])
                (probes s)).
Proof.
  intros Hp Hi Hpeers.
  pose proof (static_cast_deref _ _ _ Hp) as Hd.
  unfold resize. rewrite (bind_query _ _ s rp Hp). rewrite Hi. rewrite bind_store.
  set (s1 := set_port this (IsRenderPort (set_size newsize rp)) s).
  assert (Hp1 : static_cast_RenderPort s1 this = Some (set_size newsize rp)).
  { subst s1. by eapply static_cast_set_port_eq. }
  rewrite (bind_query _ _ s1 _ (getSizeOrigin_inport fuel s1 this _ Hp1 Hi)).
  change (sizeOrigin_ (set_size newsize rp)) with (sizeOrigin_ rp).
  destruct (nonnull (sizeOrigin_ rp)).
  - change (negb true) with false. cbv iota.
    rewrite (resize_requests_run newsize _ pids s1); [reflexivity|].
    eapply Forall2_impl; [exact Hpeers|].
    intros c pid (peer & Hc & Hpid). subst s1.
    destruct (decide (c = this)) as [->|Hne].
    + exists (set_size newsize rp). split; [done|]. simpl. congruence.
    + exists peer. by rewrite static_cast_set_port_ne.
  - change (negb false) with true. cbv iota. unfold ret. rewrite app_nil_r. reflexivity.
Qed.

Lemma resize_inport_requests_witness :
  trace <$> (snd <$> resize 1 0 (0, 0) (net_fanin_origin 7))
  = Some [Proc_portResized 2 1 (0, 0); Proc_portResized 3 2 (0, 0)].
Proof.
  rewrite (resize_inport_requests 0 (net_fanin_origin 7) 0%nat _ [2%N; 3%N] (0, 0)
             eq_refl eq_refl).
  - reflexivity.
  - repeat constructor; eexists; split; reflexivity.
Defined.

(** ** Propagation of a size origin, seen from the inport *)

Lemma target_alive_set_target (s : State) (r : TargetRef) (rt rt0 : RenderTarget)
    (rp : RenderPort) :
  deref_target s r = Some rt0 →
  target_alive s rp → target_alive (set_target r (Some rt) s) rp.
Proof.
  intros Hr. unfold target_alive. destruct (renderTarget_ rp) as [r'|]; [|done].
  destruct (decide (r = r')) as [<-|Hne].
  - intros _. by rewrite (deref_target_set_target_eq s r rt rt0 Hr).
  - by rewrite deref_target_set_target_ne.
Qed.

(** One round of the loop of [sizeOriginChanged] on a connected outport. *)
Lemma push_size_round (fuel : nat) (this c : PortRef) (so : voidptr) (me : RenderPort)
    (s : State) :
  nonnull so = true →
  size_ me ≠ ivec2_zero →
  static_cast_RenderPort s this = Some me →
  Port_isOutport (base me) = false →
  render_outport s c →
  ∃ s',
    (sizeOriginChanged (S fuel) c so >>
     if nonnull so then
       do me <- query (λ s, static_cast_RenderPort s this) in
       resize (S (S fuel)) c (size_ me)
     else ret tt) s = Some (tt, s')
    ∧ static_cast_RenderPort s' this = Some me
    ∧ pushed s' c (size_ me)
    ∧ (∀ q, pushed s q (size_ me) → pushed s' q (size_ me))
    ∧ (∀ q, render_outport s q → render_outport s' q).
Proof.
  intros Hso Hsz Hme Hin (rp & Hc & Hout & Halive).
  assert (Hne : c ≠ this) by (intros ->; congruence).
  pose proof (static_cast_deref _ _ _ Hc) as Hdc.
  set (sa := set_port c (IsRenderPort (set_validResult false rp))
               (add_event (Proc_sizeOriginChanged (proc_id (processor_ (base rp))) c)
                  (add_probe (Entered c so) s))).
  assert (Hca : static_cast_RenderPort sa c = Some (set_validResult false rp)).
  { subst sa. eapply static_cast_set_port_eq. by rewrite deref_add_event, deref_add_probe. }
  assert (Hma : static_cast_RenderPort sa this = Some me).
  { subst sa. rewrite static_cast_set_port_ne by done.
    by rewrite static_cast_add_event, static_cast_add_probe. }
  assert (Hstart : ∀ k : unit → M unit,
            bind (sizeOriginChanged (S fuel) c so) k s = k tt sa).
  { intros k. unfold bind at 1.
    by rewrite (sizeOriginChanged_outport fuel s c rp so Hc Hout). }
  rewrite Hstart, Hso. rewrite (bind_query _ _ sa me Hma).
  unfold resize. rewrite (bind_query _ _ sa _ Hca).
  change (Port_isOutport (base (set_validResult false rp))) with (Port_isOutport (base rp)).
  rewrite Hout.
  change (size_ (set_validResult false rp)) with (size_ rp).
  change (renderTarget_ (set_validResult false rp)) with (renderTarget_ rp).
  assert (Hpa : ∀ q, pushed s q (size_ me) → pushed sa q (size_ me)).
  { intros q (rq & Hq & Hoq & Hsq & Hvq). destruct (decide (q = c)) as [->|Hqc].
    - exists (set_validResult false rp). rewrite Hc in Hq. injection Hq as <-. by split_and!.
    - exists rq. split_and!; try done. subst sa. rewrite static_cast_set_port_ne by done.
      by rewrite static_cast_add_event, static_cast_add_probe. }
  assert (Hra : ∀ q, render_outport s q → render_outport sa q).
  { intros q (rq & Hq & Hoq & Haq). destruct (decide (q = c)) as [->|Hqc].
    - exists (set_validResult false rp). rewrite Hc in Hq. injection Hq as <-. by split_and!.
    - exists rq. split_and!; try done. subst sa. rewrite static_cast_set_port_ne by done.
      by rewrite static_cast_add_event, static_cast_add_probe. }
  case_bool_decide as Hsame.
  { exists sa. split_and!; try done. exists (set_validResult false rp). by split_and!. }
  rewrite bool_decide_false by done.
  set (fin := set_size (size_ me) (set_validResult false (set_validResult false rp))).
  assert (Hfin : ∀ s1, (∀ q, deref s1 q = deref sa q) →
            (∀ rq, target_alive sa rq → target_alive s1 rq) →
            let s' := set_port c (IsRenderPort fin) s1 in
            static_cast_RenderPort s' this = Some me
            ∧ pushed s' c (size_ me)
            ∧ (∀ q, pushed s q (size_ me) → pushed s' q (size_ me))
            ∧ (∀ q, render_outport s q → render_outport s' q)).
  { intros s1 Hd1 Ha1 s'.
    assert (Hc' : static_cast_RenderPort s' c = Some fin).
    { subst s'. eapply static_cast_set_port_eq. rewrite Hd1. by eapply static_cast_deref. }
    assert (Hother : ∀ q, q ≠ c → static_cast_RenderPort s' q = static_cast_RenderPort sa q).
    { intros q Hq. subst s'. rewrite static_cast_set_port_ne by done.
      unfold static_cast_RenderPort. by rewrite Hd1. }
    split_and!.
    - by rewrite Hother.
    - exists fin. by split_and!.
    - intros q Hq. destruct (decide (q = c)) as [->|Hqc].
      + exists fin. by split_and!.
      + destruct (Hpa q Hq) as (rq & Hq' & ?). exists rq. by rewrite Hother.
    - intros q Hq. destruct (Hra q Hq) as (rq & Hq' & Hoq & Haq).
      destruct (decide (q = c)) as [->|Hqc].
      + exists fin. split_and!; try done. rewrite Hca in Hq'. injection Hq' as <-.
        apply (Ha1 _) in Haq. exact Haq.
      + exists rq. rewrite Hother by done. split_and!; try done.
        apply (Ha1 _) in Haq. exact Haq. }
  destruct (renderTarget_ rp) as [r|] eqn:Hr.
  - unfold target_alive in Halive. rewrite Hr in Halive.
    destruct (deref_target s r) as [rt|] eqn:Ht; [|done].
    assert (Hta : deref_target sa r = Some rt).
    { subst sa. by rewrite deref_target_set_port, deref_target_add_event,
        deref_target_add_probe. }
    rewrite (bind_update_target r _ _ sa rt Hta). eexists. split; [reflexivity|].
    apply Hfin; [done|]. intros rq. by apply target_alive_set_target with (rt0 := rt).
  - rewrite bind_ret. eexists. split; [reflexivity|]. by apply Hfin.
Qed.

Lemma push_size_loop (fuel : nat) (this : PortRef) (so : voidptr) (me : RenderPort) :
  nonnull so = true →
  size_ me ≠ ivec2_zero →
  Port_isOutport (base me) = false →
  ∀ (connected : list PortRef) (s : State),
    static_cast_RenderPort s this = Some me →
    Forall (render_outport s) connected →
    ∃ s',
      forM_ connected (λ c,
        sizeOriginChanged (S fuel) c so >>
        if nonnull so then
          do me <- query (λ s, static_cast_RenderPort s this) in
          resize (S (S fuel)) c (size_ me)
        else ret tt) s = Some (tt, s')
      ∧ static_cast_RenderPort s' this = Some me
      ∧ Forall (λ c, pushed s' c (size_ me)) connected
      ∧ (∀ q, pushed s q (size_ me) → pushed s' q (size_ me))
      ∧ (∀ q, render_outport s q → render_outport s' q).
Proof.
  intros Hso Hsz Hin connected.
  induction connected as [|c connected IH]; intros s Hme Hall.
  - exists s. by split_and!.
  - apply Forall_cons in Hall as [Hc Hrest].
    destruct (push_size_round fuel this c so me s Hso Hsz Hme Hin Hc)
      as (s1 & Hstep & Hme1 & Hpc & Hkeep & Hro).
    destruct (IH s1 Hme1) as (s' & Hloop & Hme' & Hpushed & Hkeep' & Hro').
    { eapply Forall_impl; [exact Hrest|]. exact Hro. }
    exists s'. split_and!.
    + cbn [forM_]. unfold bind at 1. rewrite Hstep. exact Hloop.
    + exact Hme'.
    + constructor; [by apply Hkeep'|exact Hpushed].
    + intros q Hq. by apply Hkeep', Hkeep.
    + intros q Hq. by apply Hro', Hro.
Qed.

(** X10.  An inport that adopts a new, non-null size origin records it and
    pushes its own size to every connected render outport: each of them ends
    with the inport's [size_] and without valid result. *)
Theorem sizeOriginChanged_pushes_size (fuel : nat) (s : State) (this : PortRef)
    (me : RenderPort) (so : voidptr) :
  static_cast_RenderPort s this = Some me →
  Port_isOutport (base me) = false →
  sizeOrigin_ me ≠ so →
  nonnull so = true →
  size_ me ≠ ivec2_zero →
  Forall (render_outport s) (connectedPorts_ (base me)) →
  ∃ s',
    sizeOriginChanged (S (S fuel)) this so s = Some (tt, s')
    ∧ static_cast_RenderPort s' this = Some (set_sizeOrigin so me)
    ∧ Forall (λ c, pushed s' c (size_ me)) (connectedPorts_ (base me)).
Proof.
  intros Hme Hin Hnew Hso Hsz Hpeers.
  pose proof (static_cast_deref _ _ _ Hme) as Hd.
  set (s1 := add_probe (Adopted this so)
               (set_port this (IsRenderPort (set_sizeOrigin so me))
                  (add_probe (Entered this so) s))).
  assert (Hme1 : static_cast_RenderPort s1 this = Some (set_sizeOrigin so me)).
  { subst s1. rewrite static_cast_add_probe. eapply static_cast_set_port_eq.
    by rewrite deref_add_probe. }
  assert (Hpeers1 : Forall (render_outport s1) (connectedPorts_ (base me))).
  { eapply Forall_impl; [exact Hpeers|]. intros q (rq & Hq & Hoq & Haq).
    exists rq. split_and!; try done. subst s1. rewrite static_cast_add_probe.
    rewrite static_cast_set_port_ne by (intros <-; congruence).
    by rewrite static_cast_add_probe. }
  destruct (push_size_loop fuel this so (set_sizeOrigin so me) Hso Hsz Hin
              (connectedPorts_ (base me)) s1 Hme1 Hpeers1)
    as (s' & Hloop & Hme' & Hpushed & _).
  exists s'. split_and!; try done.
  rewrite sizeOriginChanged_unfold.
  unfold bind at 1, probe at 1.
  rewrite (bind_query _ _ (add_probe (Entered this so) s) me
             (eq_trans (static_cast_add_probe s _ this) Hme)).
  rewrite Hin. destruct (N.eqb_spec (sizeOrigin_ me) so) as [?|_]; [done|].
  rewrite bind_store. unfold bind at 1, probe at 1. exact Hloop.
Qed.

Lemma sizeOriginChanged_pushes_size_witness :
  ∃ s',
    sizeOriginChanged 2 0 7 (set_port 0 (IsRenderPort (mkRenderPort
         (mkPort "image.in" INPORT true [1; 2]%nat (sample_processor 1 "Compositor" true))
         None false (256, 256) null GL_RGBA16 GL_DEPTH_COMPONENT24 false)) net_fanin)
    = Some (tt, s')
    ∧ size_ <$> static_cast_RenderPort s' 1 = Some (256, 256)
    ∧ getSize s' 2 = Some (256, 256).
Proof.
  edestruct (sizeOriginChanged_pushes_size 0 (set_port 0 (IsRenderPort (mkRenderPort
         (mkPort "image.in" INPORT true [1; 2]%nat (sample_processor 1 "Compositor" true))
         None false (256, 256) null GL_RGBA16 GL_DEPTH_COMPONENT24 false)) net_fanin)
         0%nat _ 7%N eq_refl eq_refl) as (s' & Hrun & _ & _).
  - discriminate.
  - reflexivity.
  - discriminate.
  - apply Forall_cons_2; [|apply Forall_cons_2; [|apply Forall_nil_2]];
      (eexists; split; [reflexivity|split; [reflexivity|vm_compute; discriminate]]).
  - exists s'. split; [exact Hrun|]. injection Hrun as <-. split; reflexivity.
Defined.

(** X11.  A size origin settles: after [sizeOriginChanged(so)] on a render
    inport of a well-formed graph the inport holds [so], the connection lists
    and target pointers of all ports and the set of live targets are as
    before, and a second announcement of the same origin returns at once,
    without touching a port or notifying a processor. *)
Theorem sizeOriginChanged_settles (fuel fuel' : nat) (s : State) (this : PortRef)
    (rp : RenderPort) (so : voidptr) :
  wf s →
  static_cast_RenderPort s this = Some rp →
  Port_isOutport (base rp) = false →
  (pending so s < fuel)%nat →
  ∃ s' rp',
    sizeOriginChanged fuel this so s = Some (tt, s')
    ∧ static_cast_RenderPort s' this = Some rp'
    ∧ base rp' = base rp
    ∧ sizeOrigin_ rp' = so
    ∧ frames s' = frames s
    ∧ alive s' = alive s
    ∧ sizeOriginChanged (S fuel') this so s' = Some (tt, add_probe (Entered this so) s').
Proof.
  intros Hwf Hp Hin Hfuel.
  assert (Hthis : is_render s this).
  { apply is_render_static_cast. by rewrite Hp. }
  destruct (sizeOriginChanged_account fuel s this so Hwf Hthis Hfuel)
    as (s' & new & Hrun & (Hf & Ha & _) & Hroot).
  pose proof (views_static_cast s this rp Hp) as Hv.
  assert (Hfr : frames s' !! this = Some (base rp, Some (renderTarget_ rp))).
  { rewrite Hf. unfold frames. rewrite list_lookup_fmap, Hv. reflexivity. }
  unfold frames in Hfr. rewrite list_lookup_fmap in Hfr.
  destruct (views s' !! this) as [[b [x|]]|] eqn:Hv'; try done.
  destruct (views_is_render s' this b x Hv') as (rp' & Hp' & Hb & Hr & Hs).
  unfold frame_of in Hfr. simpl in Hfr. injection Hfr as Hb' Hr'. subst b.
  assert (Hso : sizeOrigin_ rp' = so).
  { rewrite (pending_at_static_cast so s' this rp' Hp') in Hroot.
    unfold pend in Hroot. simpl in Hroot. rewrite Hb, Hin in Hroot.
    by destruct (N.eqb_spec (sizeOrigin_ rp') so). }
  exists s', rp'. split_and!; try done.
  rewrite sizeOriginChanged_unfold. unfold bind at 1, probe at 1.
  rewrite (bind_query _ _ (add_probe (Entered this so) s') rp'
             (eq_trans (static_cast_add_probe s' _ this) Hp')).
  rewrite Hb, Hin, Hso. by rewrite N.eqb_refl.
Qed.

Lemma sizeOriginChanged_settles_witness :
  ∃ s',
    sizeOriginChanged 3 0 7 net_inport_pair = Some (tt, s')
    ∧ sizeOriginChanged 1 0 7 s' = Some (tt, add_probe (Entered 0%nat 7) s').
Proof.
  destruct (sizeOriginChanged_settles 3 0 net_inport_pair 0 _ 7
              (wfb_sound net_inport_pair eq_refl) eq_refl eq_refl)
    as (s' & rp' & Hrun & _ & _ & _ & _ & _ & Hagain); [vm_compute; lia|].
  exists s'. split; [exact Hrun|exact Hagain].
Defined.

(** ** Removing a connection *)

(** X12.  [disconnect] called on an outport removes each port from the
    other's connection list and hands the removed inport to
    [Port::invalidate].  The outport's processor is told that the size origin
    changed exactly when the origin derived from the remaining connections
    differs from the origin of the removed inport; neither port's valid flag,
    size or target is written. *)
Theorem disconnect_notification (fuel : nat) (s : State) (O I : PortRef)
    (rpO rpI : RenderPort) (remaining : list voidptr) :
  static_cast_RenderPort s O = Some rpO →
  Port_isOutport (base rpO) = true →
  static_cast_RenderPort s I = Some rpI →
  Port_isOutport (base rpI) = false →
  Forall2 (inport_with_origin s) (filter (λ c, c ≠ I) (connectedPorts_ (base rpO)))
    remaining →
  ∃ s',
    disconnect (S (S fuel)) O I s = Some (tt, s')
    ∧ static_cast_RenderPort s' O = Some (set_base (erase I (base rpO)) rpO)
    ∧ static_cast_RenderPort s' I = Some (set_base (erase O (base rpI)) rpI)
    ∧ (∀ q, q ≠ O → q ≠ I → deref s' q = deref s q)
    ∧ targets s' = targets s
    ∧ trace s'
      = (trace s
         ++ (if bool_decide (first_nonnull remaining = sizeOrigin_ rpI) then []
             else [Proc_sizeOriginChanged (proc_id (processor_ (base rpO))) O])
         ++ [Invalidated I])%list.
Proof.
  intros HO HdO HI HdI Hrem.
  assert (HOI : O ≠ I) by (intros ->; congruence).
  set (sa := set_port O (IsRenderPort (set_base (erase I (base rpO)) rpO)) s).
  set (sb := set_port I (IsRenderPort (set_base (erase O (base rpI)) rpI)) sa).
  assert (HIa : static_cast_RenderPort sa I = Some rpI).
  { subst sa. by rewrite static_cast_set_port_ne. }
  assert (HIb : static_cast_RenderPort sb I = Some (set_base (erase O (base rpI)) rpI)).
  { subst sb. eapply static_cast_set_port_eq. by eapply static_cast_deref. }
  assert (HOb : static_cast_RenderPort sb O = Some (set_base (erase I (base rpO)) rpO)).
  { subst sb. rewrite static_cast_set_port_ne by done.
    subst sa. eapply static_cast_set_port_eq. by eapply static_cast_deref. }
  assert (Hdisc : Port_disconnect O I s = Some (tt, sb)).
  { unfold Port_disconnect, bind.
    rewrite (update_base_render s O rpO _ HO). fold sa.
    by rewrite (update_base_render sa I rpI _ HIa). }
  assert (Hrem_b : Forall2 (inport_with_origin sb)
            (connectedPorts_ (base (set_base (erase I (base rpO)) rpO))) remaining).
  { simpl.
    assert (Hin : Forall (λ c, c ≠ I)
                    (filter (λ c, c ≠ I) (connectedPorts_ (base rpO)))).
    { apply list.Forall_forall. intros c Hc. by apply list_elem_of_filter in Hc as [? _]. }
    revert Hin Hrem.
    generalize (filter (λ c, c ≠ I) (connectedPorts_ (base rpO))) as l.
    intros l Hl Hrem. induction Hrem as [|c so l origins Hc _ IH].
    - constructor.
    - apply Forall_cons in Hl as [HcI Hl]. constructor; [|by apply IH].
      subst sb sa. apply inport_with_origin_set_port_ne; [done|].
      apply inport_with_origin_set_port_ne; [|done].
      intros <-. destruct Hc as (rc & Hrc & Hdir & _). congruence. }
  pose proof (getSizeOrigin_over_inports fuel sb O _ remaining HOb HdO Hrem_b) as HgO.
  pose proof (getSizeOrigin_inport (S fuel) sb I _ HIb HdI) as HgI.
  change (sizeOrigin_ (set_base (erase O (base rpI)) rpI)) with (sizeOrigin_ rpI) in HgI.
  set (note := if bool_decide (first_nonnull remaining = sizeOrigin_ rpI) then []
               else [Proc_sizeOriginChanged (proc_id (processor_ (base rpO))) O]).
  exists (mkState (ports sb) (targets sb) (trace sb ++ note ++ [Invalidated I])
            (probes sb)).
  split_and!.
  - unfold disconnect. unfold bind at 1. rewrite Hdisc.
    rewrite (bind_query _ _ sb _ HOb).
    change (Port_isOutport (base (set_base (erase I (base rpO)) rpO)))
      with (Port_isOutport (base rpO)). rewrite HdO.
    rewrite (bind_query _ _ sb _ HgO). rewrite (bind_query _ _ sb _ HgI).
    change (proc_id (processor_ (base (set_base (erase I (base rpO)) rpO))))
      with (proc_id (processor_ (base rpO))).
    subst note. unfold Port_invalidate.
    case_bool_decide as Heq.
    + rewrite Heq, N.eqb_refl. change (negb true) with false. cbv iota.
      rewrite bind_ret. unfold emit, add_event. reflexivity.
    + destruct (N.eqb_spec (first_nonnull remaining) (sizeOrigin_ rpI)) as [?|_]; [done|].
      change (negb false) with true. cbv iota. rewrite bind_emit.
      unfold emit, add_event. simpl. by rewrite <- app_assoc.
  - exact HOb.
  - exact HIb.
  - intros q Hq1 Hq2. change (deref sb q = deref s q).
    subst sb. rewrite deref_set_port_ne by done. subst sa. by rewrite deref_set_port_ne.
  - reflexivity.
  - reflexivity.
Qed.

Lemma disconnect_notification_witness :
  trace <$> (snd <$> disconnect 2 0 2 (net_fanout 7 null))
  = Some [Proc_sizeOriginChanged 1 0%nat; Invalidated 2%nat]
  ∧ trace <$> (snd <$> disconnect 2 0 2 (net_fanout 7 7)) = Some [Invalidated 2%nat].
Proof.
  split.
  - destruct (disconnect_notification 0 (net_fanout 7 null) 0 2 _ _ [7%N]
                eq_refl eq_refl eq_refl eq_refl) as (s' & Hrun & _ & _ & _ & _ & Htr).
    + repeat constructor. eexists. by split_and!.
    + rewrite Hrun. simpl. by rewrite Htr.
  - destruct (disconnect_notification 0 (net_fanout 7 7) 0 2 _ _ [7%N]
                eq_refl eq_refl eq_refl eq_refl) as (s' & Hrun & _ & _ & _ & _ & Htr).
    + repeat constructor. eexists. by split_and!.
    + rewrite Hrun. simpl. by rewrite Htr.
Defined.

(** ** The 2x2 grid of [QuadView] *)

Lemma distribute_switch_quadrant (x y : Z) (viewport : ivec2) (event : MouseEvent) :
  distribute_switch (quadrant x y viewport) event
  = [DistributeEvent (quadrant x y viewport) event].
Proof. unfold quadrant. by repeat case_match. Qed.

Lemma local_coordinate_bounds (c half : Z) :
  0 ≤ c < 2 * half → 0 ≤ local_coordinate c half < half.
Proof. unfold local_coordinate. intros H. destruct (Z.ltb_spec c half); lia. Qed.

Lemma rem_local_coordinate (c half : Z) :
  0 ≤ c < 2 * half → Z.rem c half = local_coordinate c half.
Proof.
  intros H. unfold local_coordinate. destruct (Z.ltb_spec c half) as [Hlt|Hge].
  - apply Z.rem_small. lia.
  - rewrite Z.rem_mod_nonneg by lia. symmetry.
    apply (Z.mod_unique_pos c half 1). all: lia.
Qed.

(** The three operations on [int] are defined exactly where C++ defines
    them. *)
Lemma int_sub_spec (a b : Z) :
  INT_MIN ≤ a ≤ INT_MAX → INT_MIN ≤ b ≤ INT_MAX →
  int_sub a b = if decide (INT_MIN ≤ a - b ≤ INT_MAX) then Some (a - b) else None.
Proof.
  unfold int_sub, INT_MIN, INT_MAX. intros Ha Hb.
  destruct (Z.ltb_spec 0 b), (Z.ltb_spec a (-2147483648 + b)), (Z.ltb_spec b 0),
    (Z.ltb_spec (2147483647 + b) a); simpl; case_decide; try done; lia.
Qed.

Lemma int_mul_spec (a b : Z) :
  int_mul a b = if decide (INT_MIN ≤ a * b ≤ INT_MAX) then Some (a * b) else None.
Proof.
  unfold int_mul.
  destruct (Z.leb_spec INT_MIN (a * b)), (Z.leb_spec (a * b) INT_MAX);
    simpl; case_decide; try done; lia.
Qed.

Lemma int_rem_spec (a b : Z) :
  int_rem a b = if decide (b = 0 ∨ a = INT_MIN ∧ b = -1) then None else Some (Z.rem a b).
Proof.
  unfold int_rem.
  destruct (Z.eqb_spec b 0), (Z.eqb_spec a INT_MIN), (Z.eqb_spec b (-1));
    simpl; case_decide; try done; try tauto; lia.
Qed.

Lemma int_sub_ge (a b : Z) : 0 ≤ b ≤ a → int_sub a b = Some (a - b).
Proof.
  intros H. unfold int_sub, INT_MIN, INT_MAX.
  destruct (Z.ltb_spec 0 b), (Z.ltb_spec a (-2147483648 + b)), (Z.ltb_spec b 0);
    simpl; try done; lia.
Qed.

Lemma int_rem_defined (a b : Z) :
  b ≠ 0 → ¬ (a = INT_MIN ∧ b = -1) → int_rem a b = Some (Z.rem a b).
Proof.
  intros Hb Hmin. unfold int_rem.
  destruct (Z.eqb_spec b 0) as [?|_]; [done|].
  destruct (Z.eqb_spec a INT_MIN) as [?|_], (Z.eqb_spec b (-1)) as [?|_]; simpl; try done.
  by destruct Hmin.
Qed.

Lemma int_rem_pos (a b : Z) : 0 < b → int_rem a b = Some (Z.rem a b).
Proof. intros Hb. apply int_rem_defined; lia. Qed.

(** Where the arithmetic of the grid mode is undefined: a difference that
    leaves the range of [int] in [onEvent], and in [mouseMove] a remainder by
    zero (a viewport narrower than two pixels) or of [INT_MIN] by -1. *)
Lemma QuadView_onEvent_overflow :
  QuadView_onEvent (λ _ e, e) (mkQuadView 0 true (-1) false 0 1 2 3 4)
    (Some (MouseEvent_ctor 0 2147483647 1 0 0 (800, -2))) false false = None
  ∧ QuadView_onEvent (λ _ e, e) (mkQuadView 0 true (-1) false 0 1 2 3 4)
      (Some (MouseEvent_ctor 2147483647 0 1 0 0 (-2, 600))) false false = None.
Proof. split; reflexivity. Qed.

Lemma QuadView_mouseMove_undefined :
  QuadView_mouseMove 1 2 4 8 16 (λ _ e, e) (mkQuadView 0 true (-1) false 0 1 2 3 4)
    (MouseEvent_ctor (-2147483648) 100 1 0 0 (-2, 600)) = None
  ∧ QuadView_mouseMove 1 2 4 8 16 (λ _ e, e) (mkQuadView 0 true (-1) false 0 1 2 3 4)
      (MouseEvent_ctor 100 (-2147483648) 1 0 0 (800, -2)) = None
  ∧ QuadView_mouseMove 1 2 4 8 16 (λ _ e, e) (mkQuadView 0 true (-1) false 0 1 2 3 4)
      (MouseEvent_ctor 0 0 1 0 0 (1, 600)) = None
  ∧ QuadView_mouseMove 1 2 4 8 16 (λ _ e, e) (mkQuadView 0 true (-1) false 0 1 2 3 4)
      (MouseEvent_ctor 0 0 1 0 0 (800, 1)) = None.
Proof. split_and!; reflexivity. Qed.

Section QuadViewProperties.

Variables MOTION PRESSED RELEASED ENTER EXIT : Z.
Variable distributeEvent : Z → MouseEvent → MouseEvent.

(** X13.  In grid mode the event handlers agree on the sub-view under the
    mouse: for a position inside the four sub-views, [onEvent] forwards a copy
    of the event to the inport of that quadrant, [mouseMove] (nothing being
    dragged) makes the same inport the current one and sends it the motion
    event last, and both copies carry the same coordinates, relative to the
    sub-view and inside it, and the halved viewport. *)
Theorem QuadView_routes_to_quadrant (q : QuadView) (me : MouseEvent) :
  maximized_ q = 0 →
  isDragging_ q = false →
  Z.land (ev_action me) PRESSED ≠ PRESSED →
  0 ≤ ev_x me < 2 * Z.quot (ev_viewport me).1 2 →
  0 ≤ ev_y me < 2 * Z.quot (ev_viewport me).2 2 →
  let k := quadrant (ev_x me) (ev_y me) (ev_viewport me) in
  let lx := local_coordinate (ev_x me) (Z.quot (ev_viewport me).1 2) in
  let ly := local_coordinate (ev_y me) (Z.quot (ev_viewport me).2 2) in
  let half := ivec2_half (ev_viewport me) in
  snd <$> QuadView_onEvent distributeEvent q (Some me) false false
  = Some [ToInport k (ignore (MouseEvent_ctor lx ly (ev_action me) (ev_modifiers me)
                                (ev_button me) half))]
  ∧ (∃ q' crossing,
       QuadView_mouseMove MOTION PRESSED RELEASED ENTER EXIT distributeEvent q me
       = Some (q', accept me,
               (crossing
                ++ [DistributeEvent k
                      (ignore (MouseEvent_ctor lx ly MOTION (ev_modifiers me)
                                 (ev_button me) half))])%list)
       ∧ currentPort_ q' = k
       ∧ isDragging_ q' = false)
  ∧ 0 ≤ lx < half.1
  ∧ 0 ≤ ly < half.2.
Proof.
  intros Hmax Hdrag Hpress Hx Hy k lx ly half.
  split; [|split; [|split]].
  - unfold QuadView_onEvent. rewrite Hmax. cbn [orb andb Z.eqb].
    subst k lx ly half. unfold quadrant, local_coordinate, onEvent_forward.
    destruct (Z.ltb_spec (ev_y me) (Z.quot (ev_viewport me).2 2)),
             (Z.ltb_spec (ev_x me) (Z.quot (ev_viewport me).1 2));
      rewrite ?int_sub_ge by lia; reflexivity.
  - unfold QuadView_mouseMove. rewrite Hmax. cbn [Z.eqb].
    change (ev_action (accept me)) with (ev_action me).
    change (ev_viewport (accept me)) with (ev_viewport me).
    change (ev_x (accept me)) with (ev_x me).
    change (ev_y (accept me)) with (ev_y me).
    change (ev_modifiers (accept me)) with (ev_modifiers me).
    change (ev_button (accept me)) with (ev_button me).
    rewrite !int_rem_pos by lia. cbn [mbind option_bind].
    rewrite (rem_local_coordinate _ _ Hx), (rem_local_coordinate _ _ Hy).
    destruct (Z.eqb_spec (Z.land (ev_action me) PRESSED) PRESSED) as [?|_]; [done|].
    set (q1 := if Z.eqb (Z.land (ev_action me) EXIT) EXIT then set_currentPort (-1) q else q).
    set (q3 := if Z.eqb (Z.land (ev_action me) RELEASED) RELEASED
               then set_isDragging false q1 else q1).
    assert (Hd3 : isDragging_ q3 = false).
    { subst q3 q1. by repeat case_match. }
    rewrite Hd3. cbn [negb].
    set (q4 := if Z.ltb (ev_y me) _ then _ else _).
    assert (Hq4 : currentPort_ q4 = k ∧ isDragging_ q4 = false).
    { subst q4 k. unfold quadrant. by repeat case_match. }
    destruct Hq4 as [Hk Hd4]. rewrite Hk.
    subst k. rewrite !distribute_switch_quadrant.
    eexists q4, _. split_and!; [reflexivity|done|done].
  - by apply local_coordinate_bounds.
  - by apply local_coordinate_bounds.
Qed.

End QuadViewProperties.

Lemma QuadView_routes_to_quadrant_witness :
  snd <$> QuadView_onEvent (λ _ e, e) (mkQuadView 0 true (-1) false 0 1 2 3 4)
            (Some (MouseEvent_ctor 500 100 1 0 0 (801, 600))) false false
  = Some [ToInport 2 (ignore (MouseEvent_ctor 100 100 1 0 0 (400, 300)))].
Proof.
  refine (proj1 (QuadView_routes_to_quadrant 1 2 4 8 16 (λ _ e, e)
                   (mkQuadView 0 true (-1) false 0 1 2 3 4)
                   (MouseEvent_ctor 500 100 1 0 0 (801, 600)) eq_refl eq_refl _ _ _)).
  - discriminate.
  - vm_compute. split; [discriminate|reflexivity].
  - vm_compute. split; [discriminate|reflexivity].
Defined.

Section QuadViewEdges.

Variables MOTION PRESSED RELEASED ENTER EXIT : Z.
Variable distributeEvent : Z → MouseEvent → MouseEvent.

(** X14.  On a viewport of odd width [2 h + 1] the rightmost pixel column
    [x = 2 h] belongs to the right sub-views: [onEvent] forwards it with the
    local coordinate [h], one past the columns [0 .. h - 1] of a sub-view of
    width [h], while [mouseMove] sends the local coordinate [0]. *)
Theorem QuadView_odd_width_edge (q : QuadView) (me : MouseEvent) (h : Z) :
  maximized_ q = 0 →
  isDragging_ q = false →
  Z.land (ev_action me) PRESSED ≠ PRESSED →
  0 < h →
  (ev_viewport me).1 = 2 * h + 1 →
  ev_x me = 2 * h →
  0 ≤ ev_y me < 2 * Z.quot (ev_viewport me).2 2 →
  (∃ k ev, snd <$> QuadView_onEvent distributeEvent q (Some me) false false
           = Some [ToInport k ev]
           ∧ ev_x ev = h ∧ (ev_viewport ev).1 = h ∧ (k = 2 ∨ k = 4))
  ∧ (∃ q' e' crossing k ev,
       QuadView_mouseMove MOTION PRESSED RELEASED ENTER EXIT distributeEvent q me
       = Some (q', e', (crossing ++ [DistributeEvent k ev])%list)
       ∧ ev_x ev = 0 ∧ (ev_viewport ev).1 = h ∧ (k = 2 ∨ k = 4)).
Proof.
  intros Hmax Hdrag Hpress Hh Hvx Hx Hy.
  assert (Hhalf : Z.quot (ev_viewport me).1 2 = h).
  { rewrite Hvx. symmetry. apply Z.quot_unique with (r := 1); lia. }
  assert (Hlt : Z.ltb (ev_x me) (Z.quot (ev_viewport me).1 2) = false).
  { apply Z.ltb_ge. lia. }
  split.
  - unfold QuadView_onEvent. rewrite Hmax. cbn [orb andb Z.eqb]. rewrite Hlt.
    rewrite (int_sub_ge (ev_x me)) by lia.
    destruct (Z.ltb_spec (ev_y me) (Z.quot (ev_viewport me).2 2));
      rewrite ?int_sub_ge by lia; unfold onEvent_forward; simpl;
      eexists _, _; (split; [reflexivity|]); simpl; rewrite Hhalf;
      (split_and!; [lia|done|auto]).
  - unfold QuadView_mouseMove. rewrite Hmax. cbn [Z.eqb].
    change (ev_action (accept me)) with (ev_action me).
    change (ev_viewport (accept me)) with (ev_viewport me).
    change (ev_x (accept me)) with (ev_x me).
    change (ev_y (accept me)) with (ev_y me).
    rewrite !int_rem_pos by lia. cbn [mbind option_bind].
    rewrite Hlt, Hhalf.
    destruct (Z.eqb_spec (Z.land (ev_action me) PRESSED) PRESSED) as [?|_]; [done|].
    set (q1 := if Z.eqb (Z.land (ev_action me) EXIT) EXIT then set_currentPort (-1) q else q).
    set (q3 := if Z.eqb (Z.land (ev_action me) RELEASED) RELEASED
               then set_isDragging false q1 else q1).
    assert (Hd3 : isDragging_ q3 = false).
    { subst q3 q1. by repeat case_match. }
    rewrite Hd3. cbn [negb].
    assert (Hrem : Z.rem (ev_x me) h = 0).
    { rewrite Hx. apply Z.rem_mul. lia. }
    rewrite Hrem.
    destruct (Z.ltb (ev_y me) _).
    + change (currentPort_ (set_currentPort 2 q3)) with 2.
      eexists _, _, _, 2, _. split; [reflexivity|]. simpl. auto.
    + change (currentPort_ (set_currentPort 4 q3)) with 4.
      eexists _, _, _, 4, _. split; [reflexivity|]. simpl. auto.
Qed.

End QuadViewEdges.

Lemma QuadView_odd_width_edge_witness :
  ∃ k ev,
    snd <$> QuadView_onEvent (λ _ e, e) (mkQuadView 0 true (-1) false 0 1 2 3 4)
              (Some (MouseEvent_ctor 800 100 1 0 0 (801, 600))) false false
    = Some [ToInport k ev]
    ∧ ev_x ev = 400 ∧ (ev_viewport ev).1 = 400 ∧ (k = 2 ∨ k = 4).
Proof.
  refine (proj1 (QuadView_odd_width_edge 1 2 4 8 16 (λ _ e, e)
                   (mkQuadView 0 true (-1) false 0 1 2 3 4)
                   (MouseEvent_ctor 800 100 1 0 0 (801, 600)) 400
                   eq_refl eq_refl _ eq_refl eq_refl eq_refl _)).
  - discriminate.
  - vm_compute. split; [discriminate|reflexivity].
Defined.

(** X15.  Maximisation is a toggle.  With [maximizeOnDoubleClick_] set, a
    double click in grid mode maximises the sub-view under the mouse, accepts
    the event and requests the full received size for that inport alone; a
    second double click, wherever it lands, restores the grid, and the four
    inports are asked for half the received size.  The state after the two
    clicks is the state before. *)
Theorem QuadView_toggle_round_trip (q : QuadView) (me me' : MouseEvent)
    (size received : ivec2) :
  maximizeOnDoubleClick_ q = true →
  maximized_ q = 0 →
  size ≠ ivec2_zero →
  let k := quadrant (ev_x me) (ev_y me) (ev_viewport me) in
  QuadView_toggleMaximization q me size received
  = (set_maximized k q, accept me, [RequestSize k received])
  ∧ 1 ≤ k ≤ 4
  ∧ QuadView_toggleMaximization (set_maximized k q) me' size received
    = (q, accept me',
       [RequestSize 1 (ivec2_half received); RequestSize 2 (ivec2_half received);
        RequestSize 3 (ivec2_half received); RequestSize 4 (ivec2_half received)]).
Proof.
  intros Hdc Hmax Hsize k.
  assert (Hk : 1 ≤ k ≤ 4).
  { subst k. unfold quadrant. repeat case_match; lia. }
  assert (Hq : set_maximized 0 (set_maximized k q) = q).
  { destruct q. simpl in *. by subst. }
  split; [|split; [exact Hk|]].
  - unfold QuadView_toggleMaximization. rewrite Hdc, Hmax. cbn [Z.eqb].
    subst k. unfold quadrant, QuadView_updateSizes.
    rewrite bool_decide_false by done.
    by destruct (Z.ltb (ev_y me) _), (Z.ltb (ev_x me) _).
  - unfold QuadView_toggleMaximization.
    change (maximizeOnDoubleClick_ (set_maximized k q)) with (maximizeOnDoubleClick_ q).
    change (maximized_ (set_maximized k q)) with k.
    rewrite Hdc. destruct (Z.eqb_spec k 0) as [?|_]; [lia|].
    rewrite Hq. unfold QuadView_updateSizes.
    rewrite bool_decide_false by done. by rewrite Hmax.
Qed.

Lemma QuadView_toggle_round_trip_witness :
  QuadView_toggleMaximization (sample_quadview 0) (MouseEvent_ctor 500 400 0 0 0 (800, 600))
    (800, 600) (800, 600)
  = (sample_quadview 4, MouseEvent_ctor 500 400 0 0 0 (800, 600),
     [RequestSize 4 (800, 600)]).
Proof.
  refine (proj1 (QuadView_toggle_round_trip (sample_quadview 0)
                   (MouseEvent_ctor 500 400 0 0 0 (800, 600))
                   (MouseEvent_ctor 0 0 0 0 0 (800, 600)) (800, 600) (800, 600)
                   eq_refl eq_refl _)).
  discriminate.
Defined.

Section QuadViewDragging.

Variables MOTION PRESSED RELEASED ENTER EXIT : Z.
Variable distributeEvent : Z → MouseEvent → MouseEvent.

(** X16.  A drag is captured by the sub-view it started in.  In grid mode,
    while a button is held (the event does not carry RELEASED or EXIT), and
    where the two remainders are defined (neither half of the viewport is 0,
    and no coordinate is [INT_MIN] while its half is -1), [mouseMove] keeps the
    current port wherever the mouse is, sends neither a leave nor an enter
    event, and hands the motion event, with coordinates taken modulo the size
    of a sub-view, to the current port alone. *)
Theorem QuadView_drag_is_captured (q : QuadView) (me : MouseEvent) :
  maximized_ q = 0 →
  isDragging_ q = true ∨ Z.land (ev_action me) PRESSED = PRESSED →
  Z.land (ev_action me) RELEASED ≠ RELEASED →
  Z.land (ev_action me) EXIT ≠ EXIT →
  Z.quot (ev_viewport me).1 2 ≠ 0 →
  Z.quot (ev_viewport me).2 2 ≠ 0 →
  ¬ (ev_x me = INT_MIN ∧ Z.quot (ev_viewport me).1 2 = -1) →
  ¬ (ev_y me = INT_MIN ∧ Z.quot (ev_viewport me).2 2 = -1) →
  QuadView_mouseMove MOTION PRESSED RELEASED ENTER EXIT distributeEvent q me
  = Some (set_isDragging true q, accept me,
          distribute_switch (currentPort_ q)
            (ignore (MouseEvent_ctor
                       (Z.rem (ev_x me) (Z.quot (ev_viewport me).1 2))
                       (Z.rem (ev_y me) (Z.quot (ev_viewport me).2 2))
                       MOTION (ev_modifiers me) (ev_button me)
                       (ivec2_half (ev_viewport me))))).
Proof.
  intros Hmax Hdrag Hrel Hexit Hvx Hvy Hminx Hminy.
  unfold QuadView_mouseMove. rewrite Hmax. cbn [Z.eqb].
  change (ev_action (accept me)) with (ev_action me).
  change (ev_viewport (accept me)) with (ev_viewport me).
  change (ev_x (accept me)) with (ev_x me).
  change (ev_y (accept me)) with (ev_y me).
  change (ev_modifiers (accept me)) with (ev_modifiers me).
  change (ev_button (accept me)) with (ev_button me).
  destruct (Z.eqb_spec (Z.land (ev_action me) EXIT) EXIT) as [?|_]; [done|].
  destruct (Z.eqb_spec (Z.land (ev_action me) RELEASED) RELEASED) as [?|_]; [done|].
  rewrite !int_rem_defined by done. cbn [mbind option_bind].
  assert (Hq2 : (if Z.eqb (Z.land (ev_action me) PRESSED) PRESSED
                 then set_isDragging true q else q) = set_isDragging true q).
  { destruct (Z.eqb_spec (Z.land (ev_action me) PRESSED) PRESSED) as [_|Hn]; [done|].
    destruct Hdrag as [Hd|?]; [|done]. destruct q. simpl in *. by subst. }
  rewrite Hq2.
  change (isDragging_ (set_isDragging true q)) with true. cbn [negb].
  change (currentPort_ (set_isDragging true q)) with (currentPort_ q).
  by rewrite Z.eqb_refl.
Qed.

End QuadViewDragging.

Lemma QuadView_drag_is_captured_witness :
  QuadView_mouseMove 1 2 4 8 16 (λ _ e, e)
    (mkQuadView 0 true 1 true 0 1 2 3 4) (MouseEvent_ctor 700 500 1 0 0 (800, 600))
  = Some (mkQuadView 0 true 1 true 0 1 2 3 4, MouseEvent_ctor 700 500 1 0 0 (800, 600),
          [DistributeEvent 1 (ignore (MouseEvent_ctor 300 200 1 0 0 (400, 300)))]).
Proof.
  refine (QuadView_drag_is_captured 1 2 4 8 16 (λ _ e, e)
            (mkQuadView 0 true 1 true 0 1 2 3 4) (MouseEvent_ctor 700 500 1 0 0 (800, 600))
            eq_refl (or_introl eq_refl) _ _ _ _ _ _);
    vm_compute; try discriminate; intros [? _]; discriminate.
Defined.

(** ** Readiness of [QuadView] *)

(** X17.  [QuadView::isReady], when asking a port does not change the state:
    the outport must be ready and at least one inport; in maximised mode the
    inport that is shown must be ready as well, in grid mode any one inport is
    enough. *)
Theorem QuadView_isReady_rule (fuel : nat) (q : QuadView) (s : State)
    (out r1 r2 r3 r4 : bool) :
  isReady fuel (outport_ q) s = Some (out, s) →
  isReady fuel (inport1_ q) s = Some (r1, s) →
  isReady fuel (inport2_ q) s = Some (r2, s) →
  isReady fuel (inport3_ q) s = Some (r3, s) →
  isReady fuel (inport4_ q) s = Some (r4, s) →
  QuadView_isReady fuel q s
  = Some (out && (r1 || r2 || r3 || r4)
          && (if Z.eqb (maximized_ q) 1 then r1
              else if Z.eqb (maximized_ q) 2 then r2
              else if Z.eqb (maximized_ q) 3 then r3
              else if Z.eqb (maximized_ q) 4 then r4
              else true), s).
Proof.
  intros Hout H1 H2 H3 H4. unfold QuadView_isReady.
  unfold bind at 1. rewrite Hout. destruct out; [|reflexivity]. cbn [negb andb].
  unfold bind at 1. rewrite H1. unfold bind at 1.
  destruct r1.
  - cbn [orb]. unfold ret at 1.
    repeat (case_match; try done).
  - unfold bind at 1. rewrite H2. destruct r2.
    + unfold ret at 1. cbn [orb]. repeat (case_match; try done).
    + unfold bind at 1. rewrite H3. destruct r3.
      * unfold ret at 1. cbn [orb]. repeat (case_match; try done).
      * unfold bind at 1. rewrite H4. unfold ret at 1. destruct r4.
        -- cbn [orb negb]. repeat (case_match; try done).
        -- reflexivity.
Qed.

Lemma QuadView_isReady_rule_witness :
  QuadView_isReady 2 (sample_quadview 0) (net_quadview true)
  = Some (true, net_quadview true)
  ∧ QuadView_isReady 2 (sample_quadview 2) (net_quadview true)
    = Some (false, net_quadview true).
Proof.
  split.
  - exact (QuadView_isReady_rule 2 (sample_quadview 0) (net_quadview true)
             true true false false false eq_refl eq_refl eq_refl eq_refl eq_refl).
  - exact (QuadView_isReady_rule 2 (sample_quadview 2) (net_quadview true)
             true true false false false eq_refl eq_refl eq_refl eq_refl eq_refl).
Defined.

(** ** Reading back: how many pixels, and when *)

Lemma convert_loop_mapM {A B : Type} (f : A → option B) (pixels : list A) (n : nat) :
  ∀ i : nat, (i + n ≤ length pixels)%nat →
    convert_loop f pixels i n = mapM f (take n (drop i pixels)).
Proof.
  induction n as [|n IH]; intros i Hlen; simpl.
  - reflexivity.
  - destruct (pixels !! i) as [x|] eqn:Hx.
    + rewrite (drop_S pixels x i Hx). simpl. destruct (f x) as [y|]; [|done]. simpl.
      by rewrite IH by lia.
    + apply lookup_ge_None in Hx. lia.
Qed.

Lemma ushort_pixel_in_range (c : Vector4 Z) : col4_in_range (ushort_pixel c).
Proof.
  unfold col4_in_range, ushort_pixel, map4, to_uint8. simpl.
  split_and!; apply Z.mod_pos_bound; lia.
Qed.

Lemma int_mul_in_range (a b : Z) :
  INT_MIN ≤ a * b ≤ INT_MAX → int_mul a b = Some (a * b).
Proof.
  intros [Hlo Hhi]. unfold int_mul.
  destruct (Z.leb_spec INT_MIN (a * b)); [|lia].
  destruct (Z.leb_spec (a * b) INT_MAX); [done|lia].
Qed.

Lemma int_mul_overflow (a b : Z) :
  a * b < INT_MIN ∨ INT_MAX < a * b → int_mul a b = None.
Proof.
  intros H. unfold int_mul.
  destruct (Z.leb_spec INT_MIN (a * b)), (Z.leb_spec (a * b) INT_MAX); simpl; try done.
  lia.
Qed.

Section ReadColorBufferBounds.

Variable tgt_clamp : spec_float → spec_float → spec_float → spec_float.
Variable fmul : spec_float → spec_float → spec_float.
Variable float_to_uint8 : spec_float → option Z.

(** X18.  The conversion loops of [readColorBuffer] run over [size.x *
    size.y] pixels, [size] being the size of the render target and the product
    a product of [int].  If the product is not negative and the downloaded
    buffer holds at least that many pixels, exactly the first [size.x *
    size.y] of them are converted, one after the other (a float pixel whose
    conversion is undefined makes the whole read undefined), and every channel
    of a converted 16-bit pixel is a byte; if the buffer is shorter, the loop
    reads past its end.  If the product is negative, [new tgt::col4[]] fails
    and the function throws "bad allocation"; if it does not fit an [int], the
    multiplication overflows. *)
Theorem readColorBuffer_reads_size_pixels (s : State) (this : PortRef) (t : Texture)
    (size : ivec2) :
  getColorTexture s this = Some (Some t) →
  getSize s this = Some size →
  tex_format t = GL_RGBA →
  let count := size.1 * size.2 in
  let n := Z.to_nat count in
  (∀ px, tex_dataType t = GL_UNSIGNED_SHORT → tex_pixels t = BufUShort px →
     (0 ≤ count ≤ INT_MAX → (n ≤ length px)%nat →
        readColorBuffer tgt_clamp fmul float_to_uint8 true true s this
        = Some (Returned (ushort_pixel <$> take n px))
        ∧ length (ushort_pixel <$> take n px) = n
        ∧ Forall col4_in_range (ushort_pixel <$> take n px))
     ∧ (0 ≤ count ≤ INT_MAX → (length px < n)%nat →
          readColorBuffer tgt_clamp fmul float_to_uint8 true true s this = None)
     ∧ (INT_MIN ≤ count < 0 →
          readColorBuffer tgt_clamp fmul float_to_uint8 true true s this
          = Some (Thrown "RenderPort::readColorBuffer(): bad allocation"))
     ∧ (count < INT_MIN ∨ INT_MAX < count →
          readColorBuffer tgt_clamp fmul float_to_uint8 true true s this = None))
  ∧ (∀ px, tex_dataType t = GL_FLOAT → tex_pixels t = BufFloat px →
       (0 ≤ count ≤ INT_MAX → (n ≤ length px)%nat →
          readColorBuffer tgt_clamp fmul float_to_uint8 true true s this
          = Returned <$> mapM (float_pixel tgt_clamp fmul float_to_uint8) (take n px)
          ∧ ∀ out, mapM (float_pixel tgt_clamp fmul float_to_uint8) (take n px) = Some out →
                   length out = n)
       ∧ (0 ≤ count ≤ INT_MAX → (length px < n)%nat →
            readColorBuffer tgt_clamp fmul float_to_uint8 true true s this = None)
       ∧ (INT_MIN ≤ count < 0 →
            readColorBuffer tgt_clamp fmul float_to_uint8 true true s this
            = Some (Thrown "RenderPort::readColorBuffer(): bad allocation"))
       ∧ (count < INT_MIN ∨ INT_MAX < count →
            readColorBuffer tgt_clamp fmul float_to_uint8 true true s this = None)).
Proof.
  intros Htex Hsize Hfmt count n.
  assert (Hnew : ∀ c, 0 ≤ c → new_col4 true c = true).
  { intros c Hc. unfold new_col4. by destruct (Z.ltb_spec c 0); [lia|]. }
  assert (Hneg : ∀ c, c < 0 → new_col4 true c = false).
  { intros c Hc. unfold new_col4. by destruct (Z.ltb_spec c 0); [|lia]. }
  split.
  - intros px Hty Hpx. split_and!.
    + intros Hc Hlen. split_and!.
      * unfold readColorBuffer. rewrite Htex. simpl.
        rewrite Hfmt, Hsize, Hty, Hpx. simpl.
        rewrite int_mul_in_range by (unfold INT_MIN; lia). simpl.
        rewrite Hnew by lia. simpl. fold count n.
        by rewrite convert_loop_pure by lia.
      * rewrite length_fmap, length_take. lia.
      * apply Forall_fmap. apply list.Forall_forall. intros c _.
        apply ushort_pixel_in_range.
    + intros Hc Hlen. unfold readColorBuffer. rewrite Htex. simpl.
      rewrite Hfmt, Hsize, Hty, Hpx. simpl.
      rewrite int_mul_in_range by (unfold INT_MIN; lia). simpl.
      rewrite Hnew by lia. simpl. fold count n.
      by rewrite convert_loop_short by (simpl; lia).
    + intros Hc. unfold readColorBuffer. rewrite Htex. simpl.
      rewrite Hfmt, Hsize, Hty. simpl.
      rewrite int_mul_in_range by (unfold INT_MAX; lia). simpl.
      by rewrite Hneg by lia.
    + intros Hc. unfold readColorBuffer. rewrite Htex. simpl.
      rewrite Hfmt, Hsize, Hty. simpl. by rewrite int_mul_overflow.
  - intros px Hty Hpx.
    assert (Hnot : Z.eqb (tex_dataType t) GL_UNSIGNED_BYTE = false
                   ∧ Z.eqb (tex_dataType t) GL_UNSIGNED_SHORT = false
                   ∧ Z.eqb (tex_dataType t) GL_FLOAT = true).
    { by rewrite Hty. }
    destruct Hnot as (Hn1 & Hn2 & Hn3).
    split_and!.
    + intros Hc Hlen. split.
      * unfold readColorBuffer. rewrite Htex. simpl.
        rewrite Hfmt, Hsize, Hn1, Hn2, Hn3, Hpx. simpl.
        rewrite int_mul_in_range by (unfold INT_MIN; lia). simpl.
        rewrite Hnew by lia. simpl. fold count n.
        rewrite convert_loop_mapM by lia. rewrite drop_0.
        by destruct (mapM _ _).
      * intros out Hout. apply length_mapM in Hout. rewrite <- Hout, length_take. lia.
    + intros Hc Hlen. unfold readColorBuffer. rewrite Htex. simpl.
      rewrite Hfmt, Hsize, Hn1, Hn2, Hn3, Hpx. simpl.
      rewrite int_mul_in_range by (unfold INT_MIN; lia). simpl.
      rewrite Hnew by lia. simpl. fold count n.
      by rewrite convert_loop_short by (simpl; lia).
    + intros Hc. unfold readColorBuffer. rewrite Htex. simpl.
      rewrite Hfmt, Hsize, Hn1, Hn2, Hn3. simpl.
      rewrite int_mul_in_range by (unfold INT_MAX; lia). simpl.
      by rewrite Hneg by lia.
    + intros Hc. unfold readColorBuffer. rewrite Htex. simpl.
      rewrite Hfmt, Hsize, Hn1, Hn2, Hn3. simpl. by rewrite int_mul_overflow.
Qed.

(** X19.  [readColorBuffer] hands out pixels only for a port that has a
    colour texture of format GL_RGBA and of data type GL_UNSIGNED_BYTE,
    GL_UNSIGNED_SHORT or GL_FLOAT, and only if the download buffer could be
    allocated; the two converting paths also need the output buffer.  In every
    other case in which it comes back, it throws. *)
Theorem readColorBuffer_returns_only_if (download_ok new_ok : bool) (s : State)
    (this : PortRef) (out : list (Vector4 Z)) :
  readColorBuffer tgt_clamp fmul float_to_uint8 download_ok new_ok s this
  = Some (Returned out) →
  ∃ t, getColorTexture s this = Some (Some t)
       ∧ tex_format t = GL_RGBA
       ∧ download_ok = true
       ∧ (tex_dataType t = GL_UNSIGNED_BYTE ∧ tex_pixels t = BufUByte out
          ∨ (tex_dataType t = GL_UNSIGNED_SHORT ∨ tex_dataType t = GL_FLOAT)
            ∧ new_ok = true).
Proof.
  unfold readColorBuffer. intros H.
  destruct (getColorTexture s this) as [[t|]|] eqn:Htex; simpl in H; try done.
  exists t. split; [done|].
  destruct (Z.eqb_spec (tex_format t) GL_RGBA) as [Hfmt|]; simpl in H; [|done].
  destruct download_ok; simpl in H; [|done].
  destruct (getSize s this) as [size|]; simpl in H; [|done].
  split; [done|]. split; [done|].
  destruct (Z.eqb_spec (tex_dataType t) GL_UNSIGNED_BYTE) as [Hub|_].
  { left. split; [done|]. destruct (tex_pixels t); try done. by injection H as ->. }
  destruct (Z.eqb_spec (tex_dataType t) GL_UNSIGNED_SHORT) as [Hus|_].
  { right. split; [by left|].
    destruct (int_mul size.1 size.2) as [count|]; simpl in H; [|done].
    destruct new_ok; [done|]. unfold new_col4 in H. by rewrite andb_false_r in H. }
  destruct (Z.eqb_spec (tex_dataType t) GL_FLOAT) as [Hf|_]; [|done].
  right. split; [by right|].
  destruct (int_mul size.1 size.2) as [count|]; simpl in H; [|done].
  destruct new_ok; [done|]. unfold new_col4 in H. by rewrite andb_false_r in H.
Qed.

End ReadColorBufferBounds.

Lemma readColorBuffer_reads_size_pixels_witness :
  readColorBuffer tgt_clamp_float float_mul float_to_uint8_t true true
    (net_readback ushort_texture) 0
  = Some (Returned (ushort_pixel <$> take 2 [vec4 0xFFFF 0x8000 0x0100 0x00FF;
                                            vec4 0x1234 0 0xABCD 0xFFFF]))
  ∧ readColorBuffer tgt_clamp_float float_mul float_to_uint8_t true true
      (net_readback_sized (-1, 1) ushort_texture) 0
    = Some (Thrown "RenderPort::readColorBuffer(): bad allocation")
  ∧ readColorBuffer tgt_clamp_float float_mul float_to_uint8_t true true
      (net_readback_sized (-1, 1) float_texture) 0
    = Some (Thrown "RenderPort::readColorBuffer(): bad allocation").
Proof.
  split_and!.
  - refine (proj1 (proj1 (proj1 (readColorBuffer_reads_size_pixels
              tgt_clamp_float float_mul float_to_uint8_t
              (net_readback ushort_texture) 0 ushort_texture (2, 1)
              eq_refl eq_refl eq_refl)
              _ eq_refl eq_refl) _ _)).
    + vm_compute. split; discriminate.
    + vm_compute. lia.
  - refine (proj1 (proj2 (proj2 (proj1 (readColorBuffer_reads_size_pixels
              tgt_clamp_float float_mul float_to_uint8_t
              (net_readback_sized (-1, 1) ushort_texture) 0 ushort_texture (-1, 1)
              eq_refl eq_refl eq_refl)
              _ eq_refl eq_refl))) _).
    vm_compute. split; [discriminate|reflexivity].
  - refine (proj1 (proj2 (proj2 (proj2 (readColorBuffer_reads_size_pixels
              tgt_clamp_float float_mul float_to_uint8_t
              (net_readback_sized (-1, 1) float_texture) 0 float_texture (-1, 1)
              eq_refl eq_refl eq_refl)
              _ eq_refl eq_refl))) _).
    vm_compute. split; [discriminate|reflexivity].
Defined.

Lemma readColorBuffer_returns_only_if_witness :
  ∃ t, getColorTexture (net_readback ushort_texture) 0 = Some (Some t)
       ∧ tex_format t = GL_RGBA.
Proof.
  destruct (readColorBuffer_returns_only_if tgt_clamp_float float_mul float_to_uint8_t
              true true (net_readback ushort_texture) 0 _ eq_refl) as (t & Ht & Hf & _).
  exists t. split; [exact Ht|exact Hf].
Defined.

(** ** Attaching the targets of a port group *)

Lemma getColorTexture_ptr_color (s : State) (p : PortRef) (tex : TextureRef) :
  getColorTexture_ptr s p = Some (Some tex) → ∃ t, tex = ColorTextureOf t.
Proof.
  unfold getColorTexture_ptr. intros H.
  destruct (hasRenderTarget s p) as [[]|]; simpl in H; try done.
  destruct (getRenderTarget s p) as [[t|]|]; simpl in H; try done.
  destruct (deref_target s t) as [rt|]; simpl in H; try done.
  destruct (rt_colorTex rt); [|done]. injection H as <-. by exists t.
Qed.

Lemma getDepthTexture_ptr_depth (s : State) (p : PortRef) (tex : TextureRef) :
  getDepthTexture_ptr s p = Some (Some tex) → ∃ t, tex = DepthTextureOf t.
Proof.
  unfold getDepthTexture_ptr. intros H.
  destruct (hasRenderTarget s p) as [[]|]; simpl in H; try done.
  destruct (getRenderTarget s p) as [[t|]|]; simpl in H; try done.
  destruct (deref_target s t) as [rt|]; simpl in H; try done.
  destruct (rt_depthTex rt); [|done]. injection H as <-. by exists t.
Qed.

Lemma attach_justified_shift (g : PortGroup) (s : State) (p : PortRef)
    (rest : list PortRef) (i : nat) (c : FboCall) :
  attach_justified g s rest (S i) c → attach_justified g s (p :: rest) i c.
Proof.
  destruct c as [| | |[t|t] att|]; simpl; try done.
  - intros (j & q & Hq & -> & Ha & Ht). exists (S j), q. split_and!; try done.
    f_equal. lia.
  - intros (j & q & Hq & -> & Ha & Ht). by exists (S j), q.
Qed.

Lemma reattachTargets_loop_structure (g : PortGroup) (s : State) (rest : list PortRef) :
  Forall (attachable g s) rest →
  ∀ (i : nat) (hasDepth_ : bool),
    ∃ calls,
      reattachTargets_loop g s rest i hasDepth_
      = Some (calls, hasDepth_ || existsb is_depth_attach calls)
      ∧ (length (filter (λ c, is_depth_attach c = true) calls)
         ≤ if hasDepth_ then 0 else 1)%nat
      ∧ Forall (attach_justified g s rest i) calls.
Proof.
  induction 1 as [|p rest (a & Ha & Htex) _ IH]; intros i d.
  - exists []. simpl. rewrite orb_false_r. split_and!; [done|destruct d; simpl; lia|done].
  - simpl. rewrite Ha. simpl. destruct a.
    + destruct (Htex eq_refl) as [[color Hc] [depth Hd]].
      change (negb true) with false. cbv iota. rewrite Hc. simpl.
      set (attachColor := match color with
                          | Some tex =>
                              [Fbo_attachTexture tex (GL_COLOR_ATTACHMENT0_EXT + Z.of_nat i)]
                          | None => []
                          end).
      assert (HattC : Forall (attach_justified g s (p :: rest) i) attachColor
                      ∧ existsb is_depth_attach attachColor = false
                      ∧ filter (λ c, is_depth_attach c = true) attachColor = []).
      { subst attachColor. destruct color as [tex|]; [|done].
        destruct (getColorTexture_ptr_color s p tex Hc) as [t ->].
        split_and!; [|done|done]. constructor; [|done]. simpl.
        exists 0%nat, p. split_and!; try done. unfold attachment. f_equal. lia. }
      destruct HattC as (HjC & HeC & HfC).
      destruct d.
      * simpl. destruct (IH (S i) true) as (calls & Hloop & Hcount & Hjust).
        rewrite Hloop. simpl. exists (attachColor ++ calls)%list. split_and!.
        -- done.
        -- rewrite filter_app, HfC. exact Hcount.
        -- apply Forall_app. split; [exact HjC|].
           eapply Forall_impl; [exact Hjust|]. intros c. apply attach_justified_shift.
      * rewrite Hd. simpl. destruct depth as [tex|].
        -- destruct (getDepthTexture_ptr_depth s p tex Hd) as [t ->].
           destruct (IH (S i) true) as (calls & Hloop & Hcount & Hjust).
           rewrite Hloop. simpl.
           exists (attachColor
                   ++ [Fbo_attachTexture (DepthTextureOf t) GL_DEPTH_ATTACHMENT_EXT]
                   ++ calls)%list.
           split_and!.
           ++ f_equal. f_equal. rewrite existsb_app, HeC. simpl. reflexivity.
           ++ rewrite filter_app, HfC. simpl. lia.
           ++ apply Forall_app. split; [exact HjC|]. constructor.
              ** simpl. by exists 0%nat, p.
              ** eapply Forall_impl; [exact Hjust|]. intros c.
                 apply attach_justified_shift.
        -- destruct (IH (S i) false) as (calls & Hloop & Hcount & Hjust).
           rewrite Hloop. simpl. exists (attachColor ++ calls)%list. split_and!.
           ++ f_equal. f_equal. rewrite existsb_app, HeC. reflexivity.
           ++ rewrite filter_app, HfC. exact Hcount.
           ++ apply Forall_app. split; [exact HjC|].
              eapply Forall_impl; [exact Hjust|]. intros c. apply attach_justified_shift.
    + change (negb false) with true. cbv iota.
      destruct (IH (S i) d) as (calls & Hloop & Hcount & Hjust).
      exists calls. split_and!; try done.
      eapply Forall_impl; [exact Hjust|]. intros c. apply attach_justified_shift.
Qed.

(** X20.  [reattachTargets] on an initialised group activates the framebuffer
    object, detaches everything, and then attaches textures of participating
    ports only: a colour texture always to the slot of its port's position in
    the group, and at most one depth texture, to the depth slot.  The
    completeness check is made last, and only if a depth texture was
    attached. *)
Theorem reattachTargets_structure (g : PortGroup) (s : State) (fbo : N) :
  fbo_ g = Some fbo →
  Forall (attachable g s) (ports_ g) →
  ∃ body,
    reattachTargets g s
    = Some ([Fbo_activate; Fbo_detachAll] ++ body
            ++ (if existsb is_depth_attach body then [Fbo_isComplete] else []))%list
    ∧ (length (filter (λ c, is_depth_attach c = true) body) ≤ 1)%nat
    ∧ Forall (attach_justified g s (ports_ g) 0) body.
Proof.
  intros Hfbo Hports. unfold reattachTargets. rewrite Hfbo.
  destruct (reattachTargets_loop_structure g s (ports_ g) Hports 0 false)
    as (calls & Hloop & Hcount & Hjust).
  destruct (ports_ g) as [|p rest] eqn:Hp.
  - exists []. split_and!; [done|simpl; lia|done].
  - rewrite Hloop. simpl. exists calls. split_and!; [done|exact Hcount|exact Hjust].
Qed.

Lemma reattachTargets_structure_witness :
  ∃ body,
    reattachTargets (mkPortGroup [0; 1; 2]%nat (Some 1%N) false) net_group
    = Some ([Fbo_activate; Fbo_detachAll] ++ body
            ++ (if existsb is_depth_attach body then [Fbo_isComplete] else []))%list
    ∧ body = [Fbo_attachTexture (ColorTextureOf 0) GL_COLOR_ATTACHMENT0_EXT;
              Fbo_attachTexture (ColorTextureOf 2) (GL_COLOR_ATTACHMENT0_EXT + 2)].
Proof.
  destruct (reattachTargets_structure (mkPortGroup [0; 1; 2]%nat (Some 1%N) false)
              net_group 1 eq_refl) as (body & Hrun & _ & _).
  - repeat (apply Forall_cons_2 || apply Forall_nil_2);
      (eexists; split; [reflexivity|]; intros; split; by eexists).
  - exists body. split; [exact Hrun|].
    vm_compute in Hrun. injection Hrun as Hrun.
    destruct body as [|c1 [|c2 [|c3 body]]]; simpl in Hrun.
    all: repeat case_match; simplify_eq; try reflexivity.
Defined.

(** ** Resizing a port group *)

Lemma resize_outport_round (fuel : nat) (s : State) (p : PortRef) (newsize : ivec2) :
  newsize ≠ ivec2_zero →
  render_outport s p →
  ∃ s',
    resize fuel p newsize s = Some (tt, s')
    ∧ sized s' p newsize
    ∧ (∀ q, sized s q newsize → sized s' q newsize)
    ∧ (∀ q, render_outport s q → render_outport s' q)
    ∧ trace s' = trace s.
Proof.
  intros Hzero (rp & Hp & Hout & Halive).
  pose proof (static_cast_deref _ _ _ Hp) as Hd.
  unfold resize. rewrite (bind_query _ _ s rp Hp). rewrite Hout.
  case_bool_decide as Hsame.
  { exists s. split_and!; try done. by exists rp. }
  rewrite bool_decide_false by done.
  set (fin := set_size newsize (set_validResult false rp)).
  assert (Hfin : ∀ s1, (∀ q, deref s1 q = deref s q) →
            (∀ rq, target_alive s rq → target_alive s1 rq) →
            let s' := set_port p (IsRenderPort fin) s1 in
            sized s' p newsize
            ∧ (∀ q, sized s q newsize → sized s' q newsize)
            ∧ (∀ q, render_outport s q → render_outport s' q)).
  { intros s1 Hd1 Ha1 s'.
    assert (Hp' : static_cast_RenderPort s' p = Some fin).
    { subst s'. eapply static_cast_set_port_eq. by rewrite Hd1. }
    assert (Hother : ∀ q, q ≠ p → static_cast_RenderPort s' q = static_cast_RenderPort s q).
    { intros q Hq. subst s'. rewrite static_cast_set_port_ne by done.
      unfold static_cast_RenderPort. by rewrite Hd1. }
    split_and!.
    - exists fin. by split_and!.
    - intros q (rq & Hq & Hoq & Hsq). destruct (decide (q = p)) as [->|Hqp].
      + exists fin. by split_and!.
      + exists rq. by rewrite Hother.
    - intros q (rq & Hq & Hoq & Haq). destruct (decide (q = p)) as [->|Hqp].
      + exists fin. split_and!; try done. rewrite Hp in Hq. injection Hq as <-.
        apply (Ha1 _) in Haq. exact Haq.
      + exists rq. rewrite Hother by done. split_and!; try done.
        apply (Ha1 _) in Haq. exact Haq. }
  destruct (renderTarget_ rp) as [r|] eqn:Hr.
  - unfold target_alive in Halive. rewrite Hr in Halive.
    destruct (deref_target s r) as [rt|] eqn:Ht; [|done].
    rewrite (bind_update_target r _ _ s rt Ht). eexists. split; [reflexivity|].
    destruct (Hfin (set_target r (Some (RenderTarget_resize newsize rt)) s))
      as (H1 & H2 & H3); [done| |by split_and!].
    intros rq. by apply target_alive_set_target with (rt0 := rt).
  - rewrite bind_ret. eexists. split; [reflexivity|].
    destruct (Hfin s) as (H1 & H2 & H3); [done|done|by split_and!].
Qed.

(** X21.  [PortGroup::resize] with a size other than (0,0) on a group of
    render outports leaves every port of the group with that recorded size,
    whether or not ports of the group share a target, and logs nothing. *)
Theorem PortGroup_resize_all (fuel : nat) (g : PortGroup) (s : State) (newsize : ivec2) :
  newsize ≠ ivec2_zero →
  Forall (render_outport s) (ports_ g) →
  ∃ s',
    PortGroup_resize fuel g newsize s = Some (tt, s')
    ∧ Forall (λ p, sized s' p newsize) (ports_ g)
    ∧ trace s' = trace s.
Proof.
  intros Hzero. unfold PortGroup_resize.
  enough (∀ l s, Forall (render_outport s) l →
            ∃ s', forM_ l (λ p, resize fuel p newsize) s = Some (tt, s')
                  ∧ Forall (λ p, sized s' p newsize) l
                  ∧ (∀ q, sized s q newsize → sized s' q newsize)
                  ∧ (∀ q, render_outport s q → render_outport s' q)
                  ∧ trace s' = trace s) as Hloop.
  { intros Hports. destruct (Hloop (ports_ g) s Hports) as (s' & ? & ? & _ & _ & ?).
    by exists s'. }
  clear s. induction l as [|p l IH]; intros s Hall.
  - exists s. by split_and!.
  - apply Forall_cons in Hall as [Hp Hrest].
    destruct (resize_outport_round fuel s p newsize Hzero Hp)
      as (s1 & Hstep & Hsp & Hkeep & Hro & Htr).
    destruct (IH s1) as (s' & Hloop & Hsized & Hkeep' & Hro' & Htr').
    { eapply Forall_impl; [exact Hrest|]. exact Hro. }
    exists s'. split_and!.
    + cbn [forM_]. unfold bind at 1. rewrite Hstep. exact Hloop.
    + constructor; [by apply Hkeep'|exact Hsized].
    + intros q Hq. by apply Hkeep', Hkeep.
    + intros q Hq. by apply Hro', Hro.
    + by rewrite Htr', Htr.
Qed.

Lemma PortGroup_resize_all_witness :
  ∃ s',
    PortGroup_resize 0 (mkPortGroup [0; 1; 2]%nat (Some 1%N) false) (640, 480) net_group
    = Some (tt, s')
    ∧ getSize s' 0 = Some (640, 480)
    ∧ getSize s' 2 = Some (640, 480)
    ∧ trace s' = [].
Proof.
  destruct (PortGroup_resize_all 0 (mkPortGroup [0; 1; 2]%nat (Some 1%N) false)
              net_group (640, 480)) as (s' & Hrun & _ & Htr).
  - discriminate.
  - repeat (apply Forall_cons_2 || apply Forall_nil_2);
      (eexists; split; [reflexivity|split; [reflexivity|vm_compute; discriminate]]).
  - exists s'. split; [exact Hrun|]. injection Hrun as <-. by split_and!.
Defined.

(** ** Swapping the target of an outport *)

Lemma setRenderTarget_run (s : State) (this : PortRef) (rp : RenderPort)
    (renderTarget : option TargetRef) :
  static_cast_RenderPort s this = Some rp →
  Port_isOutport (base rp) = true →
  setRenderTarget this renderTarget s
  = Some (tt, add_event (Invalidated this)
                (set_port this (IsRenderPort (set_renderTarget renderTarget rp)) s)).
Proof.
  intros Hp Ho. unfold setRenderTarget. rewrite (bind_query _ _ s rp Hp). by rewrite Ho.
Qed.

(** X22.  [setRenderTarget] on an outport replaces the target pointer and
    hands the invalidation to [Port::invalidate]; it neither frees the old
    target nor writes the valid flag.  Hence an outport whose target is taken
    away reports no valid result and size (0,0), and as soon as it is given a
    target again, it reports the validity it had before the swap. *)
Theorem setRenderTarget_keeps_valid_flag (fuel : nat) (s : State) (this : PortRef)
    (rp : RenderPort) (r : TargetRef) :
  static_cast_RenderPort s this = Some rp →
  Port_isOutport (base rp) = true →
  ∃ s1 s2,
    setRenderTarget this None s = Some (tt, s1)
    ∧ hasValidResult (S fuel) this s1 = Some (false, s1)
    ∧ getSize s1 this = Some ivec2_zero
    ∧ setRenderTarget this (Some r) s1 = Some (tt, s2)
    ∧ getRenderTarget s2 this = Some (Some r)
    ∧ hasValidResult (S fuel) this s2 = Some (validResult_ rp, s2)
    ∧ targets s2 = targets s
    ∧ trace s2 = (trace s ++ [Invalidated this; Invalidated this])%list.
Proof.
  intros Hp Ho.
  pose proof (static_cast_deref _ _ _ Hp) as Hd.
  set (s1 := add_event (Invalidated this)
               (set_port this (IsRenderPort (set_renderTarget None rp)) s)).
  assert (Hp1 : static_cast_RenderPort s1 this = Some (set_renderTarget None rp)).
  { subst s1. rewrite static_cast_add_event. by eapply static_cast_set_port_eq. }
  set (s2 := add_event (Invalidated this)
               (set_port this
                  (IsRenderPort (set_renderTarget (Some r) (set_renderTarget None rp))) s1)).
  assert (Hp2 : static_cast_RenderPort s2 this
                = Some (set_renderTarget (Some r) (set_renderTarget None rp))).
  { subst s2. rewrite static_cast_add_event. eapply static_cast_set_port_eq.
    by eapply static_cast_deref. }
  exists s1, s2. split_and!.
  - by apply setRenderTarget_run.
  - by rewrite (hasValidResult_outport fuel s1 this _ Hp1 Ho).
  - by rewrite (getSize_outport s1 this _ Hp1 Ho).
  - by apply setRenderTarget_run.
  - unfold getRenderTarget. rewrite Hp2. simpl. by rewrite Ho.
  - by rewrite (hasValidResult_outport fuel s2 this _ Hp2 Ho).
  - reflexivity.
  - subst s2 s1. simpl. by rewrite <- app_assoc.
Qed.

Lemma setRenderTarget_keeps_valid_flag_witness :
  ∃ s1 s2,
    setRenderTarget 0 None net_join = Some (tt, s1)
    ∧ hasValidResult 1 0 s1 = Some (false, s1)
    ∧ setRenderTarget 0 (Some 0%nat) s1 = Some (tt, s2)
    ∧ hasValidResult 1 0 s2 = Some (true, s2).
Proof.
  destruct (setRenderTarget_keeps_valid_flag 0 net_join 0 _ 0 eq_refl eq_refl)
    as (s1 & s2 & H1 & H2 & _ & H3 & _ & H4 & _).
  exists s1, s2. by split_and!.
Defined.

(** ** Why a connection is refused *)

(** X23.  When [doesSizeOriginConnectFailWithPort] answers true, the base
    connection test passes, so that [testConnectivity] depends on the size
    origins alone: it refuses the connection exactly when the inport carries a
    size origin that differs from the derived origin of this port and the
    owning processor's [testSizeOrigin] turns it down. *)
Theorem size_origin_is_the_reason (fuel : nat) (s : State) (this inport : PortRef)
    (me rin : RenderPort) (so_this so_in : voidptr) :
  doesSizeOriginConnectFailWithPort s this inport = Some true →
  static_cast_RenderPort s this = Some me →
  static_cast_RenderPort s inport = Some rin →
  getSizeOrigin fuel s this = Some so_this →
  getSizeOrigin fuel s inport = Some so_in →
  Port_testConnectivity s this inport = Some true
  ∧ proc_id (processor_ (base me)) ≠ proc_id (processor_ (base rin))
  ∧ (testConnectivity fuel s this inport = Some false
     ↔ so_in ≠ null ∧ so_in ≠ so_this
       ∧ proc_testSizeOrigin (processor_ (base me)) this so_in = false).
Proof.
  intros Hfail Hme Hrin Hthis Hin.
  unfold doesSizeOriginConnectFailWithPort in Hfail.
  rewrite Hme in Hfail. simpl in Hfail.
  rewrite (static_cast_deref _ _ _ Hrin) in Hfail. simpl in Hfail.
  injection Hfail as Hfail.
  repeat (apply andb_prop in Hfail as [Hfail ?]).
  assert (Hbase : Port_testConnectivity s this inport = Some true).
  { unfold Port_testConnectivity.
    rewrite (static_cast_deref _ _ _ Hme), (static_cast_deref _ _ _ Hrin). simpl.
    f_equal. repeat (apply andb_true_intro; split); done. }
  split_and!.
  - exact Hbase.
  - intros Heq. rewrite Heq, N.eqb_refl in *. done.
  - unfold testConnectivity. rewrite Hbase. simpl.
    rewrite Hme. simpl. rewrite Hrin. simpl. rewrite Hin. simpl.
    destruct (N.eqb_spec so_in null) as [->|Hnull].
    { split; [done|]. by intros [? _]. }
    rewrite Hthis. simpl.
    destruct (N.eqb_spec so_in so_this) as [->|Hne].
    { split; [done|]. by intros (_ & ? & _). }
    split.
    + intros [= ->]. by split_and!.
    + intros (_ & _ & ->). reflexivity.
Qed.

Lemma size_origin_is_the_reason_witness :
  testConnectivity 2 (net_apart false 7) 0 1 = Some false
  ↔ 7%N ≠ null ∧ 7%N ≠ null ∧ false = false.
Proof.
  exact (proj2 (proj2 (size_origin_is_the_reason 2 (net_apart false 7) 0 1 _ _ null 7
                         eq_refl eq_refl eq_refl eq_refl eq_refl))).
Defined.
